(** * Diskpart_GUI: the command / execution / parsing pipeline

    A shallow embedding of
      - the command builder module   (in src/shared/types.ts),
      - the command executor, the output parser and the error classes
                                     (in src/main/diskpart/executor.ts),
      - the elevation probe          (src/main/utils/privileges.ts),
      - the request handlers of the main process
                                     (in src/shared/types.ts),
      - the safety checks and input validation of the renderer
                                     (in unnamed/part_000),
    together with the fragment of the JavaScript runtime these files call.

    Conventions of the embedding.
      - A JavaScript string is a [string]; the text is taken to be ASCII:
        [toLowerCase], [toUpperCase], [trim] and the regular expression
        classes act on the ASCII letters, digits and white space, and leave
        every other character alone.  The runtime's case mappings reach
        further (its [toUpperCase] sends U+0131 to I and U+017F to S), so
        a property that depends on the casing of arbitrary text is stated
        through [toUpperCase] and [toLowerCase] themselves, or for ASCII
        text ([isAsciiText]).
      - A JavaScript [number] is [NaN], an infinity or a rational; integers
        are exact (the runtime's doubles agree with them below 2^53).
      - [undefined] is [None].
      - A function that may throw returns a [result]; the asynchronous
        executor runs in a small monad that records every call it makes to
        the outside world (subprocesses, files, the logger). *)

From Stdlib Require Import String Ascii List Bool Arith ZArith QArith Lia.
From Stdlib Require Import DecimalString.
Import ListNotations.
Close Scope Q_scope.
Open Scope nat_scope.
Open Scope string_scope.

(** ** The JavaScript runtime fragment *)

Module JS.

(** *** Numbers *)

Inductive number : Type :=
| NaN
| Infinity
| NegInfinity
| Num (q : Q).

Definition ofZ (z : Z) : number := Num (inject_Z z).

(** [Number.isInteger] *)
Definition isInteger (x : number) : bool :=
  match x with
  | Num q => Pos.eqb (Qden (Qred q)) 1%positive
  | _ => false
  end.

(** [x < y]; every comparison with [NaN] is false. *)
Definition num_lt (x y : number) : bool :=
  match x, y with
  | NaN, _ | _, NaN => false
  | _, NegInfinity => false
  | NegInfinity, _ => true
  | Infinity, _ => false
  | _, Infinity => true
  | Num p, Num q => match Qcompare p q with Lt => true | _ => false end
  end.

(** [x <= y] *)
Definition num_le (x y : number) : bool :=
  match x, y with
  | NaN, _ | _, NaN => false
  | NegInfinity, _ => true
  | _, Infinity => true
  | _, NegInfinity => false
  | Infinity, _ => false
  | Num p, Num q => match Qcompare p q with Gt => false | _ => true end
  end.

(** [x * y] *)
Definition num_mul (x y : number) : number :=
  let sgn (a : number) : comparison :=
    match a with
    | Num q => Qcompare q 0%Q
    | Infinity => Gt
    | NegInfinity => Lt
    | NaN => Eq
    end in
  match x, y with
  | NaN, _ | _, NaN => NaN
  | Num p, Num q => Num (Qred (p * q))
  | _, _ =>
      match sgn x, sgn y with
      | Eq, _ | _, Eq => NaN
      | Gt, Gt | Lt, Lt => Infinity
      | _, _ => NegInfinity
      end
  end.

(** *** Characters *)

Definition code (c : ascii) : nat := nat_of_ascii c.

Definition between (lo hi : nat) (c : ascii) : bool :=
  Nat.leb lo (code c) && Nat.leb (code c) hi.

Definition isUpper : ascii -> bool := between 65 90.
Definition isLower : ascii -> bool := between 97 122.
Definition isDigit : ascii -> bool := between 48 57.

(** White space and line terminators: TAB, LF, VT, FF, CR, SP. *)
Definition isWhiteSpace (c : ascii) : bool :=
  between 9 13 c || Nat.eqb (code c) 32.

Definition lowerChar (c : ascii) : ascii :=
  if isUpper c then ascii_of_nat (code c + 32) else c.

Definition upperChar (c : ascii) : ascii :=
  if isLower c then ascii_of_nat (code c - 32) else c.

(** *** Strings *)

Fixpoint mapChars (f : ascii -> ascii) (s : string) : string :=
  match s with
  | EmptyString => EmptyString
  | String c s' => String (f c) (mapChars f s')
  end.

(** [s.toLowerCase()] and [s.toUpperCase()] on ASCII text, where they
    change the letters a-z and A-Z and nothing else.  Outside ASCII the
    runtime maps more: upper-casing sends the dotless i (U+0131) to I and
    the long s (U+017F) to S, and some characters to several.  A string
    of the embedding stands for ASCII text; what is proved of all strings
    through these two functions reads, for the runtime, as a statement
    about the upper-cased or lower-cased text. *)
Definition toLowerCase : string -> string := mapChars lowerChar.
Definition toUpperCase : string -> string := mapChars upperChar.

(** [s.startsWith(p)] *)
Fixpoint startsWith (s p : string) {struct p} : bool :=
  match p with
  | EmptyString => true
  | String a p' =>
      match s with
      | EmptyString => false
      | String b s' => Ascii.eqb a b && startsWith s' p'
      end
  end.

(** [s.includes(sub)] *)
Fixpoint includes (s sub : string) : bool :=
  startsWith s sub ||
  match s with
  | EmptyString => false
  | String _ s' => includes s' sub
  end.

Fixpoint trimStart (s : string) : string :=
  match s with
  | EmptyString => EmptyString
  | String c s' => if isWhiteSpace c then trimStart s' else s
  end.

Fixpoint trimEnd (s : string) : string :=
  match s with
  | EmptyString => EmptyString
  | String c s' =>
      match trimEnd s' with
      | EmptyString => if isWhiteSpace c then EmptyString else String c EmptyString
      | t => String c t
      end
  end.

(** [s.trim()] *)
Definition trim (s : string) : string := trimEnd (trimStart s).

(** [s.split(sep)] for a one-character separator. *)
Fixpoint split (sep : ascii) (s : string) : list string :=
  match s with
  | EmptyString => [EmptyString]
  | String c s' =>
      if Ascii.eqb c sep then EmptyString :: split sep s'
      else match split sep s' with
           | l :: ls => String c l :: ls
           | [] => [String c EmptyString]
           end
  end.

(** [s.split] on the pattern \s+ : the pieces between maximal runs of white space. *)
Fixpoint splitWs (s : string) : list string :=
  match s with
  | EmptyString => [EmptyString]
  | String c s' =>
      if isWhiteSpace c then
        match s' with
        | String d _ => if isWhiteSpace d then splitWs s' else EmptyString :: splitWs s'
        | EmptyString => EmptyString :: splitWs s'
        end
      else match splitWs s' with
           | l :: ls => String c l :: ls
           | [] => [String c EmptyString]
           end
  end.

(** [xs.join(sep)] *)
Fixpoint join (sep : string) (xs : list string) : string :=
  match xs with
  | [] => EmptyString
  | [x] => x
  | x :: rest => x ++ sep ++ join sep rest
  end.

(** [xs.slice(from, to)] for [0 <= from]. *)
Definition slice {A} (xs : list A) (from to : nat) : list A :=
  firstn (to - from) (skipn from xs).

(** [xs.slice(from)] *)
Definition sliceFrom {A} (xs : list A) (from : nat) : list A := skipn from xs.

(** [xs.findIndex(p)], [None] for -1 *)
Fixpoint findIndex {A} (p : A -> bool) (xs : list A) : option nat :=
  match xs with
  | [] => None
  | x :: rest => if p x then Some 0 else option_map S (findIndex p rest)
  end.

(** [xs.includes(x)] on an array of strings *)
Definition arrayIncludes (xs : list string) (x : string) : bool :=
  existsb (String.eqb x) xs.

(** String conversion of a possibly missing array element, as [+] does it. *)
Definition str (x : option string) : string :=
  match x with
  | Some s => s
  | None => "undefined"
  end.

(** [x || undefined] on a possibly missing string. *)
Definition truthy (x : option string) : option string :=
  match x with
  | Some EmptyString | None => None
  | Some s => Some s
  end.

(** [x || dflt] on a possibly missing string: [undefined] and the empty
    string are both falsy. *)
Definition orElse (x : option string) (dflt : string) : string :=
  match x with
  | Some EmptyString | None => dflt
  | Some s => s
  end.

Definition LF : ascii := "010"%char.
Definition nl : string := String LF EmptyString.
Definition dquote : string := String "034"%char EmptyString.

(** Decimal rendering of a natural number, as a template literal renders a
    string length. *)
Definition showNat (n : nat) : string :=
  DecimalString.NilZero.string_of_uint (Nat.to_uint n).

(** Decimal rendering of an integer (a time stamp). *)
Definition showZ (z : Z) : string :=
  DecimalString.NilZero.string_of_int (Z.to_int z).

(** [parseInt(s, 10)]: leading white space, an optional sign, then the
    longest run of decimal digits; [NaN] when there is no digit. *)
Fixpoint digitsValue (acc : Z) (s : string) : Z :=
  match s with
  | String c s' =>
      if isDigit c then digitsValue (10 * acc + Z.of_nat (code c - 48))%Z s'
      else acc
  | EmptyString => acc
  end.

Definition startsWithDigit (s : string) : bool :=
  match s with
  | String c _ => isDigit c
  | EmptyString => false
  end.

Definition parseInt (s : string) : number :=
  match trimStart s with
  | String "-" r => if startsWithDigit r then ofZ (- digitsValue 0%Z r)%Z else NaN
  | String "+" r => if startsWithDigit r then ofZ (digitsValue 0%Z r) else NaN
  | r => if startsWithDigit r then ofZ (digitsValue 0%Z r) else NaN
  end.

(** [s.indexOf(sub)], [None] for -1 *)
Fixpoint indexOf (s sub : string) : option nat :=
  if startsWith s sub then Some 0
  else match s with
       | EmptyString => None
       | String _ s' => option_map S (indexOf s' sub)
       end.

(** [s.substring(from)] for [0 <= from] *)
Fixpoint substringFrom (s : string) (from : nat) : string :=
  match from, s with
  | 0, _ => s
  | S n, String _ s' => substringFrom s' n
  | S _, EmptyString => EmptyString
  end.

(** [x === y] on numbers *)
Definition num_eq (x y : number) : bool :=
  match x, y with
  | Num p, Num q => Qeq_bool p q
  | Infinity, Infinity | NegInfinity, NegInfinity => true
  | _, _ => false
  end.

End JS.

(** ** Regular expressions

    A backtracking matcher for the regular expressions the parser and the
    builder use: the pattern is data, the matcher follows the language
    definition (continuation-passing matchers, RepeatMatcher for the
    quantifiers, the leftmost start position wins). *)

Module Regex.
Import JS.

Inductive regex : Type :=
| Chr (invert : bool) (p : ascii -> bool)  (* a character class *)
| Eps
| Seq (r1 r2 : regex)
| Quant (min : nat) (max : option nat) (greedy : bool) (r : regex)
| Group (i : nat) (r : regex)              (* capture group number i *)
| Bol                                      (* ^ *)
| Eol.                                     (* $ *)

(** The pattern syntax. *)
Definition ws : regex := Chr false isWhiteSpace.          (* \s *)
Definition nonWs : regex := Chr true isWhiteSpace.        (* \S *)
Definition digit : regex := Chr false isDigit.            (* \d *)
Definition char (c : ascii) : regex := Chr false (Ascii.eqb c).
Definition range (lo hi : ascii) : regex := Chr false (between (code lo) (code hi)).

Fixpoint memChar (cs : string) (c : ascii) : bool :=
  match cs with
  | EmptyString => false
  | String d cs' => Ascii.eqb d c || memChar cs' c
  end.

Definition oneOf (cs : string) : regex := Chr false (memChar cs).  (* [...] *)

Fixpoint lit (s : string) : regex :=
  match s with
  | EmptyString => Eps
  | String c EmptyString => char c
  | String c s' => Seq (char c) (lit s')
  end.

Fixpoint seqs (rs : list regex) : regex :=
  match rs with
  | [] => Eps
  | [r] => r
  | r :: rs' => Seq r (seqs rs')
  end.

Definition star (r : regex) : regex := Quant 0 None true r.      (* r*  *)
Definition plus (r : regex) : regex := Quant 1 None true r.      (* r+  *)
Definition opt (r : regex) : regex := Quant 0 (Some 1) true r.   (* r?  *)
Definition lazyStar (r : regex) : regex := Quant 0 None false r. (* r*? *)

(** The matcher state: the index reached, the input from there on, and the
    captures made so far. *)
Record state : Type := mkState {
  pos : nat;
  rest : string;
  caps : list (nat * string)
}.

Definition cont : Type := state -> option state.

Fixpoint capture (i : nat) (cs : list (nat * string)) : option string :=
  match cs with
  | [] => None
  | (j, s) :: cs' => if Nat.eqb i j then Some s else capture i cs'
  end.

Definition setCapture (i : nat) (s : string) (x : state) : state :=
  mkState (pos x) (rest x) ((i, s) :: caps x).

Definition clearCaptures (inner : list nat) (x : state) : state :=
  mkState (pos x) (rest x)
          (filter (fun e => negb (existsb (Nat.eqb (fst e)) inner)) (caps x)).

Fixpoint groups (r : regex) : list nat :=
  match r with
  | Seq r1 r2 => groups r1 ++ groups r2
  | Quant _ _ _ r' => groups r'
  | Group i r' => i :: groups r'
  | _ => []
  end.

(** With the [i] flag a character matches a class when its upper-case or
    lower-case form is a member. *)
Definition charMatches (icase invert : bool) (p : ascii -> bool) (c : ascii) : bool :=
  xorb invert (if icase then p (upperChar c) || p (lowerChar c) else p c).

(** RepeatMatcher: an iteration that matches the empty string is rejected
    once the minimum is met; the captures inside the quantified pattern are
    reset at every iteration.  Every iteration lowers [min] or consumes a
    character, so [min + length rest + 1] steps of [fuel] never run out. *)
Fixpoint repeatMatcher (m : state -> cont -> option state) (inner : list nat)
    (fuel min : nat) (max : option nat) (greedy : bool)
    (x : state) (c : cont) : option state :=
  match fuel with
  | 0 => None
  | S fuel' =>
      match max with
      | Some 0 => c x
      | _ =>
          let d : cont := fun y =>
            if Nat.eqb min 0 && Nat.eqb (pos y) (pos x) then None
            else repeatMatcher m inner fuel' (Nat.pred min)
                               (option_map Nat.pred max) greedy y c in
          let xr := clearCaptures inner x in
          if negb (Nat.eqb min 0) then m xr d
          else if greedy then
                 match m xr d with
                 | Some z => Some z
                 | None => c x
                 end
               else
                 match c x with
                 | Some z => Some z
                 | None => m xr d
                 end
      end
  end.

Fixpoint matcher (icase : bool) (r : regex) (x : state) (c : cont) : option state :=
  match r with
  | Chr invert p =>
      match rest x with
      | String ch s' =>
          if charMatches icase invert p ch
          then c (mkState (S (pos x)) s' (caps x))
          else None
      | EmptyString => None
      end
  | Eps => c x
  | Seq r1 r2 => matcher icase r1 x (fun y => matcher icase r2 y c)
  | Quant min max greedy r' =>
      repeatMatcher (matcher icase r') (groups r')
                    (min + String.length (rest x) + 1) min max greedy x c
  | Group i r' =>
      matcher icase r' x
              (fun y => c (setCapture i (substring 0 (pos y - pos x) (rest x)) y))
  | Bol => if Nat.eqb (pos x) 0 then c x else None
  | Eol => match rest x with
           | EmptyString => c x
           | _ => None
           end
  end.

(** The leftmost match: start positions are tried in order. *)
Fixpoint searchFrom (icase : bool) (r : regex) (p : nat) (s : string)
  : option (list (nat * string)) :=
  match matcher icase r (mkState p s []) Some with
  | Some y => Some ((0, substring 0 (pos y - p) s) :: caps y)
  | None =>
      match s with
      | EmptyString => None
      | String _ s' => searchFrom icase r (S p) s'
      end
  end.

(** [s.match(r)] and [r.exec(s)] for a pattern without the [g] flag: the
    captures of the leftmost match, capture 0 being the whole match. *)
Definition exec (icase : bool) (r : regex) (s : string)
  : option (list (nat * string)) :=
  searchFrom icase r 0 s.

(** [r.test(s)] *)
Definition test (icase : bool) (r : regex) (s : string) : bool :=
  match exec icase r s with
  | Some _ => true
  | None => false
  end.

(** Where the matcher stands in the input. *)
Definition place (x : state) : nat * string := (pos x, rest x).

(** [y] lies at or after [x] in the same input. *)
Definition advances (x y : state) : Prop :=
  String.length (rest y) <= String.length (rest x) /\
  pos y + String.length (rest y) = pos x + String.length (rest x).

(** What a pattern can consume, captures and quantifier bounds aside:
    [reaches icase r (p, s) (p', s')] when [r] can take the matcher from
    index [p] with input [s] left to index [p'] with input [s'] left. *)
Inductive reaches (icase : bool) : regex -> nat * string -> nat * string -> Prop :=
| R_chr invert p c s n :
    charMatches icase invert p c = true ->
    reaches icase (Chr invert p) (n, String c s) (S n, s)
| R_eps a : reaches icase Eps a a
| R_seq r1 r2 a b c :
    reaches icase r1 a b -> reaches icase r2 b c -> reaches icase (Seq r1 r2) a c
| R_stop min max greedy r a : reaches icase (Quant min max greedy r) a a
| R_iter min max greedy r a b c :
    reaches icase r a b ->
    reaches icase (Quant min max greedy r) b c ->
    reaches icase (Quant min max greedy r) a c
| R_group i r a b : reaches icase r a b -> reaches icase (Group i r) a b
| R_bol s : reaches icase Bol (0, s) (0, s)
| R_eol n : reaches icase Eol (n, EmptyString) (n, EmptyString).

End Regex.


(** ** Error classes *)

Module Errors.
Import JS.

(** Rendering of an arbitrary number inside a template literal
    ([Number::toString]) belongs to the runtime; the code is verified for
    every such rendering. *)
Class NumberFormat : Type := numberToString : number -> string.

Record DiskpartError : Type := mkError {
  name : string;
  message : string;
  code : string;
  details : option string
}.

Definition withDefault (x : option string) (dflt : string) : string :=
  match x with
  | Some s => s
  | None => dflt
  end.

Section Classes.
Context {fmt : NumberFormat}.

Definition PrivilegeError (message details : option string) : DiskpartError :=
  mkError "PrivilegeError"
          (withDefault message "Administrator privileges required")
          "PRIVILEGE_ERROR" details.

Definition DiskNotFoundError (diskId : number) (details : option string) : DiskpartError :=
  mkError "DiskNotFoundError"
          ("Disk " ++ numberToString diskId ++ " not found")
          "DISK_NOT_FOUND" details.

Definition PartitionNotFoundError (partitionId : number) (details : option string)
  : DiskpartError :=
  mkError "PartitionNotFoundError"
          ("Partition " ++ numberToString partitionId ++ " not found")
          "PARTITION_NOT_FOUND" details.

Definition CommandExecutionError (message : string) (details : option string)
  : DiskpartError :=
  mkError "CommandExecutionError" message "COMMAND_EXECUTION_ERROR" details.

Definition CommandTimeoutError (timeout : number) (details : option string)
  : DiskpartError :=
  mkError "CommandTimeoutError"
          ("Command timed out after " ++ numberToString timeout ++ "ms")
          "COMMAND_TIMEOUT" details.

Definition ParseError (message : string) (details : option string) : DiskpartError :=
  mkError "ParseError" message "PARSE_ERROR" details.

Definition InvalidCommandError (message : string) (details : option string)
  : DiskpartError :=
  mkError "InvalidCommandError" message "INVALID_COMMAND" details.

Definition AccessDeniedError (message details : option string) : DiskpartError :=
  mkError "AccessDeniedError"
          (withDefault message "Access denied to disk or partition")
          "ACCESS_DENIED" details.

End Classes.

(** The machine codes of the error classes. *)
Definition taxonomy : list string :=
  [ "PRIVILEGE_ERROR"; "DISK_NOT_FOUND"; "PARTITION_NOT_FOUND";
    "COMMAND_EXECUTION_ERROR"; "COMMAND_TIMEOUT"; "PARSE_ERROR";
    "INVALID_COMMAND"; "ACCESS_DENIED" ].

(** The outcome of a call that may throw. *)
Inductive result (E A : Type) : Type :=
| Ok (a : A)
| Throw (e : E).
Arguments Ok {E A} a.
Arguments Throw {E A} e.

End Errors.

(** ** Script builder *)

Module Commands.
Import JS Regex Errors.

Section Builders.
Context {fmt : NumberFormat}.

Definition buildListDisksCommand : string := "list disk".
Definition buildListVolumesCommand : string := "list volume".
Definition buildListPartitionsCommand : string := "list partition".

Definition buildSelectDiskCommand (diskNumber : number) : result DiskpartError string :=
  if negb (isInteger diskNumber) || num_lt diskNumber (ofZ 0) then
    Throw (InvalidCommandError ("Invalid disk number: " ++ numberToString diskNumber) None)
  else Ok ("select disk " ++ numberToString diskNumber).

Definition buildDetailDiskCommand : string := "detail disk".

Definition buildSelectPartitionCommand (partitionNumber : number)
  : result DiskpartError string :=
  if negb (isInteger partitionNumber) || num_lt partitionNumber (ofZ 1) then
    Throw (InvalidCommandError
             ("Invalid partition number: " ++ numberToString partitionNumber) None)
  else Ok ("select partition " ++ numberToString partitionNumber).

Definition buildCleanDiskCommand : string := "clean".
Definition buildCleanAllCommand : string := "clean all".

Definition buildCreatePartitionCommand (size : option number)
  : result DiskpartError string :=
  match size with
  | Some size =>
      if negb (isInteger size) || num_le size (ofZ 0) then
        Throw (InvalidCommandError
                 ("Invalid partition size: " ++ numberToString size) None)
      else Ok ("create partition primary size=" ++ numberToString size)
  | None => Ok "create partition primary"
  end.

Definition buildDeletePartitionCommand : string := "delete partition".

Definition validFileSystems : list string := ["NTFS"; "FAT32"; "exFAT"; "FAT"].

Definition buildFormatVolumeCommand
    (fileSystem : string) (label : option string) (quick : option bool)
  : result DiskpartError string :=
  let quick := match quick with Some b => b | None => true end in
  let fsUpper := toUpperCase fileSystem in
  if negb (arrayIncludes validFileSystems fsUpper) then
    Throw (InvalidCommandError
             ("Invalid file system: " ++ fileSystem ++ ". Must be one of: "
              ++ join ", " validFileSystems) None)
  else
    let command := "format fs=" ++ fsUpper in
    let withLabel : result DiskpartError string :=
      match label with
      | None | Some EmptyString => Ok command
      | Some label =>
          let maxLength := if String.eqb fsUpper "NTFS" then 32 else 11 in
          if Nat.ltb maxLength (String.length label) then
            Throw (InvalidCommandError
                     ("Label too long: " ++ showNat (String.length label)
                      ++ " characters (max " ++ showNat maxLength ++ " for "
                      ++ fsUpper ++ ")") None)
          else Ok (command ++ " label=" ++ dquote ++ label ++ dquote)
      end in
    match withLabel with
    | Throw e => Throw e
    | Ok command => Ok (if quick then command ++ " quick" else command)
    end.

(** The drive letter pattern:  ^[A-Z]$  *)
Definition driveLetterRe : regex := seqs [Bol; range "A" "Z"; Eol].

Definition buildAssignLetterCommand (letter : string) : result DiskpartError string :=
  let upperLetter := toUpperCase letter in
  if negb (test false driveLetterRe upperLetter) then
    Throw (InvalidCommandError
             ("Invalid drive letter: " ++ letter ++ ". Must be A-Z") None)
  else Ok ("assign letter=" ++ upperLetter).

Definition buildRemoveLetterCommand (letter : string) : result DiskpartError string :=
  let upperLetter := toUpperCase letter in
  if negb (test false driveLetterRe upperLetter) then
    Throw (InvalidCommandError
             ("Invalid drive letter: " ++ letter ++ ". Must be A-Z") None)
  else Ok ("remove letter=" ++ upperLetter).

Definition buildSetActiveCommand : string := "active".

Definition buildExtendPartitionCommand (size : option number)
  : result DiskpartError string :=
  match size with
  | Some size =>
      if negb (isInteger size) || num_le size (ofZ 0) then
        Throw (InvalidCommandError ("Invalid extend size: " ++ numberToString size) None)
      else Ok ("extend size=" ++ numberToString size)
  | None => Ok "extend"
  end.

Definition buildShrinkPartitionCommand (desired : number) (minimum : option number)
  : result DiskpartError string :=
  if negb (isInteger desired) || num_le desired (ofZ 0) then
    Throw (InvalidCommandError ("Invalid shrink size: " ++ numberToString desired) None)
  else
    let command := "shrink desired=" ++ numberToString desired in
    match minimum with
    | Some minimum =>
        if negb (isInteger minimum) || num_le minimum (ofZ 0) then
          Throw (InvalidCommandError
                   ("Invalid minimum shrink size: " ++ numberToString minimum) None)
        else Ok (command ++ " minimum=" ++ numberToString minimum)
    | None => Ok command
    end.

Definition buildCommandScript (commands : list string) : result DiskpartError string :=
  match commands with
  | [] => Throw (InvalidCommandError "No commands provided" None)
  | _ => Ok (join nl commands)
  end.

(** Evaluating the elements of an array literal in order: the first
    builder that throws ends the evaluation. *)
Definition andThen {A B} (r : result DiskpartError A)
    (k : A -> result DiskpartError B) : result DiskpartError B :=
  match r with
  | Ok a => k a
  | Throw e => Throw e
  end.

Definition buildDetailDiskScript (diskNumber : number) : result DiskpartError string :=
  andThen (buildSelectDiskCommand diskNumber) (fun selectDisk =>
  buildCommandScript [selectDisk; buildDetailDiskCommand; buildListPartitionsCommand]).

Definition buildFormatPartitionScript (diskNumber partitionNumber : number)
    (fileSystem : string) (label : option string) : result DiskpartError string :=
  andThen (buildSelectDiskCommand diskNumber) (fun selectDisk =>
  andThen (buildSelectPartitionCommand partitionNumber) (fun selectPartition =>
  andThen (buildFormatVolumeCommand fileSystem label None) (fun format =>
  buildCommandScript [selectDisk; selectPartition; format]))).

End Builders.
End Commands.

(** ** Output parser *)

Module DiskInfo.
Inductive Status : Type := Online | Offline | NoMedia.
Inductive DiskType : Type := Basic | Dynamic.
Inductive PartitionStyle : Type := MBR | GPT.
End DiskInfo.

Module PartitionInfo.
Inductive PartitionType : Type := Primary | Extended | Logical.
Inductive Status : Type := Healthy | Active | System | Boot.
Record t : Type := mk {
  id : JS.number;
  type : PartitionType;
  size : JS.number;
  offset : JS.number;
  status : Status;
  fileSystem : option string;
  label : option string;
  driveLetter : option string
}.
End PartitionInfo.

Module VolumeInfo.
Inductive VolumeType : Type := Partition | Removable | CDROM.
Inductive Status : Type := Healthy | Failed.
Record t : Type := mk {
  letter : option string;
  label : option string;
  fileSystem : string;
  type : VolumeType;
  size : JS.number;
  status : Status;
  info : string
}.
End VolumeInfo.

Module Parser.
Import JS Regex Errors.

Record DiskInfo : Type := mkDisk {
  id : number;
  status : DiskInfo.Status;
  size : number;
  free : number;
  isSystemDisk : bool;
  isBootDisk : bool;
  diskType : DiskInfo.DiskType;
  partitionStyle : DiskInfo.PartitionStyle;
  partitions : list PartitionInfo.t
}.

(** The size pattern, with the [i] flag:  (\d+) \s* ([KMGT]?B)  *)
Definition sizeRe : regex :=
  seqs [Group 1 (plus digit); star ws; Group 2 (seqs [opt (oneOf "KMGT"); char "B"])].

Definition multipliers : list (string * Z) :=
  [ ("B", 1); ("KB", 1024); ("MB", 1024 * 1024); ("GB", 1024 * 1024 * 1024);
    ("TB", 1024 * 1024 * 1024 * 1024) ]%Z.

Fixpoint lookup (k : string) (table : list (string * Z)) : option Z :=
  match table with
  | [] => None
  | (k', v) :: table' => if String.eqb k k' then Some v else lookup k table'
  end.

Definition parseSize (sizeStr : string) : number :=
  match exec true sizeRe sizeStr with
  | None => ofZ 0
  | Some m =>
      let value := parseInt (str (capture 1 m)) in
      let unit := toUpperCase (str (capture 2 m)) in
      num_mul value (ofZ (match lookup unit multipliers with
                          | Some k => k
                          | None => 1%Z
                          end))
  end.

Definition normalizeStatus (status : string) : DiskInfo.Status :=
  let normalized := toLowerCase (trim status) in
  if includes normalized "online" then DiskInfo.Online
  else if includes normalized "offline" then DiskInfo.Offline
  else if includes normalized "no media" then DiskInfo.NoMedia
  else DiskInfo.Offline.

Definition normalizeVolumeType (type : string) : VolumeInfo.VolumeType :=
  let normalized := toLowerCase (trim type) in
  if includes normalized "removable" then VolumeInfo.Removable
  else if includes normalized "cd" || includes normalized "dvd" then VolumeInfo.CDROM
  else VolumeInfo.Partition.

Definition normalizePartitionType (type : string) : PartitionInfo.PartitionType :=
  let normalized := toLowerCase (trim type) in
  if includes normalized "extended" then PartitionInfo.Extended
  else if includes normalized "logical" then PartitionInfo.Logical
  else PartitionInfo.Primary.

(** The [for] loop of each list parser: every data line either pushes one
    record or is passed over.  Nothing in a loop body throws, so its
    [try]/[catch] never fires. *)
Definition collect {A} (row : string -> option A) (dataLines : list string) : list A :=
  fold_left (fun acc line =>
               match row line with
               | Some r => (acc ++ [r])%list
               | None => acc
               end) dataLines [].

(** The header search and the [slice(headerIndex + 2)] the three list
    parsers share. *)
Definition parseTable {A} (marker notFound : string) (row : string -> option A)
    (output : string) : result DiskpartError (list A) :=
  let lines := map trim (split LF output) in
  match findIndex (fun line => includes line marker) lines with
  | None => Throw (ParseError notFound None)
  | Some headerIndex =>
      let dataLines := sliceFrom lines (headerIndex + 2) in
      Ok (collect row dataLines)
  end.

(** The row pattern of [parseListDisk], written here with blanks between
    its parts:
      Disk \s+ (\d+) \s+ (\S+ (?:\s+\S+)*? ) \s+ (\d+\s+[KMGT]?B) \s+
      (\d+\s+[KMGT]?B) (?:\s+ ( \* ) )? \s* (?:\s+ ( \* ) )?           *)
Definition diskLineRe : regex :=
  seqs [ lit "Disk"; plus ws; Group 1 (plus digit); plus ws;
         Group 2 (seqs [plus nonWs; lazyStar (seqs [plus ws; plus nonWs])]); plus ws;
         Group 3 (seqs [plus digit; plus ws; opt (oneOf "KMGT"); char "B"]); plus ws;
         Group 4 (seqs [plus digit; plus ws; opt (oneOf "KMGT"); char "B"]);
         opt (seqs [plus ws; Group 5 (char "*")]); star ws;
         opt (seqs [plus ws; Group 6 (char "*")]) ].

Definition isStar (x : option string) : bool :=
  match x with
  | Some s => String.eqb s "*"
  | None => false
  end.

Definition parseDiskLine (line : string) : option DiskInfo :=
  if String.eqb line "" || negb (startsWith line "Disk ") then None
  else
    match exec false diskLineRe line with
    | None => None
    | Some m =>
        let diskNum := capture 1 m in
        let status := capture 2 m in
        let sizeStr := capture 3 m in
        let freeStr := capture 4 m in
        let dynMarker := capture 5 m in
        let gptMarker := capture 6 m in
        Some (mkDisk (parseInt (str diskNum))
                     (normalizeStatus (str status))
                     (parseSize (str sizeStr))
                     (parseSize (str freeStr))
                     false
                     false
                     (if isStar dynMarker then DiskInfo.Dynamic else DiskInfo.Basic)
                     (if isStar gptMarker then DiskInfo.GPT else DiskInfo.MBR)
                     [])
    end.

Definition parseListDisk : string -> result DiskpartError (list DiskInfo) :=
  parseTable "Disk ###" "Could not find disk list header in output" parseDiskLine.

Definition knownFileSystems : list string := ["NTFS"; "FAT32"; "FAT"; "exFAT"; "RAW"].

Definition parseVolumeLine (line : string) : option VolumeInfo.t :=
  if String.eqb line "" || negb (startsWith line "Volume ") then None
  else
    let parts := splitWs line in
    if Nat.ltb (List.length parts) 7 then None
    else
      let volumeNum := nth_error parts 1 in
      let letter :=
        match nth_error parts 2 with
        | Some p => if negb (String.eqb p "") && Nat.eqb (String.length p) 1
                    then Some p else None
        | None => None
        end in
      let fsIndex :=
        match findIndex (fun p => arrayIncludes knownFileSystems (toUpperCase p)) parts with
        | Some i => i
        | None => 4
        end in
      let label :=
        if Nat.ltb 3 fsIndex then Some (join " " (slice parts 3 fsIndex)) else None in
      let fileSystem := orElse (nth_error parts fsIndex) "Unknown" in
      let type := orElse (nth_error parts (fsIndex + 1)) "Partition" in
      let sizeStr :=
        str (nth_error parts (fsIndex + 2)) ++ " " ++ str (nth_error parts (fsIndex + 3)) in
      let status := orElse (nth_error parts (fsIndex + 4)) "Unknown" in
      let info := join " " (sliceFrom parts (fsIndex + 5)) in
      Some (VolumeInfo.mk letter
                          (truthy label)
                          fileSystem
                          (normalizeVolumeType type)
                          (parseSize sizeStr)
                          (if String.eqb status "Healthy"
                           then VolumeInfo.Healthy else VolumeInfo.Failed)
                          info).

Definition parseListVolume : string -> result DiskpartError (list VolumeInfo.t) :=
  parseTable "Volume ###" "Could not find volume list header in output" parseVolumeLine.

Definition parsePartitionLine (line : string) : option PartitionInfo.t :=
  if String.eqb line "" || negb (startsWith line "Partition ") then None
  else
    let parts := splitWs line in
    if Nat.ltb (List.length parts) 5 then None
    else
      let partNum := parseInt (str (nth_error parts 1)) in
      let type := str (nth_error parts 2) in
      let sizeStr := str (nth_error parts 3) ++ " " ++ str (nth_error parts 4) in
      let offsetStr := str (nth_error parts 5) ++ " " ++ str (nth_error parts 6) in
      Some (PartitionInfo.mk partNum
                             (normalizePartitionType type)
                             (parseSize sizeStr)
                             (parseSize offsetStr)
                             PartitionInfo.Healthy
                             None None None).

Definition parseListPartition : string -> result DiskpartError (list PartitionInfo.t) :=
  parseTable "Partition ###" "Could not find partition list header in output"
             parsePartitionLine.

(** The fields [parseDetailDisk] may set in its [Partial<DiskInfo>]. *)
Module Partial.
Record t : Type := mk {
  isBootDisk : option bool;
  isSystemDisk : option bool;
  diskType : option DiskInfo.DiskType
}.
Definition empty : t := mk None None None.
End Partial.

(** One turn of the line loop of [parseDetailDisk]. *)
Definition detailLine (details : Partial.t) (line : string) : Partial.t :=
  let details :=
    if includes line "Boot Disk" && includes line "Yes"
    then Partial.mk (Some true) (Partial.isSystemDisk details) (Partial.diskType details)
    else details in
  let details :=
    if includes line "Pagefile Disk" && includes line "Yes"
    then Partial.mk (Partial.isBootDisk details) (Some true) (Partial.diskType details)
    else details in
  if includes line "Type" && includes line "Dynamic"
  then Partial.mk (Partial.isBootDisk details) (Partial.isSystemDisk details)
                  (Some DiskInfo.Dynamic)
  else details.

Definition parseVolumesFromDetail (output : string)
  : result DiskpartError (list VolumeInfo.t) :=
  if negb (includes output "Volume ###") then Ok []
  else
    let volumeSection :=
      match indexOf output "Volume ###" with
      | Some i => substringFrom output i
      | None => output
      end in
    parseListVolume volumeSection.

Definition mentionsSystem (v : VolumeInfo.t) : bool :=
  includes (toLowerCase (VolumeInfo.info v)) "system"
  || includes (toLowerCase (VolumeInfo.info v)) "boot".

Definition parseDetailDisk (output : string) : result DiskpartError Partial.t :=
  let lines := map trim (split LF output) in
  let details := fold_left detailLine lines Partial.empty in
  match parseVolumesFromDetail output with
  | Throw e => Throw e
  | Ok volumes =>
      if Nat.ltb 0 (List.length volumes) then
        let hasSystemVolume := existsb mentionsSystem volumes in
        if hasSystemVolume
        then Ok (Partial.mk (Partial.isBootDisk details) (Some true)
                            (Partial.diskType details))
        else Ok details
      else Ok details
  end.

Definition isSuccessOutput (output : string) : bool :=
  let lowerOutput := toLowerCase output in
  if includes lowerOutput "diskpart successfully" then true
  else if includes lowerOutput "completed successfully" then true
  else if includes lowerOutput "error" then false
  else if includes lowerOutput "failed" then false
  else if includes lowerOutput "access is denied" then false
  else if includes lowerOutput "cannot" then false
  else Nat.ltb 0 (String.length (trim output)).

Definition extractErrorMessage (output : string) : option string :=
  let lines := map trim (split LF output) in
  find (fun line =>
          let lowerLine := toLowerCase line in
          includes lowerLine "error"
          || includes lowerLine "failed"
          || includes lowerLine "denied"
          || includes lowerLine "cannot") lines.

End Parser.

(** ** Command executor and elevation probe *)

Module Executor.
Import JS Errors.

(** The error object a failed [child_process.exec] rejects with. *)
Record ExecException : Type := mkExecException {
  killed : bool;
  signal : option string;
  execMessage : string
}.

(** What the executor's code can throw and catch. *)
Inductive exn : Type :=
| DiskpartExn (e : DiskpartError)
| ExecExn (e : ExecException).

Definition exnKilled (e : exn) : bool :=
  match e with
  | ExecExn x => killed x
  | DiskpartExn _ => false
  end.

Definition exnSignal (e : exn) : option string :=
  match e with
  | ExecExn x => signal x
  | DiskpartExn _ => None
  end.

Definition exnMessage (e : exn) : string :=
  match e with
  | ExecExn x => execMessage x
  | DiskpartExn d => message d
  end.

(** Calls that leave the process, in the order they are made. *)
Inductive event : Type :=
| Exec (command : string) (timeout : number)
| WriteFile (path data : string)
| ExistsSync (path : string)
| Unlink (path : string)
| Log (level message : string)
| ConsoleWarn (message : string)
| CallParser (output : string).

(** The outside world: what each such call answers. *)
Record World : Type := mkWorld {
  platform : string;
  execOutcome : string -> result ExecException (string * string);
  writeFileOutcome : string -> string -> result string unit;
  existsSyncOutcome : string -> bool;
  unlinkOutcome : string -> result string unit;
  tmpdir : string;
  pathJoin : string -> string -> string;
  dateNow : Z;
  randomSuffix : string
}.

(** The executor monad: read the world, append to the trace, maybe throw. *)
Definition M (A : Type) : Type :=
  World -> list event -> result exn A * list event.

Definition ret {A} (a : A) : M A := fun _ tr => (Ok a, tr).

Definition throw {A} (e : exn) : M A := fun _ tr => (Throw e, tr).

Definition bind {A B} (m : M A) (k : A -> M B) : M B :=
  fun w tr =>
    match m w tr with
    | (Ok a, tr') => k a w tr'
    | (Throw e, tr') => (Throw e, tr')
    end.

Definition tryCatch {A} (body : M A) (handler : exn -> M A) : M A :=
  fun w tr =>
    match body w tr with
    | (Ok a, tr') => (Ok a, tr')
    | (Throw e, tr') => handler e w tr'
    end.

Definition world : M World := fun w tr => (Ok w, tr).

Definition emit (e : event) : M unit := fun _ tr => (Ok tt, (tr ++ [e])%list).

Declare Scope exec_scope.
Delimit Scope exec_scope with exec.
Notation "x <- m ;; k" := (bind m (fun x => k))
  (at level 61, m at next level, right associativity) : exec_scope.
Notation "m ;;; k" := (bind m (fun _ => k))
  (at level 61, right associativity) : exec_scope.
Open Scope exec_scope.

(** The result envelope.  [data] is untyped in the source; these are the
    three shapes the executor stores in it. *)
Inductive Data (T : Type) : Type :=
| Streams (stdout stderr : string)
| Output (output stdout stderr : string)
| Parsed (value : T).
Arguments Streams {T} stdout stderr.
Arguments Output {T} output stdout stderr.
Arguments Parsed {T} value.

Record CommandResult (T : Type) : Type := mkResult {
  success : bool;
  resultMessage : string;
  errorCode : option string;
  resultDetails : option string;
  data : option (Data T)
}.
Arguments mkResult {T}.
Arguments success {T}.
Arguments resultMessage {T}.
Arguments errorCode {T}.
Arguments resultDetails {T}.
Arguments data {T}.

Definition DEFAULT_TIMEOUT : number := ofZ 30000.
Definition DESTRUCTIVE_TIMEOUT : number := ofZ 60000.

(** [a || b] on strings: the empty string is falsy. *)
Definition orStr (a b : string) : string :=
  match a with
  | EmptyString => b
  | _ => a
  end.

(** *** The logger: [writeLog] swallows its own failures. *)
Definition logError (message : string) : M unit := emit (Log "ERROR" message).

Definition logCommand (command : string) : M unit :=
  emit (Log "COMMAND" ("Executing: " ++ command)).

Definition logCommandResult (command : string) (ok : bool) : M unit :=
  emit (Log (if ok then "INFO" else "ERROR")
            ("Command " ++ (if ok then "succeeded" else "failed") ++ ": " ++ command)).

(** *** Node primitives *)
Definition execAsync (command : string) (timeout : number) : M (string * string) :=
  emit (Exec command timeout) ;;;
  w <- world ;;
  match execOutcome w command with
  | Ok out => ret out
  | Throw e => throw (ExecExn e)
  end.

Definition fsError (msg : string) : exn := ExecExn (mkExecException false None msg).

Definition writeFile (path data : string) : M unit :=
  emit (WriteFile path data) ;;;
  w <- world ;;
  match writeFileOutcome w path data with
  | Ok _ => ret tt
  | Throw msg => throw (fsError msg)
  end.

Definition existsSync (path : string) : M bool :=
  emit (ExistsSync path) ;;;
  w <- world ;;
  ret (existsSyncOutcome w path).

Definition unlink (path : string) : M unit :=
  emit (Unlink path) ;;;
  w <- world ;;
  match unlinkOutcome w path with
  | Ok _ => ret tt
  | Throw msg => throw (fsError msg)
  end.

(** *** The elevation probe *)
Definition isRunningAsAdmin : M bool :=
  w <- world ;;
  if negb (String.eqb (platform w) "win32") then ret true
  else tryCatch (execAsync "net session" (ofZ 5000) ;;; ret true)
                (fun _ => ret false).

Section WithFormat.
Context {fmt : NumberFormat}.

(** *** The executor *)
Definition createTempScript (command : string) : M string :=
  w <- world ;;
  let tempDir := tmpdir w in
  let scriptName :=
    "diskpart_" ++ showZ (dateNow w) ++ "_" ++ randomSuffix w ++ ".txt" in
  let scriptPath := pathJoin w tempDir scriptName in
  tryCatch (writeFile scriptPath command ;;; ret scriptPath)
           (fun error =>
              throw (DiskpartExn
                       (CommandExecutionError "Failed to create temporary script file"
                                              (Some (exnMessage error))))).

Definition deleteTempScript (scriptPath : string) : M unit :=
  tryCatch (present <- existsSync scriptPath ;;
            if present then unlink scriptPath else ret tt)
           (fun _ => emit (ConsoleWarn ("Failed to delete temp script: " ++ scriptPath))).

Definition isCommandSuccessful (output : string) : bool :=
  let lowerOutput := toLowerCase output in
  if includes lowerOutput "diskpart successfully" then true
  else if includes lowerOutput "completed successfully" then true
  else if includes lowerOutput "error" then false
  else if includes lowerOutput "failed" then false
  else if includes lowerOutput "access is denied" then false
  else if includes lowerOutput "cannot" then false
  else if includes lowerOutput "invalid" then false
  else if includes lowerOutput "not found" then false
  else if includes lowerOutput "disk ###"
          || includes lowerOutput "volume ###"
          || includes lowerOutput "partition ###" then true
  else Nat.ltb 0 (String.length (trim output)).

Definition extractErrorFromOutput (output : string) : option string :=
  let lines := map trim (split LF output) in
  find (fun line =>
          let lowerLine := toLowerCase line in
          includes lowerLine "error"
          || includes lowerLine "failed"
          || includes lowerLine "denied"
          || includes lowerLine "cannot"
          || includes lowerLine "invalid"
          || includes lowerLine "not found") lines.

Definition executeDiskpartCommand {T} (command : string) (timeout : option number)
  : M (CommandResult T) :=
  let timeout := match timeout with Some t => t | None => DEFAULT_TIMEOUT end in
  isAdmin <- isRunningAsAdmin ;;
  if negb isAdmin then
    let error :=
      PrivilegeError (Some "Administrator privileges required to execute Diskpart commands")
                     (Some "Please restart the application as administrator") in
    logError "Privilege check failed" ;;;
    ret (mkResult false (message error) (Some (code error)) (details error) None)
  else
    logCommand command ;;;
    tryCatch
      (scriptPath <- createTempScript command ;;
       tryCatch
         (out <- execAsync ("diskpart /s " ++ dquote ++ scriptPath ++ dquote) timeout ;;
          let stdout := fst out in
          let stderr := snd out in
          deleteTempScript scriptPath ;;;
          let output := orStr (orStr stdout stderr) "" in
          let ok := isCommandSuccessful output in
          logCommandResult command ok ;;;
          if negb ok then
            let errorMessage := extractErrorFromOutput output in
            ret (mkResult false (orElse errorMessage "Command failed")
                          (Some "COMMAND_FAILED") (Some output)
                          (Some (Streams stdout stderr)))
          else
            ret (mkResult true "Command executed successfully" None None
                          (Some (Output output stdout stderr))))
         (fun execError => deleteTempScript scriptPath ;;; throw execError))
      (fun error =>
         if exnKilled error
            || match exnSignal error with
               | Some sig => String.eqb sig "SIGTERM"
               | None => false
               end
         then
           let timeoutError := CommandTimeoutError timeout None in
           logError "Command timeout" ;;;
           ret (mkResult false (message timeoutError) (Some (code timeoutError))
                         (Some ("Command exceeded timeout of "
                                ++ numberToString timeout ++ "ms"))
                         None)
         else if includes (toLowerCase (exnMessage error)) "access is denied" then
           let accessError := AccessDeniedError None None in
           logError "Access denied" ;;;
           ret (mkResult false (message accessError) (Some (code accessError))
                         (Some (exnMessage error)) None)
         else
           let execError :=
             CommandExecutionError "Failed to execute Diskpart command"
                                   (Some (exnMessage error)) in
           logError "Command execution failed" ;;;
           ret (mkResult false (message execError) (Some (code execError))
                         (Some (exnMessage error)) None)).

Definition executeDestructiveCommand {T} (command : string) : M (CommandResult T) :=
  executeDiskpartCommand command (Some DESTRUCTIVE_TIMEOUT).

(** Calling the caller's parser is recorded in the trace. *)
Definition callParser {T} (parser : string -> result exn T) (output : string) : M T :=
  emit (CallParser output) ;;;
  match parser output with
  | Ok v => ret v
  | Throw e => throw e
  end.

(** [result.data?.output] and [result.data?.stdout] *)
Definition dataOutput {T} (d : option (Data T)) : option string :=
  match d with
  | Some (Output output _ _) => Some output
  | _ => None
  end.

Definition dataStdout {T} (d : option (Data T)) : option string :=
  match d with
  | Some (Output _ stdout _) | Some (Streams stdout _) => Some stdout
  | _ => None
  end.

Definition executeAndParse {T} (command : string) (parser : string -> result exn T)
    (timeout : option number) : M (CommandResult T) :=
  result <- executeDiskpartCommand command timeout ;;
  if negb (success result) then ret result
  else
    tryCatch
      (let output := orElse (dataOutput (data result))
                            (orElse (dataStdout (data result)) "") in
       parsedData <- callParser parser output ;;
       ret (mkResult true "Command executed and parsed successfully" None None
                     (Some (Parsed parsedData))))
      (fun error =>
         logError "Failed to parse command output" ;;;
         ret (mkResult false "Failed to parse command output" (Some "PARSE_ERROR")
                       (Some (exnMessage error)) (data result))).

End WithFormat.

(** A list parser as [executeAndParse] takes it. *)
Definition asParser {T} (p : string -> result DiskpartError T) (output : string)
  : result exn T :=
  match p output with
  | Ok v => Ok v
  | Throw e => Throw (DiskpartExn e)
  end.

(** Running a call against a world, from an empty trace. *)
Definition run {A} (m : M A) (w : World) : result exn A * list event := m w [].

(** The availability probe. *)
Definition validateDiskpartAvailable : M bool :=
  tryCatch (out <- execAsync "where diskpart" (ofZ 5000) ;;
            ret (Nat.ltb 0 (String.length (trim (fst out)))))
           (fun _ => ret false).

Definition getDiskpartVersion : M string :=
  tryCatch (available <- validateDiskpartAvailable ;;
            ret (if available then "Available" else "Not Found"))
           (fun _ => ret "Unknown").

(** The other entry points of the elevation probe. *)
Definition getPrivilegeStatus : M string :=
  isAdmin <- isRunningAsAdmin ;;
  ret (if isAdmin then "Running with administrator privileges"
       else "Not running with administrator privileges. Some operations may fail.").

Definition requireAdmin : M unit :=
  isAdmin <- isRunningAsAdmin ;;
  if negb isAdmin then
    throw (DiskpartExn
             (PrivilegeError
                (Some "Administrator privileges required")
                (Some "Please restart the application as administrator to perform this operation.")))
  else ret tt.

End Executor.

(** ** The request handlers of the main process *)

Module IPCError.
Record t : Type := mk {
  code : string;
  message : string;
  details : option string
}.
End IPCError.

Module IPCResponse.
(** [data] is untyped in the source: the handlers store the [data] of a
    [CommandResult] in it, or an object with a message. *)
Inductive Payload (T : Type) : Type :=
| FromResult (data : option (Executor.Data T))
| Message (message : string).
Arguments FromResult {T} data.
Arguments Message {T} message.

Record t (T : Type) : Type := mk {
  success : bool;
  data : option (Payload T);
  error : option IPCError.t
}.
Arguments mk {T}.
Arguments success {T}.
Arguments data {T}.
Arguments error {T}.
End IPCResponse.

Module Main.
Import JS Errors Commands Parser Executor.

(** [error.stack] belongs to the runtime. *)
Class StackTrace : Type := stackOf : exn -> option string.

Definition logInfo (message : string) : M unit := emit (Log "INFO" message).

(** A builder call inside a handler: what it throws is thrown on. *)
Definition build {A} (r : result DiskpartError A) : M A :=
  match r with
  | Ok a => ret a
  | Throw e => throw (DiskpartExn e)
  end.

Section Handlers.
Context {fmt : NumberFormat} {stack : StackTrace}.

(** The response for a failing [CommandResult]. *)
Definition failed {T U} (result : CommandResult T) : IPCResponse.t U :=
  IPCResponse.mk false None
    (Some (IPCError.mk (orElse (errorCode result) "UNKNOWN_ERROR")
                       (resultMessage result) (resultDetails result))).

(** The response of a [catch] block. *)
Definition caught {U} (error : exn) (fallback : string) : IPCResponse.t U :=
  IPCResponse.mk false None
    (Some (IPCError.mk "EXCEPTION" (orStr (exnMessage error) fallback) (stackOf error))).

Definition passData {T} (result : CommandResult T) : IPCResponse.t T :=
  if negb (success result) then failed result
  else IPCResponse.mk true (Some (IPCResponse.FromResult (data result))) None.

Definition passMessage {T U} (message : string) (result : CommandResult T)
  : IPCResponse.t U :=
  if negb (success result) then failed result
  else IPCResponse.mk true (Some (IPCResponse.Message message)) None.

(** diskpart:list-disks *)
Definition listDisks : M (IPCResponse.t (list DiskInfo)) :=
  tryCatch
    (logInfo "Listing disks" ;;;
     let command := buildListDisksCommand in
     result <- executeAndParse command (asParser parseListDisk) None ;;
     ret (passData result))
    (fun error =>
       logError "Failed to list disks" ;;;
       ret (caught error "Failed to list disks")).

(** diskpart:list-volumes *)
Definition listVolumes : M (IPCResponse.t (list VolumeInfo.t)) :=
  tryCatch
    (logInfo "Listing volumes" ;;;
     let command := buildListVolumesCommand in
     result <- executeAndParse command (asParser parseListVolume) None ;;
     ret (passData result))
    (fun error =>
       logError "Failed to list volumes" ;;;
       ret (caught error "Failed to list volumes")).

(** diskpart:list-partitions *)
Definition listPartitions (diskId : number) : M (IPCResponse.t (list PartitionInfo.t)) :=
  tryCatch
    (logInfo ("Listing partitions for disk " ++ numberToString diskId) ;;;
     script <- build (andThen (buildSelectDiskCommand diskId) (fun selectDisk =>
                      buildCommandScript [selectDisk; buildListPartitionsCommand])) ;;
     result <- executeAndParse script (asParser parseListPartition) None ;;
     ret (passData result))
    (fun error =>
       logError ("Failed to list partitions for disk " ++ numberToString diskId) ;;;
       ret (caught error "Failed to list partitions")).

(** diskpart:select-disk *)
Definition selectDisk {T U} (diskId : number) : M (IPCResponse.t U) :=
  tryCatch
    (logInfo ("Selecting disk " ++ numberToString diskId) ;;;
     command <- build (buildSelectDiskCommand diskId) ;;
     result <- executeDiskpartCommand (T := T) command None ;;
     ret (passMessage ("Disk " ++ numberToString diskId ++ " selected successfully")
                      result))
    (fun error =>
       logError ("Failed to select disk " ++ numberToString diskId) ;;;
       ret (caught error "Failed to select disk")).

(** diskpart:detail-disk *)
Definition detailDisk (diskId : number) : M (IPCResponse.t Partial.t) :=
  tryCatch
    (logInfo ("Getting details for disk " ++ numberToString diskId) ;;;
     script <- build (buildDetailDiskScript diskId) ;;
     result <- executeAndParse script (asParser parseDetailDisk) None ;;
     ret (passData result))
    (fun error =>
       logError ("Failed to get details for disk " ++ numberToString diskId) ;;;
       ret (caught error "Failed to get disk details")).

(** diskpart:clean-disk *)
Definition cleanDisk {T U} (diskId : number) : M (IPCResponse.t U) :=
  tryCatch
    (logInfo ("Cleaning disk " ++ numberToString diskId) ;;;
     script <- build (andThen (buildSelectDiskCommand diskId) (fun selectDisk =>
                      buildCommandScript [selectDisk; buildCleanDiskCommand])) ;;
     result <- executeDestructiveCommand (T := T) script ;;
     ret (passMessage ("Disk " ++ numberToString diskId ++ " cleaned successfully")
                      result))
    (fun error =>
       logError ("Failed to clean disk " ++ numberToString diskId) ;;;
       ret (caught error "Failed to clean disk")).

(** diskpart:clean-all *)
Definition cleanAll {T U} (diskId : number) : M (IPCResponse.t U) :=
  tryCatch
    (logInfo ("Cleaning all data from disk " ++ numberToString diskId) ;;;
     script <- build (andThen (buildSelectDiskCommand diskId) (fun selectDisk =>
                      buildCommandScript [selectDisk; buildCleanAllCommand])) ;;
     result <- executeDestructiveCommand (T := T) script ;;
     ret (passMessage ("Disk " ++ numberToString diskId ++ " cleaned (all) successfully")
                      result))
    (fun error =>
       logError ("Failed to clean all data from disk " ++ numberToString diskId) ;;;
       ret (caught error "Failed to clean disk")).

(** diskpart:create-partition *)
Definition createPartition {T U} (diskId : number) (size : option number)
  : M (IPCResponse.t U) :=
  tryCatch
    (logInfo ("Creating partition on disk " ++ numberToString diskId) ;;;
     script <- build (andThen (buildSelectDiskCommand diskId) (fun selectDisk =>
                      andThen (buildCreatePartitionCommand size) (fun create =>
                      buildCommandScript [selectDisk; create]))) ;;
     result <- executeDiskpartCommand (T := T) script None ;;
     ret (passMessage "Partition created successfully" result))
    (fun error =>
       logError ("Failed to create partition on disk " ++ numberToString diskId) ;;;
       ret (caught error "Failed to create partition")).

(** diskpart:delete-partition *)
Definition deletePartition {T U} (diskId partitionId : number) : M (IPCResponse.t U) :=
  tryCatch
    (logInfo ("Deleting partition " ++ numberToString partitionId ++ " on disk "
              ++ numberToString diskId) ;;;
     script <- build (andThen (buildSelectDiskCommand diskId) (fun selectDisk =>
                      andThen (buildSelectPartitionCommand partitionId)
                              (fun selectPartition =>
                      buildCommandScript [selectDisk; selectPartition;
                                          buildDeletePartitionCommand]))) ;;
     result <- executeDestructiveCommand (T := T) script ;;
     ret (passMessage "Partition deleted successfully" result))
    (fun error =>
       logError ("Failed to delete partition " ++ numberToString partitionId
                 ++ " on disk " ++ numberToString diskId) ;;;
       ret (caught error "Failed to delete partition")).

(** diskpart:format-volume *)
Definition formatVolume {T U} (diskId partitionId : number) (fileSystem : string)
    (label : option string) : M (IPCResponse.t U) :=
  tryCatch
    (logInfo ("Formatting partition " ++ numberToString partitionId ++ " on disk "
              ++ numberToString diskId) ;;;
     script <- build (buildFormatPartitionScript diskId partitionId fileSystem label) ;;
     result <- executeDestructiveCommand (T := T) script ;;
     ret (passMessage "Volume formatted successfully" result))
    (fun error =>
       logError ("Failed to format partition " ++ numberToString partitionId
                 ++ " on disk " ++ numberToString diskId) ;;;
       ret (caught error "Failed to format volume")).

(** diskpart:assign-letter *)
Definition assignLetter {T U} (diskId partitionId : number) (letter : string)
  : M (IPCResponse.t U) :=
  tryCatch
    (logInfo ("Assigning letter " ++ letter ++ " to partition "
              ++ numberToString partitionId ++ " on disk " ++ numberToString diskId) ;;;
     script <- build (andThen (buildSelectDiskCommand diskId) (fun selectDisk =>
                      andThen (buildSelectPartitionCommand partitionId)
                              (fun selectPartition =>
                      andThen (buildAssignLetterCommand letter) (fun assign =>
                      buildCommandScript [selectDisk; selectPartition; assign])))) ;;
     result <- executeDiskpartCommand (T := T) script None ;;
     ret (passMessage ("Drive letter " ++ letter ++ " assigned successfully") result))
    (fun error =>
       logError ("Failed to assign letter " ++ letter ++ " to partition "
                 ++ numberToString partitionId ++ " on disk " ++ numberToString diskId) ;;;
       ret (caught error "Failed to assign drive letter")).

(** diskpart:remove-letter *)
Definition removeLetter {T U} (diskId partitionId : number) (letter : string)
  : M (IPCResponse.t U) :=
  tryCatch
    (logInfo ("Removing letter " ++ letter ++ " from partition "
              ++ numberToString partitionId ++ " on disk " ++ numberToString diskId) ;;;
     script <- build (andThen (buildSelectDiskCommand diskId) (fun selectDisk =>
                      andThen (buildSelectPartitionCommand partitionId)
                              (fun selectPartition =>
                      andThen (buildRemoveLetterCommand letter) (fun remove =>
                      buildCommandScript [selectDisk; selectPartition; remove])))) ;;
     result <- executeDiskpartCommand (T := T) script None ;;
     ret (passMessage ("Drive letter " ++ letter ++ " removed successfully") result))
    (fun error =>
       logError ("Failed to remove letter " ++ letter ++ " from partition "
                 ++ numberToString partitionId ++ " on disk " ++ numberToString diskId) ;;;
       ret (caught error "Failed to remove drive letter")).

End Handlers.

(** system:check-admin *)
Definition checkAdmin : M bool :=
  tryCatch
    (isAdmin <- isRunningAsAdmin ;;
     logInfo ("Admin check: " ++ (if isAdmin then "true" else "false")) ;;;
     ret isAdmin)
    (fun _ =>
       logError "Failed to check admin privileges" ;;;
       ret false).

End Main.

(** ** Safety checks and input validation of the renderer *)

Module Safety.
Import JS Regex Commands Parser.

Record SafetyCheckResult : Type := mkCheck {
  safe : bool;
  warnings : list string;
  requiresTypeToConfirm : bool
}.

Definition isSystemDisk (disk : option DiskInfo) : bool :=
  match disk with
  | None => false
  | Some d => Parser.isSystemDisk d || Parser.isBootDisk d
  end.

Definition isOffline (s : DiskInfo.Status) : bool :=
  match s with
  | DiskInfo.Offline => true
  | _ => false
  end.

(** The two variables the checks update: the warnings pushed so far and
    the confirmation flag. *)
Definition push (ws : list string) (w : string) : list string := (ws ++ [w])%list.

Definition conclude (ws : list string) (confirm : bool) : SafetyCheckResult :=
  mkCheck (Nat.eqb (List.length ws) 0 || negb confirm) ws confirm.

Definition checkDiskOperationSafety (operation : string) (disk : option DiskInfo)
  : SafetyCheckResult :=
  match disk with
  | None => mkCheck false ["No disk selected"] false
  | Some d =>
      let ws : list string := [] in
      let confirm := false in
      let '(ws, confirm) :=
        if isSystemDisk disk
        then (push (push ws "⚠️ This is a SYSTEM or BOOT disk")
                   "Operating on this disk may make your system unbootable", true)
        else (ws, confirm) in
      let ws := if isOffline (status d) then push ws "Disk is currently offline" else ws in
      let '(ws, confirm) :=
        if String.eqb operation "clean" || String.eqb operation "clean_all" then
          (push (push ws "ALL DATA on this disk will be PERMANENTLY DELETED")
                "All partitions will be removed", true)
        else if String.eqb operation "delete_partition" then
          (push ws "The selected partition and ALL its data will be deleted", true)
        else if String.eqb operation "format" then
          (push ws "ALL DATA on the partition will be erased", true)
        else if String.eqb operation "offline" then
          if isSystemDisk disk
          then (push ws "Taking the system disk offline will crash your system", true)
          else (ws, confirm)
        else (ws, confirm) in
      conclude ws confirm
  end.

Definition statusName (s : PartitionInfo.Status) : string :=
  match s with
  | PartitionInfo.Healthy => "Healthy"
  | PartitionInfo.Active => "Active"
  | PartitionInfo.System => "System"
  | PartitionInfo.Boot => "Boot"
  end.

Definition isSystemOrBoot (s : PartitionInfo.Status) : bool :=
  match s with
  | PartitionInfo.System | PartitionInfo.Boot => true
  | _ => false
  end.

(** A drive letter that is set and not empty. *)
Definition letterOf (partition : PartitionInfo.t) : option string :=
  truthy (PartitionInfo.driveLetter partition).

Definition checkPartitionOperationSafety (operation : string) (disk : option DiskInfo)
    (partition : option PartitionInfo.t) : SafetyCheckResult :=
  match disk, partition with
  | None, _ => mkCheck false ["No disk selected"] false
  | Some _, None => mkCheck false ["No partition selected"] false
  | Some d, Some part =>
      let ws : list string := [] in
      let confirm := false in
      let ws := if isSystemDisk disk
                then push ws "⚠️ This partition is on a SYSTEM or BOOT disk" else ws in
      let '(ws, confirm) :=
        if isSystemOrBoot (PartitionInfo.status part)
        then (push (push ws ("⚠️ This is a " ++ statusName (PartitionInfo.status part)
                             ++ " partition"))
                   "Modifying this partition may make your system unbootable", true)
        else (ws, confirm) in
      if String.eqb operation "delete_partition" then
        let ws := push ws "The partition and ALL its data will be permanently deleted" in
        let ws := match letterOf part with
                  | Some l => push ws ("Drive " ++ l ++ ": will be removed")
                  | None => ws
                  end in
        conclude ws true
      else if String.eqb operation "format" then
        let ws := push ws "ALL DATA on this partition will be erased" in
        let ws := match letterOf part with
                  | Some l => push ws ("Drive " ++ l ++ ": will be formatted")
                  | None => ws
                  end in
        conclude ws true
      else if String.eqb operation "shrink" then
        conclude (push (push ws "Shrinking may fail if there are unmovable files")
                       "Backup important data before shrinking") confirm
      else if String.eqb operation "extend" then
        if num_eq (free d) (ofZ 0)
        then mkCheck false (push ws "No free space available on disk") false
        else conclude ws confirm
      else conclude ws confirm
  end.

Inductive ConfirmationType : Type := Simple | Detailed | TypeToConfirm.

Definition getConfirmationType (safetyCheck : SafetyCheckResult) : ConfirmationType :=
  if requiresTypeToConfirm safetyCheck then TypeToConfirm
  else if Nat.ltb 0 (List.length (warnings safetyCheck)) then Detailed
  else Simple.

Record Validation : Type := mkValidation {
  valid : bool;
  error : option string
}.

Definition validateDriveLetter (letter : string) : Validation :=
  if String.eqb letter "" then mkValidation false (Some "Drive letter is required")
  else
    let upperLetter := toUpperCase letter in
    if negb (Nat.eqb (String.length upperLetter) 1) then
      mkValidation false (Some "Drive letter must be a single character")
    else if negb (test false driveLetterRe upperLetter) then
      mkValidation false (Some "Drive letter must be A-Z")
    else
      let reserved := ["A"; "B"; "C"] in
      if arrayIncludes reserved upperLetter then
        mkValidation false
                     (Some ("Drive letter " ++ upperLetter ++ ": is typically reserved"))
      else mkValidation true None.

Definition validateFileSystem (fileSystem : string) : Validation :=
  let validFileSystems := ["NTFS"; "FAT32"; "exFAT"] in
  if String.eqb fileSystem "" then mkValidation false (Some "File system is required")
  else if negb (arrayIncludes validFileSystems (toUpperCase fileSystem)) then
    mkValidation false
                 (Some ("File system must be one of: " ++ join ", " validFileSystems))
  else mkValidation true None.

End Safety.

(** ** The specification's vocabulary *)

Module Spec.
Import JS Errors.

(** The classifier's markers, as the specification lists them. *)
Definition negativeMarkers : list string :=
  ["error"; "failed"; "access is denied"; "cannot"; "invalid"; "not found"].

Definition successPhrases : list string :=
  ["diskpart successfully"; "completed successfully"].

Definition listHeaders : list string := ["disk ###"; "volume ###"; "partition ###"].

(** A marker occurs case-insensitively in the text. *)
Definition occursIn (output marker : string) : bool :=
  includes (toLowerCase output) marker.

Definition hasNegativeMarker (output : string) : bool :=
  existsb (occursIn output) negativeMarkers.

Definition hasSuccessPhrase (output : string) : bool :=
  existsb (occursIn output) successPhrases.

Definition hasListHeader (output : string) : bool :=
  existsb (occursIn output) listHeaders.

Definition isBlank (output : string) : bool := String.eqb (trim output) "".

(** A token is one of the known file-system names, in any casing. *)
Definition isKnownFileSystem (token : string) : bool :=
  arrayIncludes ["NTFS"; "FAT32"; "FAT"; "EXFAT"; "RAW"] (toUpperCase token).

Definition isExfat (token : string) : bool := String.eqb (toUpperCase token) "EXFAT".

(** The label as the claim words it: the tokens between the first two and
    the anchor, joined by blanks. *)
Definition tokensAfterVolumeNumber (parts : list string) (anchor : nat) : string :=
  join " " (slice parts 2 anchor).

(** The label between the drive letter and the anchor. *)
Definition tokensAfterLetter (parts : list string) (anchor : nat) : string :=
  join " " (slice parts 3 anchor).

(** A header marker that survives trimming and line splitting: it starts
    and ends with a character that is not white space and spans no line
    break. *)
Definition isLF (c : ascii) : bool := Ascii.eqb c LF.

Definition startsClean (m : string) : bool :=
  match m with
  | String a _ => negb (isWhiteSpace a)
  | EmptyString => false
  end.

Fixpoint endsClean (m : string) : bool :=
  match m with
  | EmptyString => true
  | String a EmptyString => negb (isWhiteSpace a)
  | String _ m' => endsClean m'
  end.

(** The trimmed lines that follow the header line and the separator line
    under it. *)
Definition dataLines (marker output : string) : list string :=
  let lines := map trim (split LF output) in
  match findIndex (fun line => includes line marker) lines with
  | Some headerIndex => skipn (headerIndex + 2) lines
  | None => []
  end.

(** One record for every line of the expected shape, in order; the other
    lines contribute nothing. *)
Definition matchingRows {A} (row : string -> option A) (lines : list string) : list A :=
  flat_map (fun line => match row line with
                        | Some r => [r]
                        | None => []
                        end) lines.

(** A list parser throws [ParseError] exactly when the marker is absent
    from the text, and otherwise returns the matching rows. *)
Definition HeaderLaw {A} (parse : string -> result DiskpartError (list A))
    (marker : string) (row : string -> option A) : Prop :=
  forall output : string,
    (includes output marker = false /\
     exists msg, parse output = Throw (ParseError msg None)) \/
    (includes output marker = true /\
     parse output = Ok (matchingRows row (dataLines marker output))).

(** One well-formed row among garbage rows yields exactly one record. *)
Definition SkipsGarbage {A} (parse : string -> result DiskpartError (list A))
    (marker : string) (row : string -> option A) : Prop :=
  forall (output : string) (before after : list string) (good : string) (d : A),
    includes output marker = true ->
    dataLines marker output = (before ++ good :: after)%list ->
    row good = Some d ->
    Forall (fun line => row line = None) (before ++ after)%list ->
    parse output = Ok [d].

(** The codes a failing executor result can carry. *)
Definition executorCodes : list string :=
  [ "PRIVILEGE_ERROR"; "COMMAND_FAILED"; "COMMAND_TIMEOUT"; "ACCESS_DENIED";
    "COMMAND_EXECUTION_ERROR" ].

(** A number is the integer [z]. *)
Definition IsInt (x : number) (z : Z) : Prop :=
  match x with
  | Num q => (q == inject_Z z)%Q
  | _ => False
  end.



(** A builder call that throws [InvalidCommandError]. *)
Definition Rejected (r : result DiskpartError string) : Prop :=
  exists e, r = Throw e /\ name e = "InvalidCommandError" /\ code e = "INVALID_COMMAND".

(** The label cap: 32 characters for NTFS, 11 otherwise. *)
Definition labelCap (fileSystem : string) : nat :=
  if String.eqb (toUpperCase fileSystem) "NTFS" then 32 else 11.


(** Some character of the string satisfies [p]. *)
Fixpoint hasChar (p : ascii -> bool) (s : string) : bool :=
  match s with
  | EmptyString => false
  | String c s' => p c || hasChar p s'
  end.

Definition isLetterB (c : ascii) : bool := Ascii.eqb (upperChar c) "B".

(** A number format for the examples: decimal digits for the integers (as
    the runtime prints them below 10^21) and the names of the non-finite
    values; a fraction is shown as a quotient. *)
Definition exampleFormat : NumberFormat :=
  fun x =>
    match x with
    | NaN => "NaN"
    | Infinity => "Infinity"
    | NegInfinity => "-Infinity"
    | Num q =>
        let r := Qred q in
        if Pos.eqb (Qden r) 1 then showZ (Qnum r)
        else showZ (Qnum r) ++ "/" ++ showZ (Zpos (Qden r))
    end.

(** Every character of the string satisfies [p]. *)
Fixpoint allChars (p : ascii -> bool) (s : string) : bool :=
  match s with
  | EmptyString => true
  | String c s' => p c && allChars p s'
  end.

(** The multiplier of a unit, in any casing. *)
Definition unitMultiplier (unit : string) : option Z :=
  Parser.lookup (toUpperCase unit) Parser.multipliers.

(** The units [parseSize] knows, in every casing, with their multipliers. *)
Definition unitTable : list (string * Z) :=
  [ ("B", 1); ("b", 1);
    ("KB", 1024); ("Kb", 1024); ("kB", 1024); ("kb", 1024);
    ("MB", 1048576); ("Mb", 1048576); ("mB", 1048576); ("mb", 1048576);
    ("GB", 1073741824); ("Gb", 1073741824); ("gB", 1073741824); ("gb", 1073741824);
    ("TB", 1099511627776); ("Tb", 1099511627776); ("tB", 1099511627776);
    ("tb", 1099511627776) ]%Z.

(** The script file [createTempScript] writes, and the command line the
    executor starts the tool with. *)
Definition scriptPathOf (w : Executor.World) : string :=
  Executor.pathJoin w (Executor.tmpdir w)
    ("diskpart_" ++ showZ (Executor.dateNow w) ++ "_" ++ Executor.randomSuffix w ++ ".txt").

Definition toolCommand (scriptPath : string) : string :=
  "diskpart /s " ++ dquote ++ scriptPath ++ dquote.

(** The rejection of a subprocess that was killed or ended by SIGTERM. *)
Definition timedOut (e : Executor.ExecException) : bool :=
  Executor.killed e
  || match Executor.signal e with
     | Some sig => String.eqb sig "SIGTERM"
     | None => false
     end.

(** The timeout in force: the default when none is given. *)
Definition timeoutOf (timeout : option number) : number :=
  match timeout with
  | Some t => t
  | None => Executor.DEFAULT_TIMEOUT
  end.

(** The words [extractErrorFromOutput] looks for in a line. *)
Definition errorWords : list string :=
  ["error"; "failed"; "denied"; "cannot"; "invalid"; "not found"].

(** What the executor may do in a run on [command]: start the elevation
    query and the tool, write, probe and delete its own script file, log
    and warn.  It calls no parser. *)
Definition executorEvent (w : Executor.World) (command : string) (timeout : number)
    (e : Executor.event) : Prop :=
  match e with
  | Executor.Exec c t =>
      (c = "net session" /\ t = ofZ 5000) \/
      (c = toolCommand (scriptPathOf w) /\ t = timeout)
  | Executor.WriteFile p d => p = scriptPathOf w /\ d = command
  | Executor.ExistsSync p | Executor.Unlink p => p = scriptPathOf w
  | Executor.Log _ _ | Executor.ConsoleWarn _ => True
  | Executor.CallParser _ => False
  end.

(** What a handler may do beyond the executor's events: call the parser. *)
Definition handlerEvent (w : Executor.World) (command : string) (timeout : number)
    (e : Executor.event) : Prop :=
  match e with
  | Executor.CallParser _ => True
  | _ => executorEvent w command timeout e
  end.

(** The codes a failing response of a handler can carry. *)
Definition responseCodes : list string :=
  (executorCodes ++ ["PARSE_ERROR"; "EXCEPTION"])%list.

(** A response is a success with data and no error, or a failure with no
    data and an error under one of the response codes. *)
Definition WellFormed {T} (resp : IPCResponse.t T) : Prop :=
  match IPCResponse.success resp, IPCResponse.data resp, IPCResponse.error resp with
  | true, Some _, None => True
  | false, None, Some e => In (IPCError.code e) responseCodes
  | _, _, _ => False
  end.

(** The response of a handler whose [try] block threw an error with this
    message. *)
Definition rejection {stack : Main.StackTrace} {U} (message : string) (e : Executor.exn)
  : IPCResponse.t U :=
  IPCResponse.mk false None (Some (IPCError.mk "EXCEPTION" message (Main.stackOf e))).

(** The scripts of the handlers. *)
Definition diskScript {fmt : NumberFormat} (diskId : number) (instruction : string)
  : string :=
  "select disk " ++ numberToString diskId ++ nl ++ instruction.

Definition partitionScript {fmt : NumberFormat} (diskId partitionId : number)
    (instruction : string) : string :=
  "select disk " ++ numberToString diskId ++ nl
  ++ "select partition " ++ numberToString partitionId ++ nl ++ instruction.

(** The instruction of a builder call that returned. *)
Definition built (r : result DiskpartError string) : string :=
  match r with
  | Ok instruction => instruction
  | Throw _ => ""
  end.

(** The operations that erase data. *)
Definition isDestructive (operation : string) : bool :=
  arrayIncludes ["clean"; "clean_all"; "delete_partition"; "format"] operation.

(** A list of warnings is empty. *)
Definition noWarnings (r : Safety.SafetyCheckResult) : bool :=
  Nat.eqb (List.length (Safety.warnings r)) 0.

(** A line holds both texts. *)
Definition lineSays (key value line : string) : bool :=
  includes line key && includes line value.

(** Text within ASCII: every character is below 128.  On such text the
    model's case mappings, its white space and its string length are the
    runtime's. *)
Definition isAsciiChar (c : ascii) : bool := Nat.ltb (JS.code c) 128.

Definition isAsciiText (s : string) : bool := allChars isAsciiChar s.

(** The row test of each list parser: the row keyword and, for disks,
    the row pattern, for volumes, seven tokens, for partitions, five. *)
Definition diskRowTest (line : string) : bool :=
  startsWith line "Disk " && Regex.test false Parser.diskLineRe line.

Definition volumeRowTest (line : string) : bool :=
  startsWith line "Volume " && Nat.leb 7 (List.length (splitWs line)).

Definition partitionRowTest (line : string) : bool :=
  startsWith line "Partition " && Nat.leb 5 (List.length (splitWs line)).

(** A row yields a record exactly when it passes the test. *)
Definition RowLaw {A} (row : string -> option A) (rowTest : string -> bool) : Prop :=
  forall line : string,
    (rowTest line = true /\ exists r, row line = Some r) \/
    (rowTest line = false /\ row line = None).

(** One row that passes the test among rows that fail it yields exactly
    one record, the record of that row. *)
Definition SkipsFailing {A} (parse : string -> result DiskpartError (list A))
    (marker : string) (row : string -> option A) (rowTest : string -> bool) : Prop :=
  forall (output : string) (before after : list string) (good : string),
    includes output marker = true ->
    dataLines marker output = (before ++ good :: after)%list ->
    rowTest good = true ->
    Forall (fun line => rowTest line = false) (before ++ after)%list ->
    exists d, row good = Some d /\ parse output = Ok [d].

End Spec.

(** ** Example inputs *)

Module Examples.
Import JS Errors Executor.

Definition diskHeader : string :=
  "  Disk ###  Status         Size     Free     Dyn  Gpt".
Definition diskSeparator : string :=
  "  --------  -------------  -------  -------  ---  ---".
Definition diskRow0 : string :=
  "  Disk 0    Online          238 GB      0 B        *".

(** The disk table of the end-to-end scenario. *)
Definition diskTable : string := join nl [diskHeader; diskSeparator; diskRow0].

(** A disk row with a star in both marker columns. *)
Definition diskRowTwoStars : string :=
  "Disk 1    Online          931 GB   931 GB   *    *".

(** The same table with a garbage row in front of the data row. *)
Definition diskTableWithGarbage : string :=
  join nl [diskHeader; diskSeparator; "  Disk ?    ###"; diskRow0].

Definition volumeHeader : string :=
  "  Volume ###  Ltr  Label        Fs     Type        Size     Status     Info".
Definition volumeSeparator : string :=
  "  ----------  ---  -----------  -----  ----------  -------  ---------  --------".
Definition volumeRowRecovery : string :=
  "  Volume 2         Recovery     NTFS   Partition    499 MB  Healthy    Hidden".
Definition volumeRowData : string :=
  "  Volume 0     D   Data         NTFS   Partition    100 GB  Healthy".

(** A volume table whose only row has no drive letter. *)
Definition volumeTable : string :=
  join nl [volumeHeader; volumeSeparator; volumeRowRecovery].

(** An exFAT volume with a drive letter and a label of two words. *)
Definition volumeRowExfat : string :=
  "Volume 4     F   My Data      exFAT  Partition    100 GB  Healthy".

Definition volumeTableWithGarbage : string :=
  join nl [volumeHeader; volumeSeparator; volumeRowData; "  Volume 9   ???"].

Definition partitionHeader : string :=
  "  Partition ###  Type              Size     Offset".
Definition partitionSeparator : string :=
  "  -------------  ----------------  -------  -------".
Definition partitionRow1 : string :=
  "  Partition 1    Primary            100 MB  1024 KB".

Definition partitionTableWithGarbage : string :=
  join nl [partitionHeader; partitionSeparator; "  Partition one"; partitionRow1].

(** A partition row of six tokens: the offset is written without a blank. *)
Definition partitionRowGlued : string :=
  "Partition 1    Primary            100 MB  1024KB".

(** Partition rows of five and of six tokens: the offset is missing, or
    its unit is. *)
Definition partitionRowNoOffset : string :=
  "Partition 2    Primary            137 GB".
Definition partitionRowNoUnit : string :=
  "Partition 3    Recovery           499 MB   137".

(** An output with a success phrase and a negative marker. *)
Definition mixedOutput : string :=
  join nl [ "DiskPart has encountered an error: The parameter is incorrect.";
            "The operation completed successfully." ].

(** A world: an elevated Windows process in which the tool prints [stdout]. *)
Definition toolPrints (stdout : string) : World :=
  mkWorld "win32"
          (fun command =>
             if String.eqb command "net session" then Ok ("", "")
             else Ok (stdout, ""))
          (fun _ _ => Ok tt)
          (fun _ => true)
          (fun _ => Ok tt)
          "C:\Temp"
          (fun dir file => dir ++ "\" ++ file)
          1700000000000%Z
          "k3x9q".

(** A world: a Windows process without elevation ([net session] fails). *)
Definition notElevated : World :=
  mkWorld "win32"
          (fun command =>
             Throw (mkExecException false None ("Command failed: " ++ command)))
          (fun _ _ => Ok tt)
          (fun _ => true)
          (fun _ => Ok tt)
          "C:\Temp"
          (fun dir file => dir ++ "\" ++ file)
          1700000000000%Z
          "k3x9q".

(** A world: an elevated process whose temporary directory refuses writes. *)
Definition readOnlyTemp : World :=
  mkWorld "win32"
          (fun command => Ok ("", ""))
          (fun _ _ => Throw "EPERM: access is denied")
          (fun _ => true)
          (fun _ => Ok tt)
          "C:\Temp"
          (fun dir file => dir ++ "\" ++ file)
          1700000000000%Z
          "k3x9q".

(** A world: an elevated process in which the tool is killed at its
    timeout, after printing a denial. *)
Definition toolKilled : World :=
  mkWorld "win32"
          (fun command =>
             if String.eqb command "net session" then Ok ("", "")
             else Throw (mkExecException true (Some "SIGTERM") "Access is denied."))
          (fun _ _ => Ok tt)
          (fun _ => true)
          (fun _ => Ok tt)
          "C:\Temp"
          (fun dir file => dir ++ "\" ++ file)
          1700000000000%Z
          "k3x9q".

(** A world: an elevated process in which the tool exits normally after
    printing a refusal. *)
Definition toolRefuses : World :=
  toolPrints ("Microsoft DiskPart version 10.0" ++ nl ++ nl
              ++ "  Virtual Disk Service error:" ++ nl
              ++ "  The media is write protected.").

(** A runtime whose errors carry no stack text. *)
Definition noStack : Main.StackTrace := fun _ => None.

(** A disk without free space and a boot partition with a drive letter. *)
Definition fullDisk : Parser.DiskInfo :=
  Parser.mkDisk (ofZ 0) DiskInfo.Online (ofZ 255550554112) (ofZ 0) false false
                DiskInfo.Basic DiskInfo.MBR [].

Definition bootPartition : PartitionInfo.t :=
  PartitionInfo.mk (ofZ 1) PartitionInfo.Primary (ofZ 104857600) (ofZ 1048576)
                   PartitionInfo.Boot (Some "NTFS") None (Some "C").

(** A partition table with a well-formed row and a row of prose that
    starts with the row keyword. *)
Definition partitionTableWithProse : string :=
  join nl [partitionHeader; partitionSeparator; partitionRow1;
           "  Partition is not a valid row"].

(** A label that holds two line breaks. *)
Definition labelWithLines : string := "x" ++ nl ++ "clean all" ++ nl.

End Examples.

(** * Properties *)

Import JS Regex Errors Commands Parser Executor Spec Examples.


(** ** Basic facts *)

Lemma startsWith_nonempty (line prefix : string) :
  prefix <> "" -> startsWith line prefix = true -> String.eqb line "" = false.
Proof.
  intros Hp H. destruct line; [| reflexivity].
  destruct prefix; [destruct Hp; reflexivity | discriminate].
Qed.

(** The 256 characters, one goal each. *)
Ltac split_ascii x :=
  let b0 := fresh "b" in let b1 := fresh "b" in let b2 := fresh "b" in
  let b3 := fresh "b" in let b4 := fresh "b" in let b5 := fresh "b" in
  let b6 := fresh "b" in let b7 := fresh "b" in
  destruct x as [b0 b1 b2 b3 b4 b5 b6 b7];
  destruct b0, b1, b2, b3, b4, b5, b6, b7.

(** ** The classifier *)

Ltac case_marker output m :=
  destruct (includes (toLowerCase output) m); simpl; try reflexivity.

(** C1 (counterexample): an output that holds a negative marker and is
    nevertheless classified as success, because it also holds a success
    phrase. *)
Lemma isCommandSuccessful_success_phrase_wins :
  hasNegativeMarker mixedOutput = true /\
  hasSuccessPhrase mixedOutput = true /\
  isCommandSuccessful mixedOutput <> false.
Proof.
  repeat split; try (vm_compute; reflexivity).
  vm_compute. discriminate.
Qed.

(** C1 (amended): the classifier returns success exactly when a success
    phrase occurs, or when no negative marker occurs and the output holds a
    list header or is not blank.  The success phrases are looked for first,
    so a negative marker decides only in their absence. *)
Theorem isCommandSuccessful_classification :
  forall output : string,
    isCommandSuccessful output =
    hasSuccessPhrase output
    || (negb (hasNegativeMarker output)
        && (hasListHeader output || negb (isBlank output))).
Proof.
  intro output.
  unfold isCommandSuccessful, hasSuccessPhrase, hasNegativeMarker, hasListHeader,
    isBlank, occursIn, successPhrases, negativeMarkers, listHeaders.
  simpl existsb.
  case_marker output "diskpart successfully".
  case_marker output "completed successfully".
  case_marker output "error".
  case_marker output "failed".
  case_marker output "access is denied".
  case_marker output "cannot".
  case_marker output "invalid".
  case_marker output "not found".
  case_marker output "disk ###".
  case_marker output "volume ###".
  case_marker output "partition ###".
  destruct (trim output); reflexivity.
Qed.

(** ** The disk list parser at the end-to-end scenario *)

(** C2: on the scenario's table, whose only row carries one star under the
    Gpt column, [parseListDisk] returns one record with the stated id,
    status and sizes, but reports the disk as Dynamic and MBR: the row
    pattern gives the first star it meets to the Dyn group, wherever the
    star stands.  A row with a star in both columns is reported as MBR as
    well. *)
Theorem parseListDisk_scenario :
  parseListDisk diskTable =
  Ok [ mkDisk (ofZ 0) DiskInfo.Online (ofZ (238 * 1024 ^ 3)) (ofZ 0)
              false false DiskInfo.Dynamic DiskInfo.MBR [] ] /\
  parseDiskLine diskRowTwoStars =
  Some (mkDisk (ofZ 1) DiskInfo.Online (ofZ (931 * 1024 ^ 3)) (ofZ (931 * 1024 ^ 3))
               false false DiskInfo.Dynamic DiskInfo.MBR []).
Proof. split; vm_compute; reflexivity. Qed.

(** ** The format command and exFAT *)

Lemma Rejected_throw (msg : string) :
  Rejected (Throw (InvalidCommandError msg None)).
Proof. eexists. split; [reflexivity | split; reflexivity]. Qed.

Lemma upperChar_not_e (c : ascii) : upperChar c <> "e"%char.
Proof.
  destruct c as [b0 b1 b2 b3 b4 b5 b6 b7].
  destruct b0, b1, b2, b3, b4, b5, b6, b7; vm_compute; discriminate.
Qed.

Lemma toUpperCase_not_exFAT (s : string) : String.eqb (toUpperCase s) "exFAT" = false.
Proof.
  apply String.eqb_neq. destruct s as [|c s]; simpl; [discriminate |].
  intro H. inversion H as [[Hc Hs]]. exact (upperChar_not_e c Hc).
Qed.

(** C4: [buildFormatVolumeCommand] accepts NTFS, FAT32 and FAT in every
    casing and renders the name in upper case, and rejects every other
    name; exFAT is among the rejected ones, in every casing: the input is
    upper-cased before it is looked up in a list that spells the name
    "exFAT". *)
Theorem buildFormatVolumeCommand_file_systems :
  forall fileSystem : string,
    (In (toUpperCase fileSystem) ["NTFS"; "FAT32"; "FAT"] ->
     buildFormatVolumeCommand fileSystem None None
     = Ok ("format fs=" ++ toUpperCase fileSystem ++ " quick")) /\
    (~ In (toUpperCase fileSystem) ["NTFS"; "FAT32"; "FAT"] ->
     forall label quick, Rejected (buildFormatVolumeCommand fileSystem label quick)) /\
    (toUpperCase fileSystem = "EXFAT" ->
     forall label quick, Rejected (buildFormatVolumeCommand fileSystem label quick)).
Proof.
  intro fileSystem.
  assert (Hout : ~ In (toUpperCase fileSystem) ["NTFS"; "FAT32"; "FAT"] ->
                 forall label quick,
                   Rejected (buildFormatVolumeCommand fileSystem label quick)).
  { intros Hnot label quick. unfold buildFormatVolumeCommand, arrayIncludes.
    cbn [validFileSystems existsb]. rewrite toUpperCase_not_exFAT.
    destruct (String.eqb_spec (toUpperCase fileSystem) "NTFS") as [E | _];
      [destruct Hnot; rewrite E; cbn; tauto |].
    destruct (String.eqb_spec (toUpperCase fileSystem) "FAT32") as [E | _];
      [destruct Hnot; rewrite E; cbn; tauto |].
    destruct (String.eqb_spec (toUpperCase fileSystem) "FAT") as [E | _];
      [destruct Hnot; rewrite E; cbn; tauto |].
    apply Rejected_throw. }
  split; [| split; [exact Hout |]].
  - intros [E | [E | [E | []]]]; unfold buildFormatVolumeCommand;
      rewrite <- E; reflexivity.
  - intros E. apply Hout. rewrite E. cbn. intuition discriminate.
Qed.

(** The theorem at "ntfs", "exFAT" and "ext4". *)
Lemma buildFormatVolumeCommand_file_systems_witness :
  buildFormatVolumeCommand "ntfs" None None = Ok "format fs=NTFS quick" /\
  Rejected (buildFormatVolumeCommand "exFAT" None None) /\
  Rejected (buildFormatVolumeCommand "ext4" None None).
Proof.
  split; [| split].
  - destruct (buildFormatVolumeCommand_file_systems "ntfs") as (H & _ & _).
    apply H. cbn. tauto.
  - destruct (buildFormatVolumeCommand_file_systems "exFAT") as (_ & _ & H).
    apply H. reflexivity.
  - destruct (buildFormatVolumeCommand_file_systems "ext4") as (_ & H & _).
    apply H. cbn. intuition discriminate.
Defined.

(** ** The volume list parser on a row without a drive letter *)

(** On a row without a drive letter the label is lost: the token in the
    third position is taken for the letter column, found too long to be a
    letter, and never joins the label, which starts at the fourth token.
    An exFAT token is no anchor: the tokens are upper-cased before they are
    looked up in a list that spells the name "exFAT", so the columns of an
    exFAT row are cut at the default position. *)
Example parseListVolume_row_without_letter :
  parseListVolume volumeTable =
  Ok [ VolumeInfo.mk None None "NTFS" VolumeInfo.Partition
                     (ofZ (499 * 1024 ^ 2)) VolumeInfo.Healthy "Hidden" ] /\
  parseVolumeLine volumeRowExfat =
  Some (VolumeInfo.mk (Some "F") (Some "My") "Data" VolumeInfo.Partition
                      (ofZ 0) VolumeInfo.Failed "Healthy").
Proof. split; vm_compute; reflexivity. Qed.

(** C6 (counterexample): on a row with a drive letter the anchor is the
    fifth token and the tokens between the volume number and the anchor are
    the letter and the label word, but the label of the record is the label
    word alone. *)
Lemma parseVolumeLine_label_excludes_letter :
  let parts := splitWs (trim volumeRowData) in
  findIndex isKnownFileSystem parts = Some 4 /\
  tokensAfterVolumeNumber parts 4 = "D Data" /\
  option_map VolumeInfo.label (parseVolumeLine (trim volumeRowData))
  = Some (Some "Data") /\
  option_map VolumeInfo.letter (parseVolumeLine (trim volumeRowData))
  = Some (Some "D").
Proof. repeat split; vm_compute; reflexivity. Qed.

Lemma findIndex_ext {A} (f g : A -> bool) (xs : list A) :
  (forall x, In x xs -> f x = g x) -> findIndex f xs = findIndex g xs.
Proof.
  induction xs as [|x xs IH]; intro H; simpl; [reflexivity |].
  rewrite (H x (or_introl eq_refl)), IH; [reflexivity |].
  intros y Hy. apply H. right. exact Hy.
Qed.

Lemma findIndex_nth {A} (f : A -> bool) (xs : list A) :
  forall i, findIndex f xs = Some i ->
            exists x, nth_error xs i = Some x /\ f x = true.
Proof.
  induction xs as [|x xs IH]; intros i H; simpl in H; [discriminate |].
  destruct (f x) eqn:E.
  - inversion H; subst. exists x. split; [reflexivity | exact E].
  - destruct (findIndex f xs) as [j|]; [| discriminate].
    inversion H; subst. destruct (IH j eq_refl) as (y & Hy & Hf).
    exists y. split; [exact Hy | exact Hf].
Qed.

(** The anchor search of the code agrees with the claim's on every token
    that is not exFAT. *)
Lemma code_anchor_test (token : string) :
  isExfat token = false ->
  arrayIncludes knownFileSystems (toUpperCase token) = isKnownFileSystem token.
Proof.
  unfold isExfat, isKnownFileSystem, arrayIncludes, knownFileSystems. intro H.
  cbn [existsb]. rewrite H, toUpperCase_not_exFAT. reflexivity.
Qed.

(** C6 (amended): on every volume row whose third token is a drive letter
    of one character, that has no exFAT token and has some token that is a
    known file-system name in any casing, [parseListVolume] anchors the
    columns at the first such token: the tokens between the drive letter
    and the anchor, joined by blanks, are the label (no label when there is
    none), the anchor is the file system, and the type, size, status and
    info columns are read from the tokens after it. *)
Theorem parseVolumeLine_label_after_letter :
  forall (line letter : string) (anchor : nat),
    startsWith line "Volume " = true ->
    7 <= List.length (splitWs line) ->
    nth_error (splitWs line) 2 = Some letter ->
    String.length letter = 1 ->
    existsb isExfat (splitWs line) = false ->
    findIndex isKnownFileSystem (splitWs line) = Some anchor ->
    exists fs,
      nth_error (splitWs line) anchor = Some fs /\
      parseVolumeLine line =
      Some (VolumeInfo.mk
              (Some letter)
              (truthy (Some (tokensAfterLetter (splitWs line) anchor)))
              fs
              (normalizeVolumeType (orElse (nth_error (splitWs line) (anchor + 1))
                                           "Partition"))
              (parseSize (str (nth_error (splitWs line) (anchor + 2)) ++ " "
                          ++ str (nth_error (splitWs line) (anchor + 3))))
              (if String.eqb (orElse (nth_error (splitWs line) (anchor + 4)) "Unknown")
                             "Healthy"
               then VolumeInfo.Healthy else VolumeInfo.Failed)
              (join " " (sliceFrom (splitWs line) (anchor + 5)))).
Proof.
  intros line letter anchor Hstart Hlen Hletter Hone Hexfat Hanchor.
  assert (Hne : String.eqb line "" = false)
    by (eapply startsWith_nonempty; [| exact Hstart]; discriminate).
  assert (Hcode : findIndex (fun p => arrayIncludes knownFileSystems (toUpperCase p))
                            (splitWs line) = Some anchor).
  { rewrite <- Hanchor. apply findIndex_ext. intros p Hp.
    apply code_anchor_test.
    destruct (isExfat p) eqn:E; [| reflexivity].
    rewrite <- Hexfat. symmetry. apply existsb_exists. exists p. auto. }
  destruct (findIndex_nth _ _ _ Hanchor) as (fs & Hfs & Hknown).
  exists fs. split; [exact Hfs |].
  unfold parseVolumeLine. rewrite Hne, Hstart, Hcode, Hletter, Hfs.
  apply Nat.ltb_ge in Hlen. rewrite Hlen. cbn [negb orb].
  assert (Hl : negb (String.eqb letter "") && Nat.eqb (String.length letter) 1 = true).
  { rewrite Hone. destruct letter; [discriminate | reflexivity]. }
  rewrite Hl.
  assert (Hfsne : orElse (Some fs) "Unknown" = fs).
  { destruct fs; [discriminate Hknown | reflexivity]. }
  rewrite Hfsne.
  assert (Hlabel : truthy (if Nat.ltb 3 anchor
                           then Some (join " " (slice (splitWs line) 3 anchor))
                           else None)
                   = truthy (Some (tokensAfterLetter (splitWs line) anchor))).
  { unfold tokensAfterLetter, slice. destruct (Nat.ltb 3 anchor) eqn:E; [reflexivity |].
    apply Nat.ltb_ge in E. replace (anchor - 3) with 0 by lia. reflexivity. }
  rewrite Hlabel. reflexivity.
Qed.

(** The theorem at the row "Volume 0  D  Data  NTFS ...". *)
Lemma parseVolumeLine_label_after_letter_witness :
  exists fs,
    nth_error (splitWs (trim volumeRowData)) 4 = Some fs /\
    option_map VolumeInfo.label (parseVolumeLine (trim volumeRowData))
    = Some (Some "Data").
Proof.
  destruct (parseVolumeLine_label_after_letter (trim volumeRowData) "D" 4)
    as (fs & Hfs & Hrow); try reflexivity.
  - vm_compute. lia.
  - exists fs. split; [exact Hfs |]. rewrite Hrow. reflexivity.
Defined.

(** ** What a regular expression can match *)

(** One more iteration of a quantifier, in the proofs about
    [repeatMatcher]. *)
Ltac iterate H :=
  match goal with
  | Hiter : forall d : cont, _, Hd : forall y : state, _ |- _ =>
      eapply Hiter; [| exact H]; exact Hd
  end.

Section MatcherSound.
Variable icase : bool.

Lemma repeatMatcher_sound (m : state -> cont -> option state) (r : regex)
    (min0 : nat) (max0 : option nat) (greedy0 : bool) :
  (forall x c z, m x c = Some z ->
     exists y, reaches icase r (place x) (place y) /\ c y = Some z) ->
  forall fuel inner min max greedy x c z,
    repeatMatcher m inner fuel min max greedy x c = Some z ->
    exists y, reaches icase (Quant min0 max0 greedy0 r) (place x) (place y)
              /\ c y = Some z.
Proof.
  intros Hm. induction fuel as [|fuel IH]; intros inner min max greedy x c z H.
  - discriminate.
  - simpl in H.
    assert (Hstop : c x = Some z ->
            exists y, reaches icase (Quant min0 max0 greedy0 r) (place x) (place y)
                      /\ c y = Some z).
    { intro Hc. exists x. split; [apply R_stop | exact Hc]. }
    assert (Hiter : forall d : cont,
              (forall y, d y = Some z ->
                 repeatMatcher m inner fuel (Nat.pred min) (option_map Nat.pred max)
                               greedy y c = Some z) ->
              m (clearCaptures inner x) d = Some z ->
              exists y, reaches icase (Quant min0 max0 greedy0 r) (place x) (place y)
                        /\ c y = Some z).
    { intros d Hd Hmd. destruct (Hm _ _ _ Hmd) as (y1 & Hr1 & Hd1).
      destruct (IH _ _ _ _ _ _ _ (Hd _ Hd1)) as (y & Hr & Hc).
      exists y. split; [| exact Hc].
      eapply R_iter; [exact Hr1 | exact Hr]. }
    assert (Hd : forall y,
              (if Nat.eqb min 0 && Nat.eqb (pos y) (pos x) then None
               else repeatMatcher m inner fuel (Nat.pred min)
                                  (option_map Nat.pred max) greedy y c) = Some z ->
              repeatMatcher m inner fuel (Nat.pred min) (option_map Nat.pred max)
                            greedy y c = Some z).
    { intros y. destruct (Nat.eqb min 0 && Nat.eqb (pos y) (pos x)); [discriminate | auto]. }
    destruct max as [[|k]|].
    + auto.
    + destruct (negb (Nat.eqb min 0)); [iterate H |].
      destruct greedy.
      * match type of H with
        | match ?t with _ => _ end = _ => destruct t eqn:E
        end; [inversion H; subst; iterate E | auto].
      * destruct (c x) eqn:E; [inversion H; subst; auto | iterate H].
    + destruct (negb (Nat.eqb min 0)); [iterate H |].
      destruct greedy.
      * match type of H with
        | match ?t with _ => _ end = _ => destruct t eqn:E
        end; [inversion H; subst; iterate E | auto].
      * destruct (c x) eqn:E; [inversion H; subst; auto | iterate H].
Qed.

Lemma matcher_sound (r : regex) :
  forall x c z, matcher icase r x c = Some z ->
    exists y, reaches icase r (place x) (place y) /\ c y = Some z.
Proof.
  induction r as [invert p | | r1 IH1 r2 IH2 | min max greedy r IH | i r IH | |];
    intros x c z H; simpl in H.
  - destruct x as [n s cs]. simpl in H. destruct s as [|ch s']; [discriminate |].
    destruct (charMatches icase invert p ch) eqn:E; [| discriminate].
    eexists. split; [| exact H]. apply R_chr. exact E.
  - exists x. split; [apply R_eps | exact H].
  - destruct (IH1 _ _ _ H) as (y1 & Hr1 & H1).
    destruct (IH2 _ _ _ H1) as (y2 & Hr2 & H2).
    exists y2. split; [eapply R_seq; eauto | exact H2].
  - eapply repeatMatcher_sound; [exact IH | exact H].
  - destruct (IH _ _ _ H) as (y & Hr & Hc).
    eexists. split; [| exact Hc]. apply R_group. exact Hr.
  - destruct x as [n s cs]. simpl in H. destruct n; [| discriminate].
    eexists. split; [| exact H]. apply R_bol.
  - destruct x as [n s cs]. simpl in H. destruct s; [| discriminate].
    eexists. split; [| exact H]. apply R_eol.
Qed.

Lemma searchFrom_sound (r : regex) :
  forall s p m, searchFrom icase r p s = Some m ->
    exists pre suf b,
      s = pre ++ suf /\ reaches icase r (p + String.length pre, suf) b.
Proof.
  induction s as [|ch s IH]; intros p m H; simpl in H.
  - destruct (matcher icase r (mkState p "" []) Some) eqn:E; [| discriminate].
    destruct (matcher_sound _ _ _ _ E) as (y & Hr & _).
    exists "", "", (place y). split; [reflexivity |].
    simpl. rewrite Nat.add_0_r. exact Hr.
  - destruct (matcher icase r (mkState p (String ch s) []) Some) eqn:E.
    + destruct (matcher_sound _ _ _ _ E) as (y & Hr & _).
      exists "", (String ch s), (place y). split; [reflexivity |].
      simpl. rewrite Nat.add_0_r. exact Hr.
    + destruct (IH _ _ H) as (pre & suf & b & Hs & Hr).
      exists (String ch pre), suf, b. split; [simpl; f_equal; exact Hs |].
      simpl. rewrite Nat.add_succ_r. exact Hr.
Qed.

Lemma reaches_consumes (r : regex) (a b : nat * string) :
  reaches icase r a b -> exists w, snd a = w ++ snd b.
Proof.
  induction 1 as [invert p c s n _ | a | r1 r2 a b c _ [w1 H1] _ [w2 H2] | min max g r a
                  | min max g r a b c _ [w1 H1] _ [w2 H2] | i r a b _ IH | s | n]; simpl in *.
  - exists (String c ""). reflexivity.
  - exists "". reflexivity.
  - exists (w1 ++ w2). rewrite H1, H2. clear. induction w1; simpl; congruence.
  - exists "". reflexivity.
  - exists (w1 ++ w2). rewrite H1, H2. clear. induction w1; simpl; congruence.
  - exact IH.
  - exists "". reflexivity.
  - exists "". reflexivity.
Qed.

End MatcherSound.

(** ** The quantifiers never run out of fuel *)

Section MatcherFuel.
Variable icase : bool.

Lemma advances_refl (x : state) : advances x x.
Proof. split; reflexivity. Qed.

Lemma advances_trans (x y z : state) :
  advances x y -> advances y z -> advances x z.
Proof. unfold advances. intros [H1 H2] [H3 H4]. split; lia. Qed.

Lemma repeatMatcher_fuel (m : state -> cont -> option state) :
  (forall x c c', (forall y, advances x y -> c y = c' y) -> m x c = m x c') ->
  forall fuel fuel' inner min max greedy x c c',
    min + String.length (rest x) + 1 <= fuel ->
    min + String.length (rest x) + 1 <= fuel' ->
    (forall y, advances x y -> c y = c' y) ->
    repeatMatcher m inner fuel min max greedy x c
    = repeatMatcher m inner fuel' min max greedy x c'.
Proof.
  intros Hm. induction fuel as [|fuel IH];
    intros fuel' inner min max greedy x c c' Hf Hf' Hc; [lia |].
  destruct fuel' as [|fuel']; [lia |].
  simpl.
  assert (Hx : c x = c' x) by (apply Hc, advances_refl).
  assert (Hd : m (clearCaptures inner x)
                 (fun y => if Nat.eqb min 0 && Nat.eqb (pos y) (pos x) then None
                           else repeatMatcher m inner fuel (Nat.pred min)
                                              (option_map Nat.pred max) greedy y c)
               = m (clearCaptures inner x)
                   (fun y => if Nat.eqb min 0 && Nat.eqb (pos y) (pos x) then None
                             else repeatMatcher m inner fuel' (Nat.pred min)
                                                (option_map Nat.pred max) greedy y c')).
  { apply Hm. intros y Hy.
    assert (Hxy : advances x y) by exact Hy.
    destruct (Nat.eqb min 0 && Nat.eqb (pos y) (pos x)) eqn:E; [reflexivity |].
    assert (Hy' : Nat.pred min + String.length (rest y) + 1
                  <= min + String.length (rest x)).
    { destruct Hxy as [Hlen Hpos]. apply andb_false_iff in E.
      destruct E as [E | E]; apply Nat.eqb_neq in E; lia. }
    apply IH; try lia.
    intros z Hz. apply Hc. eapply advances_trans; eauto. }
  destruct max as [[|k]|]; [exact Hx | |]; rewrite Hd, Hx; reflexivity.
Qed.

Lemma matcher_continuation (r : regex) :
  forall x c c',
    (forall y, advances x y -> c y = c' y) ->
    matcher icase r x c = matcher icase r x c'.
Proof.
  induction r as [invert p | | r1 IH1 r2 IH2 | min max greedy r IH | i r IH | |];
    intros x c c' Hc; simpl.
  - destruct x as [n s cs]. simpl in *. destruct s as [|ch s']; [reflexivity |].
    destruct (charMatches icase invert p ch); [| reflexivity].
    apply Hc. split; simpl; lia.
  - apply Hc, advances_refl.
  - apply IH1. intros y Hy. apply IH2. intros z Hz.
    apply Hc. eapply advances_trans; eauto.
  - apply repeatMatcher_fuel; [exact IH | lia | lia | exact Hc].
  - apply IH. intros y Hy. apply Hc. exact Hy.
  - destruct (Nat.eqb (pos x) 0); [apply Hc, advances_refl | reflexivity].
  - destruct (rest x); [apply Hc, advances_refl | reflexivity].
Qed.

(** Any larger amount of fuel gives the quantifier the same result: the
    amount [matcher] starts it with is enough. *)
Lemma quantifier_fuel_suffices (r : regex) (min : nat) (max : option nat)
    (greedy : bool) (x : state) (c : cont) (fuel : nat) :
  min + String.length (rest x) + 1 <= fuel ->
  repeatMatcher (matcher icase r) (groups r) fuel min max greedy x c
  = matcher icase (Quant min max greedy r) x c.
Proof.
  intro Hf. simpl.
  apply repeatMatcher_fuel; [apply matcher_continuation | exact Hf | lia | reflexivity].
Qed.

End MatcherFuel.

(** ** Captures outside a pattern are left alone *)

Lemma capture_clear (i : nat) (inner : list nat) (x : state) :
  ~ In i inner ->
  capture i (caps (clearCaptures inner x)) = capture i (caps x).
Proof.
  intro Hi. unfold clearCaptures. simpl.
  induction (caps x) as [|[j s] cs IH]; [reflexivity |].
  simpl. destruct (existsb (Nat.eqb j) inner) eqn:E; simpl.
  - destruct (Nat.eqb i j) eqn:Eij; [| exact IH].
    apply Nat.eqb_eq in Eij. subst j.
    apply existsb_exists in E. destruct E as (k & Hk & Hik).
    apply Nat.eqb_eq in Hik. subst k. destruct (Hi Hk).
  - rewrite IH. reflexivity.
Qed.

Section MatcherCaptures.
Variable icase : bool.

Lemma repeatMatcher_keeps (m : state -> cont -> option state) (inner : list nat) :
  (forall x c z, m x c = Some z ->
     exists y, c y = Some z /\
               forall i, ~ In i inner -> capture i (caps y) = capture i (caps x)) ->
  forall fuel min max greedy x c z,
    repeatMatcher m inner fuel min max greedy x c = Some z ->
    exists y, c y = Some z /\
              forall i, ~ In i inner -> capture i (caps y) = capture i (caps x).
Proof.
  intros Hm. induction fuel as [|fuel IH]; intros min max greedy x c z H.
  - discriminate.
  - simpl in H.
    assert (Hstop : c x = Some z ->
            exists y, c y = Some z /\
                      forall i, ~ In i inner -> capture i (caps y) = capture i (caps x)).
    { intro Hc. exists x. split; [exact Hc | reflexivity]. }
    assert (Hiter : forall d : cont,
              (forall y, d y = Some z ->
                 repeatMatcher m inner fuel (Nat.pred min) (option_map Nat.pred max)
                               greedy y c = Some z) ->
              m (clearCaptures inner x) d = Some z ->
              exists y, c y = Some z /\
                        forall i, ~ In i inner ->
                                  capture i (caps y) = capture i (caps x)).
    { intros d Hd Hmd. destruct (Hm _ _ _ Hmd) as (y1 & Hd1 & Hk1).
      destruct (IH _ _ _ _ _ _ (Hd _ Hd1)) as (y & Hc & Hk).
      exists y. split; [exact Hc |]. intros i Hi.
      rewrite (Hk i Hi), (Hk1 i Hi). apply capture_clear. exact Hi. }
    assert (Hd : forall y,
              (if Nat.eqb min 0 && Nat.eqb (pos y) (pos x) then None
               else repeatMatcher m inner fuel (Nat.pred min)
                                  (option_map Nat.pred max) greedy y c) = Some z ->
              repeatMatcher m inner fuel (Nat.pred min) (option_map Nat.pred max)
                            greedy y c = Some z).
    { intros y. destruct (Nat.eqb min 0 && Nat.eqb (pos y) (pos x)); [discriminate | auto]. }
    destruct max as [[|k]|].
    + auto.
    + destruct (negb (Nat.eqb min 0)); [iterate H |].
      destruct greedy.
      * match type of H with
        | match ?t with _ => _ end = _ => destruct t eqn:E
        end; [inversion H; subst; iterate E | auto].
      * destruct (c x) eqn:E; [inversion H; subst; auto | iterate H].
    + destruct (negb (Nat.eqb min 0)); [iterate H |].
      destruct greedy.
      * match type of H with
        | match ?t with _ => _ end = _ => destruct t eqn:E
        end; [inversion H; subst; iterate E | auto].
      * destruct (c x) eqn:E; [inversion H; subst; auto | iterate H].
Qed.

Lemma matcher_keeps (r : regex) :
  forall x c z, matcher icase r x c = Some z ->
    exists y, c y = Some z /\
              forall i, ~ In i (groups r) -> capture i (caps y) = capture i (caps x).
Proof.
  induction r as [invert p | | r1 IH1 r2 IH2 | min max greedy r IH | j r IH | |];
    intros x c z H; simpl in H.
  - destruct (rest x) as [|ch s']; [discriminate |].
    destruct (charMatches icase invert p ch); [| discriminate].
    eexists. split; [exact H | reflexivity].
  - exists x. split; [exact H | reflexivity].
  - destruct (IH1 _ _ _ H) as (y1 & H1 & K1).
    destruct (IH2 _ _ _ H1) as (y2 & H2 & K2).
    exists y2. split; [exact H2 |]. intros i Hi. simpl in Hi.
    rewrite K2, K1; [reflexivity | |]; intro Hin; apply Hi, in_or_app; auto.
  - eapply repeatMatcher_keeps; [exact IH | exact H].
  - destruct (IH _ _ _ H) as (y & Hc & K).
    eexists. split; [exact Hc |]. intros i Hi. simpl in Hi.
    simpl. destruct (Nat.eqb i j) eqn:E.
    + apply Nat.eqb_eq in E. subst. destruct Hi. left. reflexivity.
    + apply K. intro Hin. apply Hi. right. exact Hin.
  - destruct (Nat.eqb (pos x) 0); [| discriminate].
    exists x. split; [exact H | reflexivity].
  - destruct (rest x); [| discriminate].
    exists x. split; [exact H | reflexivity].
Qed.

End MatcherCaptures.

(** ** The disk row pattern never captures a Gpt marker *)

Lemma matcher_Quant (icase : bool) (min : nat) (max : option nat) (greedy : bool)
    (r : regex) (x : state) (c : cont) :
  matcher icase (Quant min max greedy r) x c
  = repeatMatcher (matcher icase r) (groups r) (S (min + String.length (rest x)))
                  min max greedy x c.
Proof. simpl. rewrite Nat.add_1_r. reflexivity. Qed.

(** Where no white space follows, the optional Gpt group matches nothing. *)
Lemma gpt_group_skipped (y : state) :
  match rest y with
  | String ch _ => isWhiteSpace ch = false
  | EmptyString => True
  end ->
  matcher false (opt (seqs [plus ws; Group 6 (char "*")])) y Some = Some y.
Proof.
  intro H. unfold opt. rewrite matcher_Quant. cbn [repeatMatcher Nat.eqb negb].
  cbn [seqs matcher]. unfold plus at 1. rewrite matcher_Quant.
  cbn [repeatMatcher Nat.eqb negb]. unfold ws at 1. cbn [matcher].
  cbn [clearCaptures rest].
  destruct (rest y) as [|ch s']; [reflexivity |].
  unfold charMatches. rewrite H. reflexivity.
Qed.

(** The tail of the row pattern, white space and then the optional Gpt
    group, always matches, and leaves the Gpt capture unset. *)
Lemma disk_row_tail (fuel : nat) :
  forall y,
    String.length (rest y) < fuel ->
    capture 6 (caps y) = None ->
    exists z,
      repeatMatcher (matcher false ws) [] fuel 0 None true y
                    (fun y' => matcher false (opt (seqs [plus ws; Group 6 (char "*")]))
                                       y' Some)
      = Some z /\
      capture 6 (caps z) = None.
Proof.
  induction fuel as [|fuel IH]; intros y Hlen Hcap; [lia |].
  cbn [repeatMatcher Nat.eqb negb andb]. unfold ws at 1. cbn [matcher].
  cbn [clearCaptures rest pos caps].
  destruct y as [p s cs]. cbn [rest pos caps] in *.
  destruct s as [|ch s'].
  - rewrite gpt_group_skipped by exact I. eexists. split; [reflexivity | exact Hcap].
  - unfold charMatches. cbn [xorb].
    destruct (isWhiteSpace ch) eqn:E.
    + replace (Nat.eqb (S p) p) with false
        by (symmetry; apply Nat.eqb_neq; lia).
      destruct (IH (mkState (S p) s' (filter (fun e => negb (existsb (Nat.eqb (fst e)) []))
                                             cs))) as (z & Hz & Hcz).
      * simpl in *. lia.
      * cbn [caps]. rewrite <- Hcap.
        apply (capture_clear 6 [] (mkState p (String ch s') cs)). intros [].
      * cbn [Nat.pred option_map]. rewrite Hz. eexists. split; [reflexivity | exact Hcz].
    + rewrite gpt_group_skipped by exact E.
      eexists. split; [reflexivity | exact Hcap].
Qed.

Lemma searchFrom_found (icase : bool) (r : regex) :
  forall s p m, searchFrom icase r p s = Some m ->
    exists p' s' y whole,
      matcher icase r (mkState p' s' []) Some = Some y /\
      m = (0, whole) :: caps y.
Proof.
  induction s as [|ch s IH]; intros p m H; simpl in H.
  - destruct (matcher icase r (mkState p "" []) Some) eqn:E; [| discriminate].
    inversion H; subst. do 4 eexists. split; [exact E | reflexivity].
  - destruct (matcher icase r (mkState p (String ch s) []) Some) eqn:E.
    + inversion H; subst. do 4 eexists. split; [exact E | reflexivity].
    + eapply IH; eauto.
Qed.

(** Peel the first component off a sequence that matched: the Gpt capture
    is as it was. *)
Ltac peel H :=
  match type of H with
  | matcher ?ic (Seq ?a ?R) ?x ?c = Some ?z =>
      change (matcher ic (Seq a R) x c)
        with (matcher ic a x (fun y => matcher ic R y c)) in H;
      let y := fresh "y" in
      let K := fresh "K" in
      apply matcher_keeps in H; destruct H as (y & H & K);
      cbv beta in H;
      specialize (K 6 ltac:(cbn; intuition discriminate))
  end.

Lemma diskLineRe_no_gpt_capture (line : string) (m : list (nat * string)) :
  exec false diskLineRe line = Some m -> capture 6 m = None.
Proof.
  unfold exec. intro E.
  destruct (searchFrom_found _ _ _ _ _ E) as (p & s & y & whole & H & Hm).
  subst m. cbn [capture Nat.eqb].
  assert (Hre : diskLineRe =
    Seq (lit "Disk") (Seq (plus ws) (Seq (Group 1 (plus digit)) (Seq (plus ws)
    (Seq (Group 2 (seqs [plus nonWs; lazyStar (seqs [plus ws; plus nonWs])]))
    (Seq (plus ws)
    (Seq (Group 3 (seqs [plus digit; plus ws; opt (oneOf "KMGT"); char "B"]))
    (Seq (plus ws)
    (Seq (Group 4 (seqs [plus digit; plus ws; opt (oneOf "KMGT"); char "B"]))
    (Seq (opt (seqs [plus ws; Group 5 (char "*")]))
    (Seq (star ws) (opt (seqs [plus ws; Group 6 (char "*")])))))))))))))
    by reflexivity.
  rewrite Hre in H. clear Hre E.
  do 10 peel H.
  change (matcher false (Seq (star ws) (opt (seqs [plus ws; Group 6 (char "*")]))) y9 Some)
    with (matcher false (star ws) y9
            (fun y' => matcher false (opt (seqs [plus ws; Group 6 (char "*")])) y' Some))
    in H.
  unfold star in H. rewrite matcher_Quant in H.
  destruct (disk_row_tail (S (0 + String.length (rest y9))) y9) as (z & Hz & Hcz).
  - simpl. lia.
  - rewrite K8, K7, K6, K5, K4, K3, K2, K1, K0, K. reflexivity.
  - change (groups ws) with (@nil nat) in H. rewrite Hz in H.
    inversion H; subst. exact Hcz.
Qed.

(** Whatever the row, [parseListDisk] reports the partition style MBR. *)
Lemma parseDiskLine_never_gpt (line : string) (d : DiskInfo) :
  parseDiskLine line = Some d -> partitionStyle d = DiskInfo.MBR.
Proof.
  unfold parseDiskLine.
  destruct (String.eqb line "" || negb (startsWith line "Disk ")); [discriminate |].
  destruct (exec false diskLineRe line) as [m|] eqn:E; [| discriminate].
  intro H. inversion H; subst. cbn [partitionStyle].
  rewrite (diskLineRe_no_gpt_capture _ _ E). reflexivity.
Qed.

(** ** The script builder refuses invalid parameters *)











(** ** Partition rows without an offset *)

Lemma hasChar_app (p : ascii -> bool) (u v : string) :
  hasChar p (u ++ v) = hasChar p u || hasChar p v.
Proof.
  induction u as [|c u IH]; simpl; [reflexivity |].
  rewrite IH. apply orb_assoc.
Qed.

Lemma charMatches_B (c : ascii) :
  charMatches true false (Ascii.eqb "B") c = true -> isLetterB c = true.
Proof.
  destruct c as [b0 b1 b2 b3 b4 b5 b6 b7].
  destruct b0, b1, b2, b3, b4, b5, b6, b7; vm_compute; intro H;
    (reflexivity || discriminate).
Qed.

(** The size pattern needs a letter B, in either case. *)
Lemma sizeRe_needs_B (s : string) (m : list (nat * string)) :
  exec true sizeRe s = Some m -> hasChar isLetterB s = true.
Proof.
  unfold exec. intro E.
  destruct (searchFrom_sound _ _ _ _ _ E) as (pre & suf & b & Hs & Hr).
  subst s. rewrite hasChar_app. apply orb_true_iff. right.
  cbv [sizeRe seqs char plus star opt oneOf] in Hr.
  inversion Hr as [| | r1 r2 a1 b1 c1 Hg1 Hrest | | | | |]; subst.
  destruct (reaches_consumes _ _ _ _ Hg1) as [w1 H1].
  inversion Hrest as [| | r1 r2 a1 b2 c1 Hws Hg2 | | | | |]; subst.
  destruct (reaches_consumes _ _ _ _ Hws) as [w2 H2].
  inversion Hg2 as [| | | | | i r a1 c1 Hunit | |]; subst.
  inversion Hunit as [| | r1 r2 a1 b3 c1 Hopt Hb | | | | |]; subst.
  destruct (reaches_consumes _ _ _ _ Hopt) as [w3 H3].
  inversion Hb as [invert p c s1 n Hc | | | | | | |]; subst.
  simpl in H1, H2, H3. rewrite H1, H2, H3, !hasChar_app. simpl.
  rewrite (charMatches_B _ Hc), !orb_true_r. reflexivity.
Qed.

Lemma parseSize_without_B (s : string) :
  hasChar isLetterB s = false -> parseSize s = ofZ 0.
Proof.
  intro H. unfold parseSize. destruct (exec true sizeRe s) eqn:E; [| reflexivity].
  rewrite (sizeRe_needs_B _ _ E) in H. discriminate.
Qed.

(** C10 (counterexample): a row of six tokens whose sixth token is a
    size written without a blank gets that size as its offset, not 0. *)
Lemma parsePartitionLine_glued_offset :
  startsWith partitionRowGlued "Partition " = true /\
  List.length (splitWs partitionRowGlued) = 6 /\
  option_map PartitionInfo.offset (parsePartitionLine partitionRowGlued)
  = Some (ofZ (1024 * 1024)) /\
  ofZ (1024 * 1024) <> ofZ 0.
Proof.
  repeat split; try (vm_compute; reflexivity).
  vm_compute. discriminate.
Qed.

(** C10 (amended): a row that begins with "Partition " and has exactly
    five tokens is neither skipped nor refused: it yields a record whose
    offset is 0.  A row of exactly six tokens yields a record as well; its
    offset is the size read from the sixth token followed by the text of
    the missing seventh, which is 0 whenever the sixth token holds no
    letter B. *)
Theorem parsePartitionLine_missing_offset :
  forall line p0 p1 p2 p3 p4 : string,
    startsWith line "Partition " = true ->
    (splitWs line = [p0; p1; p2; p3; p4] ->
     parsePartitionLine line =
     Some (PartitionInfo.mk (parseInt p1) (normalizePartitionType p2)
                            (parseSize (p3 ++ " " ++ p4)) (ofZ 0)
                            PartitionInfo.Healthy None None None)) /\
    (forall p5 : string,
        splitWs line = [p0; p1; p2; p3; p4; p5] ->
        parsePartitionLine line =
        Some (PartitionInfo.mk (parseInt p1) (normalizePartitionType p2)
                               (parseSize (p3 ++ " " ++ p4))
                               (parseSize (p5 ++ " undefined"))
                               PartitionInfo.Healthy None None None) /\
        (hasChar isLetterB p5 = false -> parseSize (p5 ++ " undefined") = ofZ 0)).
Proof.
  intros line p0 p1 p2 p3 p4 Hstart.
  assert (Hne : String.eqb line "" = false)
    by (eapply startsWith_nonempty; [| exact Hstart]; discriminate).
  split.
  - intro Hsplit. unfold parsePartitionLine. rewrite Hne, Hstart, Hsplit.
    cbn [negb orb List.length Nat.ltb Nat.leb nth_error str].
    replace (parseSize ("undefined" ++ " " ++ "undefined")) with (ofZ 0)
      by (vm_compute; reflexivity).
    reflexivity.
  - intros p5 Hsplit. split.
    + unfold parsePartitionLine. rewrite Hne, Hstart, Hsplit.
      cbn [negb orb List.length Nat.ltb Nat.leb nth_error str]. reflexivity.
    + intro HB. apply parseSize_without_B.
      rewrite hasChar_app, HB. reflexivity.
Qed.

(** The theorem at a row of five tokens and at a row of six. *)
Lemma parsePartitionLine_missing_offset_witness :
  option_map PartitionInfo.offset (parsePartitionLine partitionRowNoOffset)
  = Some (ofZ 0) /\
  option_map PartitionInfo.offset (parsePartitionLine partitionRowNoUnit)
  = Some (ofZ 0).
Proof.
  split.
  - destruct (parsePartitionLine_missing_offset
                partitionRowNoOffset "Partition" "2" "Primary" "137" "GB"
                eq_refl) as [H _].
    rewrite (H eq_refl). reflexivity.
  - destruct (parsePartitionLine_missing_offset
                partitionRowNoUnit "Partition" "3" "Recovery" "499" "MB"
                eq_refl) as [_ H].
    destruct (H "137" eq_refl) as [Hrow Hzero].
    rewrite Hrow. cbn [option_map PartitionInfo.offset].
    rewrite (Hzero eq_refl). reflexivity.
Defined.

(** ** Lines, trimming and the header marker *)

Lemma includes_cons (c : ascii) (s m : string) :
  includes (String c s) m = startsWith (String c s) m || includes s m.
Proof. reflexivity. Qed.

Lemma split_cons (s : string) : exists l ls, split LF s = l :: ls.
Proof.
  induction s as [|c s (l & ls & IH)]; simpl; [eauto |].
  destruct (Ascii.eqb c LF); [eauto |]. rewrite IH. eauto.
Qed.

Lemma startsWith_first_line (s : string) :
  forall m l ls,
    hasChar isLF m = false -> split LF s = l :: ls ->
    startsWith s m = startsWith l m.
Proof.
  induction s as [|c s IH]; intros m l ls Hm Hs; simpl in Hs.
  - inversion Hs. reflexivity.
  - destruct m as [|a m]; [reflexivity |].
    simpl in Hm. apply orb_false_iff in Hm as [Ha Hm].
    destruct (Ascii.eqb c LF) eqn:Ec.
    + inversion Hs; subst. apply Ascii.eqb_eq in Ec. subst c.
      simpl. unfold isLF in Ha. rewrite Ha. reflexivity.
    + destruct (split_cons s) as (l' & ls' & E). rewrite E in Hs.
      inversion Hs; subst. simpl. f_equal. eapply IH; eauto.
Qed.

Lemma includes_lines (m : string) :
  startsClean m = true -> hasChar isLF m = false ->
  forall s, includes s m = existsb (fun l => includes l m) (split LF s).
Proof.
  intros Hstart Hlf. destruct m as [|a m]; [discriminate |].
  induction s as [|c s IH].
  - reflexivity.
  - rewrite includes_cons. simpl split. destruct (Ascii.eqb c LF) eqn:Ec.
    + cbn [existsb]. rewrite <- IH.
      apply Ascii.eqb_eq in Ec. subst c.
      simpl in Hlf. apply orb_false_iff in Hlf as [Ha _]. unfold isLF in Ha.
      simpl. rewrite Ha. reflexivity.
    + destruct (split_cons s) as (l & ls & E).
      rewrite (startsWith_first_line (String c s) (String a m) (String c l) ls Hlf)
        by (simpl; rewrite Ec, E; reflexivity).
      rewrite E in *. cbn [existsb] in *. rewrite (includes_cons c l), IH.
      apply orb_assoc.
Qed.

Lemma trimEnd_cons (c : ascii) (s : string) :
  trimEnd (String c s) =
  if isWhiteSpace c && String.eqb (trimEnd s) "" then "" else String c (trimEnd s).
Proof. simpl. destruct (trimEnd s); destruct (isWhiteSpace c); reflexivity. Qed.

Lemma endsClean_tail (a : ascii) (m : string) :
  endsClean (String a m) = true -> endsClean m = true.
Proof. destruct m; [reflexivity | auto]. Qed.

Lemma startsWith_trimEnd (s : string) :
  forall m, endsClean m = true -> startsWith (trimEnd s) m = startsWith s m.
Proof.
  induction s as [|c s IH]; intros m Hm; [reflexivity |].
  destruct m as [|a m]; [reflexivity |].
  rewrite trimEnd_cons.
  destruct (isWhiteSpace c && String.eqb (trimEnd s) "") eqn:E.
  - apply andb_true_iff in E as [Hc Ht]. apply String.eqb_eq in Ht.
    simpl. destruct (Ascii.eqb a c) eqn:Eac; [| reflexivity].
    apply Ascii.eqb_eq in Eac. subst a.
    destruct m as [|b m]; [simpl in Hm; rewrite Hc in Hm; discriminate |].
    rewrite <- IH by exact Hm. rewrite Ht. reflexivity.
  - simpl. f_equal. apply IH. eapply endsClean_tail; eauto.
Qed.

Lemma includes_trimEnd (m : string) :
  m <> "" -> endsClean m = true ->
  forall s, includes (trimEnd s) m = includes s m.
Proof.
  intros Hne Hm. induction s as [|c s IH]; [reflexivity |].
  rewrite (includes_cons c s), <- (startsWith_trimEnd (String c s) m Hm), <- IH.
  rewrite trimEnd_cons.
  destruct (isWhiteSpace c && String.eqb (trimEnd s) "") eqn:E.
  - apply andb_true_iff in E as [_ Ht]. apply String.eqb_eq in Ht. rewrite Ht.
    destruct m; [destruct Hne; reflexivity | reflexivity].
  - apply includes_cons.
Qed.

Lemma includes_trimStart (m : string) :
  startsClean m = true ->
  forall s, includes (trimStart s) m = includes s m.
Proof.
  intros Hm. induction s as [|c s IH]; [reflexivity |].
  simpl trimStart. destruct (isWhiteSpace c) eqn:E; [| reflexivity].
  rewrite IH, includes_cons.
  destruct m as [|a m]; [discriminate |]. simpl in Hm.
  simpl. destruct (Ascii.eqb a c) eqn:Eac; [| reflexivity].
  apply Ascii.eqb_eq in Eac. subst a. rewrite E in Hm. discriminate.
Qed.

Lemma includes_trim (m : string) :
  startsClean m = true -> endsClean m = true ->
  forall s, includes (trim s) m = includes s m.
Proof.
  intros Hs He s. unfold trim.
  rewrite includes_trimEnd, includes_trimStart; auto.
  destruct m; [discriminate | discriminate].
Qed.

Lemma existsb_trimmed_lines (m : string) :
  startsClean m = true -> endsClean m = true -> hasChar isLF m = false ->
  forall s,
    existsb (fun l => includes l m) (map trim (split LF s)) = includes s m.
Proof.
  intros Hs He Hlf s. rewrite (includes_lines m Hs Hlf s).
  induction (split LF s) as [|l ls IH]; [reflexivity |].
  simpl. rewrite IH, (includes_trim m Hs He). reflexivity.
Qed.

Lemma findIndex_existsb {A} (p : A -> bool) (xs : list A) :
  match findIndex p xs with
  | Some _ => existsb p xs = true
  | None => existsb p xs = false
  end.
Proof.
  induction xs as [|x xs IH]; simpl; [reflexivity |].
  destruct (p x); [reflexivity |].
  destruct (findIndex p xs); simpl; exact IH.
Qed.

Lemma collect_matchingRows {A} (row : string -> option A) (ls : list string) :
  collect row ls = matchingRows row ls.
Proof.
  unfold collect, matchingRows.
  enough (H : forall acc,
             fold_left (fun acc line => match row line with
                                        | Some r => (acc ++ [r])%list
                                        | None => acc
                                        end) ls acc
             = (acc ++ flat_map (fun line => match row line with
                                             | Some r => [r]
                                             | None => []
                                             end) ls)%list)
    by (rewrite H; reflexivity).
  induction ls as [|l ls IH]; intro acc; simpl.
  - rewrite app_nil_r. reflexivity.
  - rewrite IH. destruct (row l); [rewrite <- app_assoc |]; reflexivity.
Qed.

Lemma matchingRows_garbage {A} (row : string -> option A) (ls : list string) :
  Forall (fun line => row line = None) ls -> matchingRows row ls = [].
Proof.
  induction 1 as [|l ls Hl _ IH]; [reflexivity |].
  unfold matchingRows in *. simpl. rewrite Hl, IH. reflexivity.
Qed.

Section ParseTable.
Context {A : Type}.
Variables (marker notFound : string) (row : string -> option A).
Hypothesis marker_starts : startsClean marker = true.
Hypothesis marker_ends : endsClean marker = true.
Hypothesis marker_one_line : hasChar isLF marker = false.

Lemma parseTable_header : HeaderLaw (parseTable marker notFound row) marker row.
Proof.
  intro output. unfold parseTable, dataLines.
  pose proof (findIndex_existsb (fun line => includes line marker)
                                (map trim (split LF output))) as H.
  rewrite (existsb_trimmed_lines marker marker_starts marker_ends marker_one_line)
    in H.
  destruct (findIndex _ _) as [h|].
  - right. split; [exact H |]. unfold sliceFrom.
    rewrite collect_matchingRows. reflexivity.
  - left. split; [exact H |]. eexists. reflexivity.
Qed.

Lemma parseTable_skips : SkipsGarbage (parseTable marker notFound row) marker row.
Proof.
  intros output before after good d Hin Hlines Hgood Hgarbage.
  destruct (parseTable_header output) as [[Hno _] | [_ Hparse]]; [congruence |].
  rewrite Hparse, Hlines. f_equal.
  apply Forall_app in Hgarbage as [Hb Ha].
  unfold matchingRows. rewrite flat_map_app. simpl. rewrite Hgood.
  fold (matchingRows row before). fold (matchingRows row after).
  rewrite (matchingRows_garbage _ _ Hb), (matchingRows_garbage _ _ Ha).
  reflexivity.
Qed.

End ParseTable.

Lemma parseDiskLine_law : RowLaw parseDiskLine diskRowTest.
Proof.
  intro line. unfold parseDiskLine, diskRowTest, test.
  destruct (startsWith line "Disk ") eqn:Hs; cbn [andb negb].
  - assert (Hne : String.eqb line "" = false).
    { destruct line; [discriminate Hs | reflexivity]. }
    rewrite Hne. cbn [orb].
    destruct (exec false diskLineRe line) as [m|].
    + left. split; [reflexivity | eexists; reflexivity].
    + right. split; reflexivity.
  - right. rewrite orb_true_r. split; reflexivity.
Qed.

Lemma parseVolumeLine_law : RowLaw parseVolumeLine volumeRowTest.
Proof.
  intro line. unfold parseVolumeLine, volumeRowTest.
  destruct (startsWith line "Volume ") eqn:Hs; cbn [andb negb].
  - assert (Hne : String.eqb line "" = false).
    { destruct line; [discriminate Hs | reflexivity]. }
    rewrite Hne, Nat.ltb_antisym. cbn [orb].
    destruct (Nat.leb 7 (List.length (splitWs line))); cbn [negb].
    + left. split; [reflexivity | eexists; reflexivity].
    + right. split; reflexivity.
  - right. rewrite orb_true_r. split; reflexivity.
Qed.

Lemma parsePartitionLine_law : RowLaw parsePartitionLine partitionRowTest.
Proof.
  intro line. unfold parsePartitionLine, partitionRowTest.
  destruct (startsWith line "Partition ") eqn:Hs; cbn [andb negb].
  - assert (Hne : String.eqb line "" = false).
    { destruct line; [discriminate Hs | reflexivity]. }
    rewrite Hne, Nat.ltb_antisym. cbn [orb].
    destruct (Nat.leb 5 (List.length (splitWs line))); cbn [negb].
    + left. split; [reflexivity | eexists; reflexivity].
    + right. split; reflexivity.
  - right. rewrite orb_true_r. split; reflexivity.
Qed.

(** Rows that fail the test are rows without a record. *)
Lemma skips_failing {A} (parse : string -> result DiskpartError (list A))
    (marker : string) (row : string -> option A) (rowTest : string -> bool) :
  RowLaw row rowTest -> SkipsGarbage parse marker row ->
  SkipsFailing parse marker row rowTest.
Proof.
  intros Hlaw Hskip output before after good Hin Hlines Hgood Hfail.
  destruct (Hlaw good) as [[_ [d Hd]] | [Hno _]]; [| congruence].
  exists d. split; [exact Hd |].
  apply (Hskip output before after good d Hin Hlines Hd).
  eapply Forall_impl; [| exact Hfail].
  intros line Hline. destruct (Hlaw line) as [[Hyes _] | [_ Hnone]];
    [congruence | exact Hnone].
Qed.

(** C9 (counterexample): a row of prose that starts with the row keyword
    and has five words or more is a record for [parseListPartition]: a
    table with one well-formed row and this row yields two records. *)
Lemma parseListPartition_prose_row :
  parseListPartition partitionTableWithProse
  = Ok [ PartitionInfo.mk (ofZ 1) PartitionInfo.Primary (ofZ 104857600)
                          (ofZ 1048576) PartitionInfo.Healthy None None None;
         PartitionInfo.mk NaN PartitionInfo.Primary (ofZ 0) (ofZ 0)
                          PartitionInfo.Healthy None None None ].
Proof. vm_compute. reflexivity. Qed.

(** C9 (amended): each list parser throws [ParseError] exactly when its
    header marker is absent from the text; when the marker is present it
    returns one record for each data line that passes its row test, in
    order, and passes over the others.  A line passes the test exactly
    when it starts with the row keyword and, for disks, matches the row
    pattern, for volumes, has seven tokens or more, for partitions, five
    or more.  So one row that passes among rows that fail yields exactly
    one record. *)
Theorem list_parsers_header_and_rows :
  (HeaderLaw parseListDisk "Disk ###" parseDiskLine /\
   HeaderLaw parseListVolume "Volume ###" parseVolumeLine /\
   HeaderLaw parseListPartition "Partition ###" parsePartitionLine) /\
  (RowLaw parseDiskLine diskRowTest /\
   RowLaw parseVolumeLine volumeRowTest /\
   RowLaw parsePartitionLine partitionRowTest) /\
  (SkipsFailing parseListDisk "Disk ###" parseDiskLine diskRowTest /\
   SkipsFailing parseListVolume "Volume ###" parseVolumeLine volumeRowTest /\
   SkipsFailing parseListPartition "Partition ###" parsePartitionLine
                partitionRowTest).
Proof.
  split; [| split].
  - repeat split; apply parseTable_header; reflexivity.
  - repeat split;
      [apply parseDiskLine_law | apply parseVolumeLine_law
       | apply parsePartitionLine_law].
  - repeat split; apply skips_failing;
      first [ apply parseDiskLine_law | apply parseVolumeLine_law
            | apply parsePartitionLine_law
            | apply parseTable_skips; reflexivity ].
Qed.

(** The theorem at three tables with one well-formed row and one row
    that fails the test each, and at a text without the disk header. *)
Lemma list_parsers_header_and_rows_witness :
  (exists d, parseListDisk diskTableWithGarbage = Ok [d]) /\
  (exists v, parseListVolume volumeTableWithGarbage = Ok [v]) /\
  (exists p, parseListPartition partitionTableWithGarbage = Ok [p]) /\
  (exists msg, parseListDisk volumeTable = Throw (ParseError msg None)).
Proof.
  destruct list_parsers_header_and_rows
    as ((Hd & _ & _) & _ & (Sd & Sv & Sp)).
  repeat split.
  - destruct (Sd diskTableWithGarbage ["Disk ?    ###"] []
                 "Disk 0    Online          238 GB      0 B        *")
      as (d & _ & Hparse);
      [reflexivity | reflexivity | vm_compute; reflexivity
       | repeat constructor |].
    exists d. exact Hparse.
  - destruct (Sv volumeTableWithGarbage [] ["Volume 9   ???"]
                 "Volume 0     D   Data         NTFS   Partition    100 GB  Healthy")
      as (v & _ & Hparse);
      [reflexivity | reflexivity | vm_compute; reflexivity
       | repeat constructor |].
    exists v. exact Hparse.
  - destruct (Sp partitionTableWithGarbage ["Partition one"] []
                 "Partition 1    Primary            100 MB  1024 KB")
      as (p & _ & Hparse);
      [reflexivity | reflexivity | vm_compute; reflexivity
       | repeat constructor |].
    exists p. exact Hparse.
  - destruct (Hd volumeTable) as [[_ H] | [H _]]; [exact H | discriminate H].
Defined.

(** ** The executor *)

Ltac unfold_exec :=
  unfold run, executeAndParse, executeDiskpartCommand, isRunningAsAdmin,
    createTempScript, deleteTempScript, callParser, execAsync, writeFile,
    existsSync, unlink, logError, logCommand, logCommandResult,
    bind, tryCatch, ret, throw, world, emit in *.

Ltac case_outcome :=
  match goal with
  | |- context [String.eqb (platform ?w) ?s] =>
      destruct (String.eqb (platform w) s) eqn:?
  | |- context [execOutcome ?w ?c] => destruct (execOutcome w c) as [[? ?]|?] eqn:?
  | |- context [writeFileOutcome ?w ?p ?d] => destruct (writeFileOutcome w p d) eqn:?
  | |- context [existsSyncOutcome ?w ?p] => destruct (existsSyncOutcome w p) eqn:?
  | |- context [unlinkOutcome ?w ?p] => destruct (unlinkOutcome w p) eqn:?
  | |- context [isCommandSuccessful ?o] => destruct (isCommandSuccessful o) eqn:?
  | |- context [killed ?e] => destruct (killed e) eqn:?
  | |- context [signal ?e] => destruct (signal e) eqn:?
  | |- context [String.eqb ?s "SIGTERM"] => destruct (String.eqb s "SIGTERM") eqn:?
  | |- context [includes ?s "access is denied"] =>
      destruct (includes s "access is denied") eqn:?
  end; cbn.

(** C7: when the elevation probe answers "not elevated", the executor
    returns the PRIVILEGE_ERROR result, and the call does nothing beyond
    the probe's own query but write one log entry: no script file is
    written and no subprocess is started. *)
Theorem executeDiskpartCommand_without_elevation :
  forall (fmt : NumberFormat) (T : Type) (w : World)
         (command : string) (timeout : option number) (probe : list event),
    run isRunningAsAdmin w = (Ok false, probe) ->
    run (executeDiskpartCommand (T := T) command timeout) w =
    (Ok (mkResult false
                  "Administrator privileges required to execute Diskpart commands"
                  (Some "PRIVILEGE_ERROR")
                  (Some "Please restart the application as administrator")
                  None),
     (probe ++ [Log "ERROR" "Privilege check failed"])%list).
Proof.
  intros fmt T w command timeout probe H. unfold_exec. cbn in *.
  destruct (String.eqb (platform w) "win32"); cbn in *; [| discriminate].
  destruct (execOutcome w "net session") as [[so se]|e]; cbn in *;
    [discriminate |].
  inversion H; subst probe. reflexivity.
Qed.

(** The theorem in a world whose probe fails. *)
Lemma executeDiskpartCommand_without_elevation_witness :
  run isRunningAsAdmin notElevated = (Ok false, [Exec "net session" (ofZ 5000)]) /\
  run (executeDiskpartCommand (fmt := exampleFormat) (T := unit) "clean" None)
      notElevated =
  (Ok (mkResult false
                "Administrator privileges required to execute Diskpart commands"
                (Some "PRIVILEGE_ERROR")
                (Some "Please restart the application as administrator")
                None),
   [Exec "net session" (ofZ 5000); Log "ERROR" "Privilege check failed"]).
Proof.
  split; [reflexivity |].
  apply (executeDiskpartCommand_without_elevation
           exampleFormat unit notElevated "clean" None
           [Exec "net session" (ofZ 5000)]).
  reflexivity.
Defined.

(** C3 (counterexample): a run in which the tool exits normally and
    prints a denial is reported under the code COMMAND_FAILED, which is
    not a code of the error classes. *)
Lemma executeDiskpartCommand_command_failed_code :
  match fst (run (executeDiskpartCommand (fmt := exampleFormat) (T := unit)
                                         "list disk" None)
                 (toolPrints "Access is denied.")) with
  | Ok cr =>
      success cr = false /\ errorCode cr = Some "COMMAND_FAILED" /\
      ~ In "COMMAND_FAILED" taxonomy
  | Throw _ => False
  end.
Proof.
  vm_compute. repeat split.
  intro H. repeat (destruct H as [H | H]; [discriminate H |]). exact H.
Qed.

(** C3 (amended): the executor never throws, and every failing result it
    returns carries one of the codes PRIVILEGE_ERROR, COMMAND_FAILED,
    COMMAND_TIMEOUT, ACCESS_DENIED, COMMAND_EXECUTION_ERROR. *)
Theorem executeDiskpartCommand_error_codes :
  forall (fmt : NumberFormat) (T : Type) (w : World)
         (command : string) (timeout : option number),
    match fst (run (executeDiskpartCommand (T := T) command timeout) w) with
    | Ok cr =>
        success cr = true \/
        exists c, errorCode cr = Some c /\ In c executorCodes
    | Throw _ => False
    end.
Proof.
  intros fmt T w command timeout. unfold_exec. cbn.
  repeat case_outcome;
    solve [ left; reflexivity
          | right; eexists; split; [reflexivity | cbn; tauto] ].
Qed.

Lemma orStr_empty_r (s : string) : orStr s "" = s.
Proof. destruct s; reflexivity. Qed.

(** What a successful executor result holds, and that the executor itself
    never calls a parser. *)
Lemma executeDiskpartCommand_result_shape :
  forall (fmt : NumberFormat) (T : Type) (w : World)
         (command : string) (timeout : option number)
         (cr : CommandResult T) (tr : list event),
    run (executeDiskpartCommand command timeout) w = (Ok cr, tr) ->
    (success cr = true ->
     exists stdout stderr,
       data cr = Some (Output (orStr stdout stderr) stdout stderr) /\
       isCommandSuccessful (orStr stdout stderr) = true) /\
    (forall o, ~ In (CallParser o) tr).
Proof.
  intros fmt T w command timeout cr tr. unfold_exec. cbn.
  repeat case_outcome; intro H; inversion H; subst; clear H; cbn;
    (split; [ try discriminate | intros o Hin; cbn in Hin; intuition discriminate ]).
  all: intros _; rewrite ?orStr_empty_r in *; do 2 eexists; split;
    [reflexivity | assumption].
Qed.

(** C5 (counterexample): the tool runs and prints a text without the disk
    header; the parser throws; the PARSE_ERROR result holds the parser's
    message in [details], and the raw text in [data]. *)
Lemma executeAndParse_details_hold_parser_message :
  match fst (run (executeAndParse (fmt := exampleFormat) "list disk"
                                  (asParser parseListDisk) None)
                 (toolPrints "There are no disks to show.")) with
  | Ok cr =>
      success cr = false /\ errorCode cr = Some "PARSE_ERROR" /\
      resultDetails cr = Some "Could not find disk list header in output" /\
      resultDetails cr <> Some "There are no disks to show." /\
      data cr = Some (Output "There are no disks to show."
                             "There are no disks to show." "")
  | Throw _ => False
  end.
Proof.
  vm_compute. repeat split. discriminate.
Qed.

(** C5 (amended): when the executor returns a failing result,
    [executeAndParse] returns that result unchanged and the parser is not
    called.  When the executor succeeds and the parser throws on the
    captured output, [executeAndParse] returns a failing result with the
    code PARSE_ERROR whose [details] hold the message of the parser's
    error and whose [data] is the executor's, which holds the raw output. *)
Theorem executeAndParse_failure_paths :
  forall (fmt : NumberFormat) (T : Type) (w : World) (command : string)
         (parser : string -> result exn T) (timeout : option number)
         (cr : CommandResult T) (tr : list event),
    run (executeDiskpartCommand command timeout) w = (Ok cr, tr) ->
    (success cr = false ->
     run (executeAndParse command parser timeout) w = (Ok cr, tr) /\
     forall o, ~ In (CallParser o) tr) /\
    (success cr = true ->
     exists stdout stderr,
       data cr = Some (Output (orStr stdout stderr) stdout stderr) /\
       forall e,
         parser (orStr stdout stderr) = Throw e ->
         run (executeAndParse command parser timeout) w =
         (Ok (mkResult false "Failed to parse command output" (Some "PARSE_ERROR")
                       (Some (exnMessage e)) (data cr)),
          (tr ++ [CallParser (orStr stdout stderr);
                  Log "ERROR" "Failed to parse command output"])%list)).
Proof.
  intros fmt T w command parser timeout cr tr Hrun.
  destruct (executeDiskpartCommand_result_shape _ _ _ _ _ _ _ Hrun) as [Hdata Hquiet].
  assert (Hbind : forall k : CommandResult T -> M (CommandResult T),
             run (bind (executeDiskpartCommand command timeout) k) w = k cr w tr).
  { intro k. unfold run, bind in *. rewrite Hrun. reflexivity. }
  split.
  - intro Hfail. split; [| exact Hquiet].
    unfold executeAndParse. rewrite Hbind, Hfail. reflexivity.
  - intro Hok. destruct (Hdata Hok) as (stdout & stderr & Hd & Hsuccess).
    exists stdout, stderr. split; [exact Hd |]. intros e He.
    unfold executeAndParse. rewrite Hbind, Hok, Hd. cbn [negb dataOutput dataStdout].
    assert (Hout : orElse (Some (orStr stdout stderr)) (orElse (Some stdout) "")
                   = orStr stdout stderr).
    { destruct (orStr stdout stderr) eqn:E; [| reflexivity].
      vm_compute in Hsuccess. discriminate. }
    rewrite Hout.
    unfold tryCatch, callParser, bind, emit, logError, ret, throw.
    rewrite He. unfold emit. rewrite <- app_assoc. reflexivity.
Qed.

(** The theorem in a world without elevation (the executor fails) and in
    a world whose tool prints no disk table (the parser throws). *)
Lemma executeAndParse_failure_paths_witness :
  run (executeAndParse (fmt := exampleFormat) "list disk" (asParser parseListDisk) None)
      notElevated
  = run (executeDiskpartCommand (fmt := exampleFormat) "list disk" None) notElevated
  /\
  fst (run (executeAndParse (fmt := exampleFormat) "list disk"
                            (asParser parseListDisk) None)
           (toolPrints "There are no disks to show."))
  = Ok (mkResult false "Failed to parse command output" (Some "PARSE_ERROR")
                 (Some "Could not find disk list header in output")
                 (Some (Output "There are no disks to show."
                               "There are no disks to show." ""))).
Proof.
  split.
  - destruct (run (executeDiskpartCommand (fmt := exampleFormat)
                                          (T := list DiskInfo) "list disk" None)
                  notElevated) as [r tr] eqn:E.
    vm_compute in E. inversion E; subst r tr. clear E.
    destruct (executeAndParse_failure_paths
                exampleFormat (list DiskInfo) notElevated "list disk"
                (asParser parseListDisk) None _ _ eq_refl) as [Hfail _].
    destruct (Hfail eq_refl) as [Heq _]. exact Heq.
  - destruct (run (executeDiskpartCommand (fmt := exampleFormat)
                                          (T := list DiskInfo) "list disk" None)
                  (toolPrints "There are no disks to show.")) as [r tr] eqn:E.
    vm_compute in E. inversion E; subst r tr. clear E.
    destruct (executeAndParse_failure_paths
                exampleFormat (list DiskInfo)
                (toolPrints "There are no disks to show.") "list disk"
                (asParser parseListDisk) None _ _ eq_refl) as [_ Hok].
    destruct (Hok eq_refl) as (stdout & stderr & Hd & Hthrow).
    inversion Hd; subst stdout stderr.
    rewrite (Hthrow (DiskpartExn (ParseError "Could not find disk list header in output"
                                             None)) eq_refl).
    reflexivity.
Defined.

(** * Further properties *)

(** ** The script builder accepts every valid parameter *)

Lemma Qred_inject_Z (z : Z) : Qred (inject_Z z) = inject_Z z.
Proof.
  unfold Qred, inject_Z.
  pose proof (Z.ggcd_gcd z 1) as Hg.
  pose proof (Z.ggcd_correct_divisors z 1) as Hd.
  destruct (Z.ggcd z 1) as (g & aa & bb). simpl in *.
  rewrite Z.gcd_1_r in Hg. subst g. destruct Hd as [Ha Hb].
  replace aa with z by lia. replace bb with 1%Z by lia. reflexivity.
Qed.

Lemma IsInt_isInteger (x : number) (z : Z) : IsInt x z -> isInteger x = true.
Proof.
  destruct x as [| | |q]; simpl; try tauto. intro H. unfold isInteger.
  rewrite (Qred_complete _ _ H), Qred_inject_Z. reflexivity.
Qed.

Lemma IsInt_num_lt (x : number) (z bound : Z) :
  IsInt x z -> num_lt x (ofZ bound) = Z.ltb z bound.
Proof.
  destruct x as [| | |q]; simpl; try tauto. intro H. unfold num_lt, ofZ.
  rewrite H. unfold Qcompare, inject_Z. simpl. rewrite !Z.mul_1_r.
  unfold Z.ltb. destruct (z ?= bound)%Z; reflexivity.
Qed.

Lemma IsInt_num_le (x : number) (z bound : Z) :
  IsInt x z -> num_le x (ofZ bound) = Z.leb z bound.
Proof.
  destruct x as [| | |q]; simpl; try tauto. intro H. unfold num_le, ofZ.
  rewrite H. unfold Qcompare, inject_Z. simpl. rewrite !Z.mul_1_r.
  unfold Z.leb. destruct (z ?= bound)%Z; reflexivity.
Qed.

(** X1: the numeric builders accept every integer in range and put the
    number, as the runtime prints it, into the instruction: a disk number
    from 0 on, a partition number from 1 on, a size from 1 on; an omitted
    size or minimum leaves its clause out. *)
Theorem builders_accept_valid_numbers :
  forall (fmt : NumberFormat) (x : number) (z : Z),
    IsInt x z ->
    ((0 <= z)%Z ->
     buildSelectDiskCommand x = Ok ("select disk " ++ numberToString x)) /\
    ((1 <= z)%Z ->
     buildSelectPartitionCommand x = Ok ("select partition " ++ numberToString x) /\
     buildCreatePartitionCommand (Some x)
     = Ok ("create partition primary size=" ++ numberToString x) /\
     buildExtendPartitionCommand (Some x) = Ok ("extend size=" ++ numberToString x) /\
     buildShrinkPartitionCommand x None = Ok ("shrink desired=" ++ numberToString x) /\
     forall (m : number) (zm : Z),
       IsInt m zm -> (1 <= zm)%Z ->
       buildShrinkPartitionCommand x (Some m)
       = Ok ("shrink desired=" ++ numberToString x ++ " minimum=" ++ numberToString m)) /\
    buildCreatePartitionCommand None = Ok "create partition primary" /\
    buildExtendPartitionCommand None = Ok "extend".
Proof.
  intros fmt x z Hx. pose proof (IsInt_isInteger _ _ Hx) as Hi.
  split; [| split; [| split; reflexivity]].
  - intro Hz. unfold buildSelectDiskCommand.
    rewrite Hi, (IsInt_num_lt _ _ _ Hx). cbn [negb orb].
    replace (z <? 0)%Z with false by (symmetry; apply Z.ltb_ge; lia). reflexivity.
  - intro Hz.
    assert (Hlt : (z <? 1)%Z = false) by (apply Z.ltb_ge; lia).
    assert (Hle : (z <=? 0)%Z = false) by (apply Z.leb_gt; lia).
    unfold buildSelectPartitionCommand, buildCreatePartitionCommand,
      buildExtendPartitionCommand, buildShrinkPartitionCommand.
    rewrite Hi, (IsInt_num_lt _ _ _ Hx), (IsInt_num_le _ _ _ Hx), Hlt, Hle.
    cbn [negb orb]. repeat split.
    intros m zm Hm Hzm.
    rewrite (IsInt_isInteger _ _ Hm), (IsInt_num_le _ _ _ Hm).
    replace (zm <=? 0)%Z with false by (symmetry; apply Z.leb_gt; lia).
    cbn [negb orb]. reflexivity.
Qed.

(** The theorem at disk 0 and at the size 500. *)
Lemma builders_accept_valid_numbers_witness :
  buildSelectDiskCommand (fmt := exampleFormat) (ofZ 0) = Ok "select disk 0" /\
  buildCreatePartitionCommand (fmt := exampleFormat) (Some (ofZ 500))
  = Ok "create partition primary size=500" /\
  buildShrinkPartitionCommand (fmt := exampleFormat) (ofZ 500) (Some (ofZ 100))
  = Ok "shrink desired=500 minimum=100".
Proof.
  destruct (builders_accept_valid_numbers exampleFormat (ofZ 0) 0 (Qeq_refl _))
    as (Hdisk & _).
  destruct (builders_accept_valid_numbers exampleFormat (ofZ 500) 500 (Qeq_refl _))
    as (_ & Hsize & _).
  destruct (Hsize ltac:(lia)) as (_ & Hcreate & _ & _ & Hshrink).
  split; [| split].
  - rewrite (Hdisk ltac:(lia)). reflexivity.
  - rewrite Hcreate. reflexivity.
  - rewrite (Hshrink (ofZ 100) 100%Z (Qeq_refl _) ltac:(lia)). reflexivity.
Defined.

(** X2: the letter builders accept every single letter, in either case,
    and write it in upper case. *)
Theorem letter_builders_accept_letters :
  forall c : ascii,
    isUpper c = true \/ isLower c = true ->
    buildAssignLetterCommand (String c "")
    = Ok ("assign letter=" ++ String (upperChar c) "") /\
    buildRemoveLetterCommand (String c "")
    = Ok ("remove letter=" ++ String (upperChar c) "").
Proof.
  intros c. destruct c as [b0 b1 b2 b3 b4 b5 b6 b7].
  destruct b0, b1, b2, b3, b4, b5, b6, b7;
    intros [H | H]; vm_compute in H; try discriminate H;
    vm_compute; split; reflexivity.
Qed.

(** The theorem at the letter "e". *)
Lemma letter_builders_accept_letters_witness :
  buildAssignLetterCommand "e" = Ok "assign letter=E" /\
  buildRemoveLetterCommand "e" = Ok "remove letter=E".
Proof.
  apply (letter_builders_accept_letters "e"%char). right. reflexivity.
Defined.

Lemma append_assoc (a b c : string) : (a ++ b) ++ c = a ++ b ++ c.
Proof. induction a as [|x a IH]; simpl; [reflexivity | rewrite IH; reflexivity]. Qed.

Lemma append_empty_r (a : string) : a ++ "" = a.
Proof. induction a as [|x a IH]; simpl; [reflexivity | rewrite IH; reflexivity]. Qed.

Lemma format_within_cap :
  forall (fileSystem label : string) (quick : option bool),
    In (toUpperCase fileSystem) ["NTFS"; "FAT32"; "FAT"] ->
    String.length label <= labelCap fileSystem ->
    buildFormatVolumeCommand fileSystem (Some label) quick =
    Ok ("format fs=" ++ toUpperCase fileSystem
        ++ (if String.eqb label "" then "" else " label=" ++ dquote ++ label ++ dquote)
        ++ (match quick with
            | Some false => ""
            | _ => " quick"
            end)).
Proof.
  intros fileSystem label quick Hfs Hlen.
  unfold buildFormatVolumeCommand, labelCap in *.
  assert (Hin : arrayIncludes validFileSystems (toUpperCase fileSystem) = true).
  { destruct Hfs as [E | [E | [E | []]]]; rewrite <- E; reflexivity. }
  rewrite Hin. cbn [negb].
  destruct label as [|c label].
  - cbn [String.eqb]. destruct quick as [[|]|]; cbn;
      rewrite ?append_empty_r; reflexivity.
  - assert (Hcap : Nat.ltb (if String.eqb (toUpperCase fileSystem) "NTFS" then 32 else 11)
                           (String.length (String c label)) = false)
      by (apply Nat.ltb_ge; exact Hlen).
    rewrite Hcap. cbn [String.eqb].
    destruct quick as [[|]|]; rewrite ?append_assoc, ?append_empty_r; reflexivity.
Qed.

(** X3: for an accepted file system, [buildFormatVolumeCommand] accepts
    every label within the cap, whatever characters it holds, and writes
    it between double quotes as it is; an empty label leaves the clause
    out; the quick flag is on unless it is switched off. *)
Theorem buildFormatVolumeCommand_labels :
  forall (fileSystem label : string) (quick : option bool),
    In (toUpperCase fileSystem) ["NTFS"; "FAT32"; "FAT"] ->
    String.length label <= labelCap fileSystem ->
    buildFormatVolumeCommand fileSystem (Some label) quick =
    Ok ("format fs=" ++ toUpperCase fileSystem
        ++ (if String.eqb label "" then "" else " label=" ++ dquote ++ label ++ dquote)
        ++ (match quick with
            | Some false => ""
            | _ => " quick"
            end)).
Proof. exact format_within_cap. Qed.

(** The theorem at a label with a blank and at a label with a line break. *)
Lemma buildFormatVolumeCommand_labels_witness :
  buildFormatVolumeCommand "ntfs" (Some "My Data") None
  = Ok ("format fs=NTFS label=" ++ dquote ++ "My Data" ++ dquote ++ " quick") /\
  buildFormatVolumeCommand "FAT32" (Some ("a" ++ nl ++ "clean")) (Some false)
  = Ok ("format fs=FAT32 label=" ++ dquote ++ "a" ++ nl ++ "clean" ++ dquote).
Proof.
  split.
  - rewrite (buildFormatVolumeCommand_labels "ntfs" "My Data" None).
    + reflexivity.
    + cbn. tauto.
    + vm_compute. lia.
  - rewrite (buildFormatVolumeCommand_labels "FAT32" ("a" ++ nl ++ "clean") (Some false)).
    + reflexivity.
    + cbn. tauto.
    + vm_compute. lia.
Defined.

(** ** The script assembler *)

Lemma split_line (a : string) :
  hasChar isLF a = false -> split LF a = [a].
Proof.
  induction a as [|c a IH]; intro H; [reflexivity |].
  simpl in H. apply orb_false_iff in H as [Hc Ha]. unfold isLF in Hc.
  simpl. rewrite Hc, (IH Ha). reflexivity.
Qed.

Lemma split_first_line (a r : string) :
  hasChar isLF a = false -> split LF (a ++ nl ++ r) = a :: split LF r.
Proof.
  induction a as [|c a IH]; intro H; [reflexivity |].
  simpl in H. apply orb_false_iff in H as [Hc Ha]. unfold isLF in Hc.
  simpl. rewrite Hc. simpl in IH. rewrite (IH Ha). reflexivity.
Qed.

Lemma split_join (commands : list string) :
  commands <> [] ->
  Forall (fun c => hasChar isLF c = false) commands ->
  split LF (join nl commands) = commands.
Proof.
  induction commands as [|a rest IH]; intros Hne Hall; [destruct Hne; reflexivity |].
  inversion Hall as [|? ? Ha Hrest]; subst.
  destruct rest as [|b rest].
  - simpl. apply split_line. exact Ha.
  - change (join nl (a :: b :: rest)) with (a ++ nl ++ join nl (b :: rest)).
    rewrite (split_first_line _ _ Ha), IH; [reflexivity | discriminate | exact Hrest].
Qed.

(** X4: the assembler rejects the empty list, and otherwise joins the
    instructions with line breaks: when no instruction holds a line break,
    splitting the script at its line breaks gives the instructions back,
    in order. *)
Theorem buildCommandScript_round_trip :
  forall commands : list string,
    Forall (fun c => hasChar isLF c = false) commands ->
    match commands with
    | [] => Rejected (buildCommandScript commands)
    | _ => exists script,
             buildCommandScript commands = Ok script /\
             split LF script = commands
    end.
Proof.
  intros commands Hall. destruct commands as [|a rest].
  - apply Rejected_throw.
  - eexists. split; [reflexivity |]. apply split_join; [discriminate | exact Hall].
Qed.

(** The theorem at a script of three instructions. *)
Lemma buildCommandScript_round_trip_witness :
  exists script,
    buildCommandScript ["select disk 1"; "select partition 2"; "delete partition"]
    = Ok script /\
    split LF script = ["select disk 1"; "select partition 2"; "delete partition"].
Proof.
  apply (buildCommandScript_round_trip
           ["select disk 1"; "select partition 2"; "delete partition"]).
  repeat constructor.
Defined.

(** ** The composed scripts *)

Lemma select_disk_ok {fmt : NumberFormat} (x : number) (z : Z) :
  IsInt x z -> (0 <= z)%Z ->
  buildSelectDiskCommand x = Ok ("select disk " ++ numberToString x).
Proof.
  intros Hx Hz. unfold buildSelectDiskCommand.
  rewrite (IsInt_isInteger _ _ Hx), (IsInt_num_lt _ _ _ Hx). cbn [negb orb].
  replace (z <? 0)%Z with false by (symmetry; apply Z.ltb_ge; lia). reflexivity.
Qed.

Lemma select_partition_ok {fmt : NumberFormat} (x : number) (z : Z) :
  IsInt x z -> (1 <= z)%Z ->
  buildSelectPartitionCommand x = Ok ("select partition " ++ numberToString x).
Proof.
  intros Hx Hz. unfold buildSelectPartitionCommand.
  rewrite (IsInt_isInteger _ _ Hx), (IsInt_num_lt _ _ _ Hx). cbn [negb orb].
  replace (z <? 1)%Z with false by (symmetry; apply Z.ltb_ge; lia). reflexivity.
Qed.

(** X5: the two composed scripts select their target first.  With a valid
    disk number the detail script is the disk selection, "detail disk" and
    "list partition", one per line; with a valid partition number, an
    accepted file system and a label within the cap, the format script is
    the disk selection, the partition selection and the quick format, one
    per line.  With an invalid disk number both throw the error of the
    disk selection, whatever the other parameters are. *)
Theorem composed_scripts_select_first :
  forall (fmt : NumberFormat) (disk : number),
    (forall zd, IsInt disk zd -> (0 <= zd)%Z ->
       buildDetailDiskScript disk
       = Ok ("select disk " ++ numberToString disk ++ nl ++ "detail disk" ++ nl
             ++ "list partition") /\
       forall (partition : number) (zp : Z) (fileSystem label : string),
         IsInt partition zp -> (1 <= zp)%Z ->
         In (toUpperCase fileSystem) ["NTFS"; "FAT32"; "FAT"] ->
         String.length label <= labelCap fileSystem ->
         buildFormatPartitionScript disk partition fileSystem (Some label)
         = Ok ("select disk " ++ numberToString disk ++ nl
               ++ "select partition " ++ numberToString partition ++ nl
               ++ "format fs=" ++ toUpperCase fileSystem
               ++ (if String.eqb label "" then ""
                   else " label=" ++ dquote ++ label ++ dquote)
               ++ " quick")) /\
    (forall e, buildSelectDiskCommand disk = Throw e ->
       buildDetailDiskScript disk = Throw e /\
       forall partition fileSystem label,
         buildFormatPartitionScript disk partition fileSystem label = Throw e).
Proof.
  intros fmt disk. split.
  - intros zd Hd Hzd. split.
    + unfold buildDetailDiskScript. rewrite (select_disk_ok _ _ Hd Hzd).
      cbn [andThen buildCommandScript join]. rewrite !append_assoc. reflexivity.
    + intros partition zp fileSystem label Hp Hzp Hfs Hlen.
      unfold buildFormatPartitionScript.
      rewrite (select_disk_ok _ _ Hd Hzd), (select_partition_ok _ _ Hp Hzp),
        (format_within_cap _ _ None Hfs Hlen).
      cbn [andThen buildCommandScript join].
      rewrite !append_assoc. reflexivity.
  - intros e He. unfold buildDetailDiskScript, buildFormatPartitionScript.
    rewrite He. split; reflexivity.
Qed.

(** The theorem at disk 1, partition 2, and at disk -1. *)
Lemma composed_scripts_select_first_witness :
  buildDetailDiskScript (fmt := exampleFormat) (ofZ 1)
  = Ok (join nl ["select disk 1"; "detail disk"; "list partition"]) /\
  buildFormatPartitionScript (fmt := exampleFormat) (ofZ 1) (ofZ 2) "ntfs" (Some "Data")
  = Ok (join nl ["select disk 1"; "select partition 2";
                 "format fs=NTFS label=" ++ dquote ++ "Data" ++ dquote ++ " quick"]) /\
  Rejected (buildFormatPartitionScript (fmt := exampleFormat) (ofZ (-1)) (ofZ 2) "ntfs" None).
Proof.
  destruct (composed_scripts_select_first exampleFormat (ofZ 1)) as [Hok _].
  destruct (Hok 1%Z (Qeq_refl _) ltac:(lia)) as [Hdetail Hformat].
  destruct (composed_scripts_select_first exampleFormat (ofZ (-1))) as [_ Hbad].
  split; [| split].
  - rewrite Hdetail. reflexivity.
  - rewrite (Hformat (ofZ 2) 2%Z "ntfs" "Data" (Qeq_refl _) ltac:(lia)
                     ltac:(cbn; tauto) ltac:(vm_compute; lia)).
    reflexivity.
  - destruct (Hbad _ eq_refl) as [_ Hf]. rewrite Hf.
    eexists. split; [reflexivity | split; reflexivity].
Defined.

(** ** Sizes *)

Lemma keep_all_captures (cs : list (nat * string)) :
  filter (fun e => negb (existsb (Nat.eqb (fst e)) [])) cs = cs.
Proof. induction cs as [|e cs IH]; simpl; [reflexivity | f_equal; exact IH]. Qed.

(** A greedy quantifier over a character class takes the whole run of
    matching characters when the rest of the pattern then succeeds. *)
Lemma greedy_run (icase : bool) (p : ascii -> bool) :
  forall (taken rest_ : string) (pos0 pend fuel min : nat)
         (cs : list (nat * string)) (c : cont) (z : state),
    allChars (charMatches icase false p) taken = true ->
    match rest_ with
    | String ch _ => charMatches icase false p ch = false
    | EmptyString => True
    end ->
    min <= String.length taken ->
    String.length taken + String.length rest_ < fuel ->
    pend = String.length taken + pos0 ->
    c (mkState pend rest_ cs) = Some z ->
    repeatMatcher (matcher icase (Chr false p)) [] fuel min None true
                  (mkState pos0 (taken ++ rest_) cs) c = Some z.
Proof.
  induction taken as [|ch taken IH];
    intros rest_ pos0 pend fuel min cs c z Htaken Hrest Hmin Hfuel Hpend Hc.
  - destruct fuel as [|fuel]; [simpl in Hfuel; lia |].
    simpl in Hmin, Hpend. assert (min = 0) by lia. subst min pend.
    cbn [repeatMatcher Nat.eqb negb andb matcher clearCaptures rest pos caps
         String.append].
    destruct rest_ as [|ch' r]; [exact Hc |].
    unfold charMatches in *. cbn [xorb] in *. rewrite Hrest. exact Hc.
  - destruct fuel as [|fuel]; [simpl in Hfuel; lia |].
    simpl in Htaken. apply andb_true_iff in Htaken as [Hch Htaken].
    assert (Hnext :
              repeatMatcher (matcher icase (Chr false p)) [] fuel (Nat.pred min)
                            None true (mkState (S pos0) (taken ++ rest_) cs) c = Some z).
    { apply (IH rest_ (S pos0) pend); auto; simpl in *; lia. }
    cbn [repeatMatcher matcher clearCaptures rest pos caps String.append option_map].
    unfold charMatches in *. cbn [xorb] in *.
    rewrite Hch, keep_all_captures.
    replace (Nat.eqb (S pos0) pos0) with false by (symmetry; apply Nat.eqb_neq; lia).
    cbn [matcher] in Hnext. unfold charMatches in Hnext. cbn [xorb] in Hnext.
    rewrite andb_false_r, Hnext.
    destruct (negb (Nat.eqb min 0)); reflexivity.
Qed.

Lemma num_mul_integers (a b : Z) : num_mul (ofZ a) (ofZ b) = ofZ (a * b).
Proof.
  unfold num_mul, ofZ. f_equal.
  rewrite <- inject_Z_mult. apply Qred_inject_Z.
Qed.

Lemma substring_prefix (a b : string) : substring 0 (String.length a) (a ++ b) = a.
Proof.
  induction a as [|ch a IH]; simpl.
  - destruct b; reflexivity.
  - f_equal. exact IH.
Qed.

Lemma length_append (a b : string) :
  String.length (a ++ b) = String.length a + String.length b.
Proof. induction a as [|ch a IH]; simpl; [reflexivity | f_equal; exact IH]. Qed.

Lemma digit_class (ch : ascii) :
  isDigit ch = true -> charMatches true false isDigit ch = true.
Proof.
  destruct ch as [b0 b1 b2 b3 b4 b5 b6 b7].
  destruct b0, b1, b2, b3, b4, b5, b6, b7; vm_compute; intro H;
    first [reflexivity | discriminate H].
Qed.

Lemma space_class (ch : ascii) :
  isWhiteSpace ch = true ->
  charMatches true false isWhiteSpace ch = true /\
  charMatches true false isDigit ch = false.
Proof.
  destruct ch as [b0 b1 b2 b3 b4 b5 b6 b7].
  destruct b0, b1, b2, b3, b4, b5, b6, b7; vm_compute; intro H;
    first [discriminate H | split; reflexivity].
Qed.

Lemma allChars_impl (p q : ascii -> bool) (s : string) :
  (forall ch, p ch = true -> q ch = true) ->
  allChars p s = true -> allChars q s = true.
Proof.
  intro Hpq. induction s as [|ch s IH]; simpl; [reflexivity |].
  intro H. apply andb_true_iff in H as [Hc Hs].
  rewrite (Hpq _ Hc), (IH Hs). reflexivity.
Qed.

Lemma upperChar_letter (a : ascii) :
  (upperChar a = "B"%char -> a = "B"%char \/ a = "b"%char) /\
  (upperChar a = "K"%char -> a = "K"%char \/ a = "k"%char) /\
  (upperChar a = "M"%char -> a = "M"%char \/ a = "m"%char) /\
  (upperChar a = "G"%char -> a = "G"%char \/ a = "g"%char) /\
  (upperChar a = "T"%char -> a = "T"%char \/ a = "t"%char).
Proof.
  destruct a as [b0 b1 b2 b3 b4 b5 b6 b7].
  destruct b0, b1, b2, b3, b4, b5, b6, b7; vm_compute;
    repeat split; intro H; first [discriminate H | left; reflexivity | right; reflexivity].
Qed.

Ltac letter_of E :=
  symmetry in E;
  first [ apply (proj1 (upperChar_letter _)) in E
        | apply (proj1 (proj2 (upperChar_letter _))) in E
        | apply (proj1 (proj2 (proj2 (upperChar_letter _)))) in E
        | apply (proj1 (proj2 (proj2 (proj2 (upperChar_letter _))))) in E
        | apply (proj2 (proj2 (proj2 (proj2 (upperChar_letter _))))) in E ];
  destruct E; subst.

Lemma unit_cases (u : string) (k : Z) :
  unitMultiplier u = Some k -> In (u, k) unitTable.
Proof.
  unfold unitMultiplier, toUpperCase.
  destruct u as [|a [|b [|c u]]]; cbn [mapChars].
  - discriminate.
  - remember (upperChar a) as ua eqn:Ea. intro H.
    split_ascii ua; try discriminate H.
    letter_of Ea; inversion H; subst; simpl; tauto.
  - remember (upperChar a) as ua eqn:Ea. remember (upperChar b) as ub eqn:Eb.
    intro H.
    split_ascii ua; try discriminate H;
      split_ascii ub; try discriminate H;
      letter_of Ea; letter_of Eb; inversion H; subst; simpl; tauto.
  - remember (upperChar a) as ua eqn:Ea. remember (upperChar b) as ub eqn:Eb.
    intro H. exfalso.
    split_ascii ua; try discriminate H;
      split_ascii ub; discriminate H.
Qed.

Lemma succ_neq (n : nat) : Nat.eqb (S n) n = false.
Proof. apply Nat.eqb_neq. lia. Qed.

Lemma opt_class (icase : bool) (p : ascii -> bool) (n : nat) (s : string)
    (cs : list (nat * string)) (c : cont) :
  matcher icase (opt (Chr false p)) (mkState n s cs) c =
  match s with
  | String ch s' =>
      if charMatches icase false p ch
      then match c (mkState (S n) s' cs) with
           | Some z => Some z
           | None => c (mkState n s cs)
           end
      else c (mkState n s cs)
  | EmptyString => c (mkState n s cs)
  end.
Proof.
  unfold opt. rewrite matcher_Quant.
  cbn [repeatMatcher Nat.eqb negb andb clearCaptures rest pos caps groups
       option_map Nat.pred Nat.add String.length].
  unfold clearCaptures. cbn [rest pos caps]. rewrite keep_all_captures.
  destruct s as [|ch s']; cbn [matcher rest pos caps]; [reflexivity |].
  destruct (charMatches icase false p ch); [| reflexivity].
  rewrite succ_neq. cbn [String.length repeatMatcher]. reflexivity.
Qed.

Lemma class_step (icase : bool) (p : ascii -> bool) (n : nat) (ch : ascii)
    (s : string) (cs : list (nat * string)) (c : cont) :
  matcher icase (Chr false p) (mkState n (String ch s) cs) c =
  if charMatches icase false p ch then c (mkState (S n) s cs) else None.
Proof. reflexivity. Qed.

Ltac eval_classes :=
  repeat match goal with
         | |- context [charMatches ?i ?v ?p ?ch] =>
             let b := eval vm_compute in (charMatches i v p ch) in
             change (charMatches i v p ch) with b
         end.

(** The unit group on a unit: it takes the whole unit and records it. *)
Lemma unit_group (u : string) (k : Z) (n : nat) (cs : list (nat * string)) :
  In (u, k) unitTable ->
  matcher true (Group 2 (seqs [opt (oneOf "KMGT"); char "B"]))
          (mkState n u cs) Some
  = Some (mkState (String.length u + n) "" ((2, u) :: cs)).
Proof.
  intro H. simpl in H.
  repeat (destruct H as [H | H]; [inversion H; subst; clear H |]); try contradiction.
  all: cbn [seqs]; unfold oneOf, char.
  all: change (matcher true (Group 2 ?r) ?x ?c)
         with (matcher true r x
                 (fun y => c (setCapture 2 (substring 0 (pos y - pos x) (rest x)) y))).
  all: change (matcher true (Seq ?r1 ?r2) ?x ?c)
         with (matcher true r1 x (fun y => matcher true r2 y c)).
  all: rewrite opt_class; eval_classes; cbv iota.
  all: rewrite ?class_step; eval_classes; cbv iota.
  all: cbn [setCapture pos rest caps String.length Nat.add].
  all: assert (E1 : S n - n = 1) by lia; assert (E2 : S (S n) - n = 2) by lia.
  all: rewrite ?E2, ?E1; reflexivity.
Qed.

Lemma unit_head (u : string) (k : Z) :
  In (u, k) unitTable ->
  match u with
  | String ch _ => charMatches true false isWhiteSpace ch = false /\
                   charMatches true false isDigit ch = false
  | EmptyString => True
  end.
Proof.
  intro H. simpl in H.
  repeat (destruct H as [H | H]; [inversion H; subst; clear H |]); try contradiction.
  all: split; vm_compute; reflexivity.
Qed.

Lemma parseInt_digits (ds : string) :
  ds <> "" -> allChars isDigit ds = true -> parseInt ds = ofZ (digitsValue 0%Z ds).
Proof.
  destruct ds as [|ch ds]; [congruence |]. intros _ H. simpl in H.
  apply andb_true_iff in H as [Hch _].
  unfold parseInt. cbn [trimStart].
  assert (Hw : isWhiteSpace ch = false).
  { destruct (isWhiteSpace ch) eqn:E; [| reflexivity].
    destruct (space_class ch E) as [_ Hd]. rewrite (digit_class ch Hch) in Hd.
    discriminate. }
  rewrite Hw.
  assert (Hm : ch <> "-"%char) by (intro; subst; discriminate).
  assert (Hp : ch <> "+"%char) by (intro; subst; discriminate).
  split_ascii ch; try discriminate Hch; try congruence;
    cbn [startsWithDigit]; rewrite Hch; reflexivity.
Qed.

Lemma searchFrom_here (icase : bool) (r : regex) (p : nat) (s : string) (y : state) :
  matcher icase r (mkState p s []) Some = Some y ->
  searchFrom icase r p s = Some ((0, substring 0 (pos y - p) s) :: caps y).
Proof. intro H. destruct s; cbn [searchFrom]; rewrite H; reflexivity. Qed.

(** X6: [parseSize] on a well-formed size.  A non-empty run of decimal
    digits, any amount of white space (none included) and one of the units
    B, KB, MB, GB, TB in any casing give the number times the unit's power
    of 1024, as long as the product stays within the integers the runtime's
    numbers hold exactly. *)
Theorem parseSize_well_formed (ds w u : string) (k : Z) :
  ds <> "" ->
  allChars isDigit ds = true ->
  allChars isWhiteSpace w = true ->
  unitMultiplier u = Some k ->
  (digitsValue 0%Z ds * k <= 2 ^ 53)%Z ->
  parseSize (ds ++ w ++ u) = ofZ (digitsValue 0%Z ds * k).
Proof.
  intros Hne Hds Hw Hu _.
  pose proof (unit_cases u k Hu) as Hin.
  assert (Hmatch :
            matcher true sizeRe (mkState 0 (ds ++ w ++ u) []) Some
            = Some (mkState (String.length u + (String.length w + (String.length ds + 0)))
                            "" [(2, u); (1, ds)])).
  { unfold sizeRe. cbn [seqs].
    change (matcher true (Seq ?r1 ?r2) ?x ?c)
      with (matcher true r1 x (fun y => matcher true r2 y c)).
    change (matcher true (Group 1 ?r) ?x ?c)
      with (matcher true r x
              (fun y => c (setCapture 1 (substring 0 (pos y - pos x) (rest x)) y))).
    unfold plus, digit. rewrite matcher_Quant.
    apply (greedy_run true isDigit ds (w ++ u) 0 (String.length ds + 0)).
    - revert Hds. apply allChars_impl. exact digit_class.
    - destruct w as [|ch w']; cbn [String.append].
      + pose proof (unit_head u k Hin) as Hh. destruct u; [exact I | apply Hh].
      + simpl in Hw. apply andb_true_iff in Hw as [Hch _].
        apply (space_class ch Hch).
    - destruct ds; [congruence | simpl; lia].
    - cbn [rest]. rewrite !length_append. lia.
    - reflexivity.
    - cbn [setCapture pos rest caps]. rewrite Nat.add_0_r, Nat.sub_0_r, substring_prefix.
      change (matcher true (Seq ?r1 ?r2) ?x ?c)
        with (matcher true r1 x (fun y => matcher true r2 y c)).
      unfold star, ws. rewrite matcher_Quant.
      apply (greedy_run true isWhiteSpace w u (String.length ds)
                        (String.length w + String.length ds)).
      + revert Hw. apply allChars_impl. intros ch Hch. apply (space_class ch Hch).
      + pose proof (unit_head u k Hin) as Hh. destruct u; [exact I | apply Hh].
      + lia.
      + unfold setCapture. cbn [rest]. rewrite !length_append. lia.
      + reflexivity.
      + rewrite (unit_group u k _ _ Hin). reflexivity. }
  unfold parseSize, exec. rewrite (searchFrom_here _ _ _ _ _ Hmatch).
  cbn [caps capture Nat.eqb str].
  rewrite (parseInt_digits ds Hne Hds).
  fold (unitMultiplier u). rewrite Hu. apply num_mul_integers.
Qed.

Lemma parseSize_well_formed_witness :
  parseSize "238 GB" = ofZ 255550554112.
Proof.
  apply (parseSize_well_formed "238" " " "GB" 1073741824);
    first [discriminate | reflexivity].
Defined.

(** ** The executor: what a run does, step by step *)

(** X7: a run whose script file cannot be written.  The tool is not
    started and no deletion is attempted; the result carries the code
    COMMAND_EXECUTION_ERROR, and its details are the fixed text of
    [createTempScript], whatever the file system reported: a write refused
    with an access-denied text is not reported as ACCESS_DENIED. *)
Theorem executeDiskpartCommand_script_not_written :
  forall (fmt : NumberFormat) (T : Type) (w : World) (command : string)
         (timeout : option number) (probe : list event) (reason : string),
    run isRunningAsAdmin w = (Ok true, probe) ->
    writeFileOutcome w (scriptPathOf w) command = Throw reason ->
    run (executeDiskpartCommand (T := T) command timeout) w =
    (Ok (mkResult false "Failed to execute Diskpart command"
                  (Some "COMMAND_EXECUTION_ERROR")
                  (Some "Failed to create temporary script file") None),
     (probe ++ [Log "COMMAND" ("Executing: " ++ command);
                WriteFile (scriptPathOf w) command;
                Log "ERROR" "Command execution failed"])%list).
Proof.
  intros fmt T w command timeout probe reason Hprobe Hwrite.
  unfold scriptPathOf in *. unfold_exec. cbn in *.
  destruct (String.eqb (platform w) "win32"); cbn in *.
  - destruct (execOutcome w "net session") as [[so se]|e]; cbn in *;
      [| discriminate].
    inversion Hprobe; subst probe. rewrite Hwrite. cbn. reflexivity.
  - inversion Hprobe; subst probe. rewrite Hwrite. cbn. reflexivity.
Qed.

Lemma executeDiskpartCommand_script_not_written_witness :
  run (executeDiskpartCommand (fmt := exampleFormat) (T := unit) "clean" None)
      readOnlyTemp =
  (Ok (mkResult false "Failed to execute Diskpart command"
                (Some "COMMAND_EXECUTION_ERROR")
                (Some "Failed to create temporary script file") None),
   [Exec "net session" (ofZ 5000); Log "COMMAND" "Executing: clean";
    WriteFile "C:\Temp\diskpart_1700000000000_k3x9q.txt" "clean";
    Log "ERROR" "Command execution failed"]).
Proof.
  apply (executeDiskpartCommand_script_not_written
           exampleFormat unit readOnlyTemp "clean" None
           [Exec "net session" (ofZ 5000)] "EPERM: access is denied");
    reflexivity.
Defined.

(** The elevation probe has answered "elevated". *)
Ltac case_probe w H :=
  destruct (String.eqb (platform w) "win32"); cbn in H |- *;
  [ destruct (execOutcome w "net session") as [[? ?]|?]; cbn in H |- *;
    [| discriminate H] |].

(** Names for the script path and for the command line of a run. *)
Ltac name_path w path :=
  match goal with
  | |- context [writeFileOutcome w ?p _] => change p with (scriptPathOf w)
  end;
  remember (scriptPathOf w) as path eqn:Epath in *; clear Epath.

Ltac name_line w path line :=
  match goal with
  | |- context [execOutcome w ?c] => change c with (toolCommand path)
  end;
  remember (toolCommand path) as line eqn:Eline in *; clear Eline.

(** X8: a run in which the tool is started and its process is rejected.
    A killed process, or one ended by SIGTERM, is reported as
    COMMAND_TIMEOUT, also when its message speaks of a denied access;
    otherwise a message holding "access is denied" in any casing gives
    ACCESS_DENIED, and every other rejection COMMAND_EXECUTION_ERROR; the
    last two keep the message of the rejection as details.  No failing
    result of this kind holds data. *)
Theorem executeDiskpartCommand_tool_rejected :
  forall (fmt : NumberFormat) (T : Type) (w : World) (command : string)
         (timeout : option number) (probe : list event) (e : ExecException),
    run isRunningAsAdmin w = (Ok true, probe) ->
    writeFileOutcome w (scriptPathOf w) command = Ok tt ->
    execOutcome w (toolCommand (scriptPathOf w)) = Throw e ->
    exists cr : CommandResult T,
      fst (run (executeDiskpartCommand command timeout) w) = Ok cr /\
      success cr = false /\ data cr = None /\
      (timedOut e = true ->
       errorCode cr = Some "COMMAND_TIMEOUT" /\
       resultMessage cr
       = "Command timed out after " ++ numberToString (timeoutOf timeout) ++ "ms" /\
       resultDetails cr
       = Some ("Command exceeded timeout of " ++ numberToString (timeoutOf timeout)
               ++ "ms")) /\
      (timedOut e = false ->
       resultDetails cr = Some (execMessage e) /\
       (occursIn (execMessage e) "access is denied" = true ->
        errorCode cr = Some "ACCESS_DENIED" /\ resultMessage cr = "Access denied to disk or partition") /\
       (occursIn (execMessage e) "access is denied" = false ->
        errorCode cr = Some "COMMAND_EXECUTION_ERROR" /\
        resultMessage cr = "Failed to execute Diskpart command")).
Proof.
  intros fmt T w command timeout probe e Hprobe Hwrite Hexec.
  unfold timedOut, occursIn, timeoutOf. unfold_exec.
  cbn in Hprobe |- *. case_probe w Hprobe.
  all: name_path w path; rewrite Hwrite; cbn.
  all: name_line w path line; rewrite Hexec; cbn.
  all: destruct (existsSyncOutcome w path); cbn;
      [destruct (unlinkOutcome w path); cbn |];
      destruct (killed e); cbn;
      try (destruct (signal e) as [sig|]; cbn; [destruct (String.eqb sig "SIGTERM"); cbn |]);
      try (destruct (includes (toLowerCase (execMessage e)) "access is denied"); cbn);
      eexists; (split; [reflexivity |]); cbn; repeat split; intros; try discriminate;
      reflexivity.
Qed.

Lemma executeDiskpartCommand_tool_rejected_witness :
  exists cr : CommandResult unit,
    fst (run (executeDiskpartCommand (fmt := exampleFormat) "clean" (Some (ofZ 60000)))
             toolKilled) = Ok cr /\
    errorCode cr = Some "COMMAND_TIMEOUT" /\
    resultMessage cr = "Command timed out after 60000ms".
Proof.
  destruct (executeDiskpartCommand_tool_rejected
              exampleFormat unit toolKilled "clean" (Some (ofZ 60000))
              [Exec "net session" (ofZ 5000)]
              (mkExecException true (Some "SIGTERM") "Access is denied.")
              eq_refl eq_refl eq_refl)
    as (cr & Hrun & _ & _ & Hkilled & _).
  exists cr. destruct (Hkilled eq_refl) as (Hcode & Hmsg & _).
  split; [exact Hrun | split; [exact Hcode | exact Hmsg]].
Defined.

(** X9: whenever the script file is written, the tool is started exactly
    once, on that file and with the timeout in force, and the deletion of
    the file is attempted exactly once, after the tool has ended and
    before the outcome is logged, whether the tool succeeded or not. *)
Theorem executeDiskpartCommand_cleans_up :
  forall (fmt : NumberFormat) (T : Type) (w : World) (command : string)
         (timeout : option number) (probe : list event),
    run isRunningAsAdmin w = (Ok true, probe) ->
    writeFileOutcome w (scriptPathOf w) command = Ok tt ->
    exists (cr : CommandResult T) (level text : string),
      run (executeDiskpartCommand command timeout) w =
      (Ok cr,
       (probe ++ [Log "COMMAND" ("Executing: " ++ command);
                  WriteFile (scriptPathOf w) command;
                  Exec (toolCommand (scriptPathOf w)) (timeoutOf timeout)]
              ++ snd (run (deleteTempScript (scriptPathOf w)) w)
              ++ [Log level text])%list).
Proof.
  intros fmt T w command timeout probe Hprobe Hwrite.
  unfold timeoutOf. unfold_exec.
  cbn in Hprobe |- *. case_probe w Hprobe.
  all: inversion Hprobe; subst probe; clear Hprobe.
  all: name_path w path; rewrite Hwrite; cbn.
  all: name_line w path line.
  all: repeat case_outcome; do 3 eexists; reflexivity.
Qed.

Lemma executeDiskpartCommand_cleans_up_witness :
  exists (cr : CommandResult unit) (level text : string),
    run (executeDiskpartCommand (fmt := exampleFormat) "clean" None) toolKilled =
    (Ok cr,
     [Exec "net session" (ofZ 5000); Log "COMMAND" "Executing: clean";
      WriteFile "C:\Temp\diskpart_1700000000000_k3x9q.txt" "clean";
      Exec (toolCommand "C:\Temp\diskpart_1700000000000_k3x9q.txt") (ofZ 30000);
      ExistsSync "C:\Temp\diskpart_1700000000000_k3x9q.txt";
      Unlink "C:\Temp\diskpart_1700000000000_k3x9q.txt";
      Log level text]).
Proof.
  exact (executeDiskpartCommand_cleans_up
           exampleFormat unit toolKilled "clean" None
           [Exec "net session" (ofZ 5000)] eq_refl eq_refl).
Defined.

(** ** The error line of a failed command *)

Lemma lowerChar_class (c : ascii) :
  Ascii.eqb (lowerChar c) LF = Ascii.eqb c LF /\
  isWhiteSpace (lowerChar c) = isWhiteSpace c.
Proof. split_ascii c; vm_compute; split; reflexivity. Qed.

Lemma split_toLowerCase (s : string) :
  split LF (toLowerCase s) = map toLowerCase (split LF s).
Proof.
  unfold toLowerCase. induction s as [|c s IH]; [reflexivity |].
  cbn [mapChars split]. rewrite (proj1 (lowerChar_class c)), IH.
  destruct (Ascii.eqb c LF); [reflexivity |].
  destruct (split LF s); reflexivity.
Qed.

Lemma trimStart_toLowerCase (s : string) :
  trimStart (toLowerCase s) = toLowerCase (trimStart s).
Proof.
  unfold toLowerCase. induction s as [|c s IH]; [reflexivity |].
  cbn [mapChars trimStart]. rewrite (proj2 (lowerChar_class c)).
  destruct (isWhiteSpace c); [exact IH | reflexivity].
Qed.

Lemma trimEnd_toLowerCase (s : string) :
  trimEnd (toLowerCase s) = toLowerCase (trimEnd s).
Proof.
  unfold toLowerCase. induction s as [|c s IH]; [reflexivity |].
  cbn [mapChars trimEnd]. rewrite (proj2 (lowerChar_class c)), IH.
  destruct (trimEnd s); cbn [mapChars]; [| reflexivity].
  destruct (isWhiteSpace c); reflexivity.
Qed.

Lemma trim_toLowerCase (s : string) : trim (toLowerCase s) = toLowerCase (trim s).
Proof. unfold trim. rewrite trimStart_toLowerCase, trimEnd_toLowerCase. reflexivity. Qed.

(** The trimmed lines of the lower-cased text are the lower-cased trimmed
    lines of the text. *)
Lemma lines_toLowerCase (s : string) :
  map trim (split LF (toLowerCase s)) = map toLowerCase (map trim (split LF s)).
Proof.
  rewrite split_toLowerCase, !map_map. apply map_ext. exact trim_toLowerCase.
Qed.

(** A word without a line break and with clean ends occurs in the text,
    case-insensitively, exactly when it does in one of its trimmed lines. *)
Lemma occursIn_lines (m : string) :
  startsClean m = true -> endsClean m = true -> hasChar isLF m = false ->
  forall s,
    existsb (fun l => occursIn l m) (map trim (split LF s)) = occursIn s m.
Proof.
  intros Hs He Hl s. unfold occursIn.
  rewrite <- (existsb_trimmed_lines m Hs He Hl (toLowerCase s)), lines_toLowerCase.
  induction (map trim (split LF s)) as [|l ls IH]; [reflexivity |].
  cbn [map existsb]. rewrite IH. reflexivity.
Qed.

Lemma startsWith_suffix (a b : string) :
  forall s, startsWith s (a ++ b) = true -> includes s b = true.
Proof.
  induction a as [|c a IH]; intros s H.
  - destruct s; simpl in *; rewrite H; reflexivity.
  - destruct s as [|d s]; cbn [String.append startsWith] in H; [discriminate |].
    apply andb_true_iff in H as [_ H]. rewrite includes_cons, (IH s H).
    apply orb_true_r.
Qed.

Lemma includes_suffix (a b : string) :
  forall s, includes s (a ++ b) = true -> includes s b = true.
Proof.
  induction s as [|d s IH]; intro H.
  - simpl in H. rewrite orb_false_r in H. exact (startsWith_suffix a b _ H).
  - rewrite includes_cons in H. apply orb_true_iff in H as [H | H].
    + exact (startsWith_suffix a b _ H).
    + rewrite includes_cons, (IH H). apply orb_true_r.
Qed.

(** The line predicate of [extractErrorFromOutput]. *)
Lemma error_line (line : string) :
  (let lowerLine := toLowerCase line in
   includes lowerLine "error" || includes lowerLine "failed"
   || includes lowerLine "denied" || includes lowerLine "cannot"
   || includes lowerLine "invalid" || includes lowerLine "not found")
  = existsb (occursIn line) errorWords.
Proof. unfold errorWords, occursIn. cbn [existsb]. rewrite orb_false_r, !orb_assoc. reflexivity. Qed.

Lemma errorWords_in_lines (s : string) :
  existsb (fun l => existsb (occursIn l) errorWords) (map trim (split LF s))
  = existsb (occursIn s) errorWords.
Proof.
  transitivity
    (existsb (fun m => existsb (fun l => occursIn l m) (map trim (split LF s)))
             errorWords).
  - unfold errorWords. induction (map trim (split LF s)) as [|l ls IH].
    + reflexivity.
    + cbn [existsb] in *. rewrite IH.
      rewrite !orb_false_r.
      destruct (occursIn l "error"), (occursIn l "failed"), (occursIn l "denied"),
        (occursIn l "cannot"), (occursIn l "invalid"), (occursIn l "not found");
        cbn [orb]; rewrite ?orb_true_r; reflexivity.
  - unfold errorWords. cbn [existsb].
    rewrite !occursIn_lines by reflexivity. reflexivity.
Qed.

Lemma negative_marker_word (s : string) :
  hasNegativeMarker s = true -> existsb (occursIn s) errorWords = true.
Proof.
  unfold hasNegativeMarker, negativeMarkers, errorWords. cbn [existsb].
  rewrite !orb_false_r. intro H.
  destruct (occursIn s "error"); [reflexivity |].
  destruct (occursIn s "failed"); [reflexivity |].
  destruct (occursIn s "cannot"); [rewrite ?orb_true_r; reflexivity |].
  destruct (occursIn s "invalid"); [rewrite ?orb_true_r; reflexivity |].
  destruct (occursIn s "not found"); [rewrite ?orb_true_r; reflexivity |].
  cbn [orb] in *. rewrite orb_false_r in H.
  unfold occursIn in *.
  rewrite (includes_suffix "access is " "denied" _ H). reflexivity.
Qed.

(** What the line search of [extractErrorFromOutput] finds in a list of
    lines. *)
Lemma find_error_line (ls : list string) :
  match find (fun line =>
                let lowerLine := toLowerCase line in
                includes lowerLine "error" || includes lowerLine "failed"
                || includes lowerLine "denied" || includes lowerLine "cannot"
                || includes lowerLine "invalid" || includes lowerLine "not found") ls with
  | Some line =>
      exists before after,
        ls = (before ++ line :: after)%list /\
        existsb (occursIn line) errorWords = true /\
        Forall (fun l => existsb (occursIn l) errorWords = false) before
  | None => existsb (fun l => existsb (occursIn l) errorWords) ls = false
  end.
Proof.
  induction ls as [|l ls IH]; [reflexivity |].
  cbn [find existsb]. rewrite error_line.
  destruct (existsb (occursIn l) errorWords) eqn:El.
  - exists [], ls. repeat split; [exact El | constructor].
  - cbn [orb]. destruct (find _ ls) as [line|].
    + destruct IH as (before & after & Hls & Hline & Hbefore).
      exists (l :: before), after. subst ls. repeat split; [exact Hline |].
      constructor; assumption.
    + exact IH.
Qed.

(** X10: [extractErrorFromOutput] returns the first trimmed line of the
    output that holds one of the words error, failed, denied, cannot,
    invalid, not found in any casing, and nothing exactly when no such
    word occurs in the output.  Every output with a negative marker of the
    classifier has such a line. *)
Theorem extractErrorFromOutput_first_error_line :
  forall output : string,
    match extractErrorFromOutput output with
    | Some line =>
        exists before after,
          map trim (split LF output) = (before ++ line :: after)%list /\
          existsb (occursIn line) errorWords = true /\
          Forall (fun l => existsb (occursIn l) errorWords = false) before
    | None =>
        existsb (occursIn output) errorWords = false /\
        hasNegativeMarker output = false
    end.
Proof.
  intro output. unfold extractErrorFromOutput.
  pose proof (find_error_line (map trim (split LF output))) as Hfind.
  destruct (find _ (map trim (split LF output))) as [line|]; [exact Hfind |].
  rewrite errorWords_in_lines in Hfind. split; [exact Hfind |].
  destruct (hasNegativeMarker output) eqn:Hm; [| reflexivity].
  rewrite (negative_marker_word _ Hm) in Hfind. discriminate.
Qed.

(** Why the classifier fails an output: a negative marker, or nothing but
    white space. *)
Lemma failure_cause (output : string) :
  isCommandSuccessful output = false ->
  hasNegativeMarker output = true \/ trim output = "".
Proof.
  unfold isCommandSuccessful, hasNegativeMarker, negativeMarkers, occursIn.
  cbn [existsb].
  destruct (includes (toLowerCase output) "diskpart successfully"); [discriminate |].
  destruct (includes (toLowerCase output) "completed successfully"); [discriminate |].
  destruct (includes (toLowerCase output) "error"); [left; reflexivity |].
  destruct (includes (toLowerCase output) "failed"); [left; reflexivity |].
  destruct (includes (toLowerCase output) "access is denied"); [left; reflexivity |].
  destruct (includes (toLowerCase output) "cannot"); [left; reflexivity |].
  destruct (includes (toLowerCase output) "invalid"); [left; reflexivity |].
  destruct (includes (toLowerCase output) "not found"); [left; reflexivity |].
  destruct (_ || _); [discriminate |].
  destruct (trim output); [right; reflexivity | discriminate].
Qed.

Lemma blank_no_word (output m : string) :
  startsClean m = true -> endsClean m = true ->
  trim output = "" -> occursIn output m = false.
Proof.
  intros Hs He Hblank. unfold occursIn.
  rewrite <- (includes_trim m Hs He), trim_toLowerCase, Hblank.
  destruct m; [discriminate Hs | reflexivity].
Qed.

Lemma blank_no_error_word (output : string) :
  trim output = "" -> existsb (occursIn output) errorWords = false.
Proof.
  intro H. unfold errorWords. cbn [existsb].
  rewrite (blank_no_word output "error"), (blank_no_word output "failed"),
    (blank_no_word output "denied"), (blank_no_word output "cannot"),
    (blank_no_word output "invalid"), (blank_no_word output "not found");
    solve [reflexivity | exact H].
Qed.

(** The message of a COMMAND_FAILED result. *)
Lemma command_failed_message (output : string) :
  isCommandSuccessful output = false ->
  (trim output = "" ->
   orElse (extractErrorFromOutput output) "Command failed" = "Command failed") /\
  (trim output <> "" ->
   In (orElse (extractErrorFromOutput output) "Command failed")
      (map trim (split LF output)) /\
   existsb (occursIn (orElse (extractErrorFromOutput output) "Command failed"))
           errorWords = true).
Proof.
  intro Hfail. unfold extractErrorFromOutput.
  pose proof (find_error_line (map trim (split LF output))) as Hfind.
  destruct (find _ (map trim (split LF output))) as [line|].
  - destruct Hfind as (before & after & Hls & Hline & Hbefore).
    assert (Hne : orElse (Some line) "Command failed" = line).
    { destruct line; [discriminate Hline | reflexivity]. }
    rewrite Hne. split.
    + intro Hblank. exfalso.
      pose proof (errorWords_in_lines output) as Hl.
      rewrite (blank_no_error_word _ Hblank), Hls, existsb_app in Hl.
      cbn [existsb] in Hl. rewrite Hline, orb_true_r in Hl. discriminate.
    + intros _. split; [| exact Hline].
      rewrite Hls. apply in_or_app. right. left. reflexivity.
  - split; [reflexivity |]. intro Hnb. exfalso.
    destruct (failure_cause output Hfail) as [Hm | Hb]; [| exact (Hnb Hb)].
    rewrite errorWords_in_lines, (negative_marker_word _ Hm) in Hfind. discriminate.
Qed.

(** X11: a run in which the tool exits normally with an output the
    classifier fails.  The result carries the code COMMAND_FAILED, the
    output as details and both streams as data.  Its message is the first
    trimmed output line holding an error word; the fallback text "Command
    failed" is used exactly for an output of white space only. *)
Theorem executeDiskpartCommand_command_failed :
  forall (fmt : NumberFormat) (T : Type) (w : World) (command : string)
         (timeout : option number) (probe : list event) (stdout stderr : string),
    run isRunningAsAdmin w = (Ok true, probe) ->
    writeFileOutcome w (scriptPathOf w) command = Ok tt ->
    execOutcome w (toolCommand (scriptPathOf w)) = Ok (stdout, stderr) ->
    isCommandSuccessful (orStr stdout stderr) = false ->
    exists cr : CommandResult T,
      fst (run (executeDiskpartCommand command timeout) w) = Ok cr /\
      success cr = false /\
      errorCode cr = Some "COMMAND_FAILED" /\
      resultDetails cr = Some (orStr stdout stderr) /\
      data cr = Some (Streams stdout stderr) /\
      (trim (orStr stdout stderr) = "" -> resultMessage cr = "Command failed") /\
      (trim (orStr stdout stderr) <> "" ->
       In (resultMessage cr) (map trim (split LF (orStr stdout stderr))) /\
       existsb (occursIn (resultMessage cr)) errorWords = true).
Proof.
  intros fmt T w command timeout probe stdout stderr Hprobe Hwrite Hexec Hfail.
  pose proof (command_failed_message _ Hfail) as Hmsg.
  unfold_exec. cbn in Hprobe |- *. case_probe w Hprobe.
  all: name_path w path; rewrite Hwrite; cbn.
  all: name_line w path line; rewrite Hexec; cbn.
  all: rewrite orStr_empty_r, Hfail.
  all: destruct (existsSyncOutcome w path); cbn;
    [destruct (unlinkOutcome w path); cbn |].
  all: eexists; (split; [reflexivity |]); cbn; repeat split; apply Hmsg; assumption.
Qed.

Lemma executeDiskpartCommand_command_failed_witness :
  exists cr : CommandResult unit,
    fst (run (executeDiskpartCommand (fmt := exampleFormat) "clean" None)
             toolRefuses) = Ok cr /\
    errorCode cr = Some "COMMAND_FAILED" /\
    resultMessage cr = "Virtual Disk Service error:".
Proof.
  destruct (executeDiskpartCommand_command_failed
              exampleFormat unit toolRefuses "clean" None
              [Exec "net session" (ofZ 5000)]
              ("Microsoft DiskPart version 10.0" ++ nl ++ nl
               ++ "  Virtual Disk Service error:" ++ nl
               ++ "  The media is write protected.") ""
              eq_refl eq_refl eq_refl eq_refl)
    as (cr & Hrun & _ & Hcode & _).
  exists cr. split; [exact Hrun | split; [exact Hcode |]].
  vm_compute in Hrun. inversion Hrun. reflexivity.
Defined.

(** X12: when the executor succeeds and the parser returns, the parser has
    been applied once, to the output the classifier passed, and
    [executeAndParse] returns a successful result that holds the parsed
    value; nothing is logged after the executor's own entries. *)
Theorem executeAndParse_success_path :
  forall (fmt : NumberFormat) (T : Type) (w : World) (command : string)
         (parser : string -> result exn T) (timeout : option number)
         (cr : CommandResult T) (tr : list event),
    run (executeDiskpartCommand command timeout) w = (Ok cr, tr) ->
    success cr = true ->
    exists stdout stderr,
      data cr = Some (Output (orStr stdout stderr) stdout stderr) /\
      forall v,
        parser (orStr stdout stderr) = Ok v ->
        run (executeAndParse command parser timeout) w =
        (Ok (mkResult true "Command executed and parsed successfully" None None
                      (Some (Parsed v))),
         (tr ++ [CallParser (orStr stdout stderr)])%list).
Proof.
  intros fmt T w command parser timeout cr tr Hrun Hok.
  destruct (executeDiskpartCommand_result_shape _ _ _ _ _ _ _ Hrun) as [Hdata _].
  destruct (Hdata Hok) as (stdout & stderr & Hd & Hsuccess).
  exists stdout, stderr. split; [exact Hd |]. intros v Hv.
  assert (Hbind : forall k : CommandResult T -> M (CommandResult T),
             run (bind (executeDiskpartCommand command timeout) k) w = k cr w tr).
  { intro k. unfold run, bind in *. rewrite Hrun. reflexivity. }
  unfold executeAndParse. rewrite Hbind, Hok, Hd. cbn [negb dataOutput dataStdout].
  assert (Hout : orElse (Some (orStr stdout stderr)) (orElse (Some stdout) "")
                 = orStr stdout stderr).
  { destruct (orStr stdout stderr) eqn:E; [| reflexivity].
    vm_compute in Hsuccess. discriminate. }
  rewrite Hout.
  unfold tryCatch, callParser, bind, emit, ret, throw.
  rewrite Hv. reflexivity.
Qed.

Lemma executeAndParse_success_path_witness :
  fst (run (executeAndParse (fmt := exampleFormat) "list disk"
                            (asParser parseListDisk) None)
           (toolPrints diskTable))
  = Ok (mkResult true "Command executed and parsed successfully" None None
                 (Some (Parsed [mkDisk (ofZ 0) DiskInfo.Online (ofZ 255550554112)
                                       (ofZ 0) false false DiskInfo.Dynamic
                                       DiskInfo.MBR []]))).
Proof.
  destruct (run (executeDiskpartCommand (fmt := exampleFormat)
                                        (T := list DiskInfo) "list disk" None)
                (toolPrints diskTable)) as [r tr] eqn:E.
  vm_compute in E. inversion E; subst r tr; clear E.
  destruct (executeAndParse_success_path
              exampleFormat (list DiskInfo) (toolPrints diskTable) "list disk"
              (asParser parseListDisk) None _ _ eq_refl eq_refl)
    as (stdout & stderr & Hd & Hparse).
  inversion Hd; subst stdout stderr; clear Hd.
  rewrite (Hparse _ eq_refl). reflexivity.
Defined.

(** X13: neither availability probe throws.  Each runs [where diskpart]
    once, with a timeout of five seconds; the tool counts as available
    exactly when that query exits normally and prints something other than
    white space, and the version text is then "Available" and otherwise
    "Not Found": the text "Unknown" is never returned. *)
Theorem getDiskpartVersion_answers :
  forall w : World,
    let found :=
      match execOutcome w "where diskpart" with
      | Ok (stdout, _) => Nat.ltb 0 (String.length (trim stdout))
      | Throw _ => false
      end in
    run validateDiskpartAvailable w = (Ok found, [Exec "where diskpart" (ofZ 5000)]) /\
    run getDiskpartVersion w
    = (Ok (if found then "Available" else "Not Found"),
       [Exec "where diskpart" (ofZ 5000)]).
Proof.
  intro w. unfold getDiskpartVersion, validateDiskpartAvailable. unfold_exec. cbn.
  destruct (execOutcome w "where diskpart") as [[so se]|e]; cbn.
  - split; reflexivity.
  - split; reflexivity.
Qed.

(** X14: the elevation probe never throws.  Off Windows it answers
    "elevated" without starting anything; on Windows it runs [net session]
    once, with a timeout of five seconds, and answers whether that query
    exited normally.  [requireAdmin] asks the probe and throws a
    PrivilegeError exactly when it answers "not elevated";
    [getPrivilegeStatus] and the check-admin handler never throw. *)
Theorem isRunningAsAdmin_answers :
  forall w : World,
    let onWindows := String.eqb (platform w) "win32" in
    let elevated :=
      negb onWindows
      || match execOutcome w "net session" with
         | Ok _ => true
         | Throw _ => false
         end in
    let probe := if onWindows then [Exec "net session" (ofZ 5000)] else [] in
    run isRunningAsAdmin w = (Ok elevated, probe) /\
    run requireAdmin w
    = (if elevated then Ok tt
       else Throw (DiskpartExn
                     (mkError "PrivilegeError" "Administrator privileges required"
                              "PRIVILEGE_ERROR"
                              (Some "Please restart the application as administrator to perform this operation."))),
       probe) /\
    run getPrivilegeStatus w
    = (Ok (if elevated then "Running with administrator privileges"
           else "Not running with administrator privileges. Some operations may fail."),
       probe) /\
    run Main.checkAdmin w
    = (Ok elevated,
       (probe ++ [Log "INFO" ("Admin check: " ++ if elevated then "true" else "false")])%list).
Proof.
  intro w. unfold requireAdmin, getPrivilegeStatus, Main.checkAdmin, Main.logInfo.
  unfold_exec. cbn.
  destruct (String.eqb (platform w) "win32"); cbn.
  - destruct (execOutcome w "net session") as [[so se]|e]; cbn;
      repeat split; reflexivity.
  - repeat split; reflexivity.
Qed.

(** X15: in every run the executor starts nothing but the elevation query
    and the tool, the tool on its own script file and with the timeout in
    force; it writes the command, unchanged, to that file and to no other,
    and probes and deletes no other file. *)
Theorem executeDiskpartCommand_events :
  forall (fmt : NumberFormat) (T : Type) (w : World)
         (command : string) (timeout : option number),
    Forall (executorEvent w command (timeoutOf timeout))
           (snd (run (executeDiskpartCommand (T := T) command timeout) w)).
Proof.
  intros fmt T w command timeout. unfold timeoutOf. unfold_exec. cbn.
  repeat case_outcome;
    repeat (constructor; [cbn; first [exact I | reflexivity | split; reflexivity
                                     | left; split; reflexivity
                                     | right; split; reflexivity] |]);
    constructor.
Qed.

(** ** The request handlers *)

(** A test on closed text is evaluated. *)
Ltac closed_test :=
  match goal with
  | |- context [if ?c then _ else _] =>
      let b := eval vm_compute in c in
      match b with
      | true => change c with true
      | false => change c with false
      end
  end; cbn.

(** The executor from any point of a run: it returns, its events are its
    own, and a failing result carries one of its codes. *)
Lemma executeDiskpartCommand_from :
  forall (fmt : NumberFormat) (T : Type) (w : World)
         (command : string) (timeout : option number) (tr0 : list event),
    exists (cr : CommandResult T) (tr : list event),
      executeDiskpartCommand command timeout w tr0 = (Ok cr, (tr0 ++ tr)%list) /\
      Forall (executorEvent w command (timeoutOf timeout)) tr /\
      (success cr = false -> exists c, errorCode cr = Some c /\ In c executorCodes).
Proof.
  intros fmt T w command timeout tr0. unfold timeoutOf. unfold_exec. cbn.
  repeat case_outcome; repeat closed_test;
    rewrite <- ?app_assoc; do 2 eexists;
    (split; [reflexivity |]); cbn;
    (split;
     [ repeat (constructor;
               [cbn; first [exact I | reflexivity | split; reflexivity
                           | left; split; reflexivity
                           | right; split; reflexivity] |]);
       constructor
     | intro H; try discriminate H; eexists; (split; [reflexivity |]); cbn; tauto ]).
Qed.

Lemma executorEvent_handlerEvent (w : World) (command : string) (timeout : number)
    (e : event) :
  executorEvent w command timeout e -> handlerEvent w command timeout e.
Proof. destruct e; cbn; tauto. Qed.

(** [executeAndParse] from any point of a run. *)
Lemma executeAndParse_from :
  forall (fmt : NumberFormat) (T : Type) (w : World) (command : string)
         (parser : string -> result exn T) (timeout : option number)
         (tr0 : list event),
    exists (cr : CommandResult T) (tr : list event),
      executeAndParse command parser timeout w tr0 = (Ok cr, (tr0 ++ tr)%list) /\
      Forall (handlerEvent w command (timeoutOf timeout)) tr /\
      (success cr = false -> exists c, errorCode cr = Some c /\ In c responseCodes).
Proof.
  intros fmt T w command parser timeout tr0.
  destruct (executeDiskpartCommand_from fmt T w command timeout tr0)
    as (cr & tr & Hrun & Hev & Hcode).
  pose proof (Forall_impl _ (executorEvent_handlerEvent w command (timeoutOf timeout)) Hev)
    as Hev'.
  unfold executeAndParse, bind. rewrite Hrun.
  destruct (success cr) eqn:Hs; cbn [negb].
  - unfold tryCatch, callParser, bind, emit, logError, ret, throw.
    destruct (parser _) as [v|e]; unfold emit; rewrite <- ?app_assoc; do 2 eexists;
      (split; [reflexivity |]); cbn [success errorCode];
      (split; [apply Forall_app; split; [exact Hev' | repeat constructor] |]).
    + discriminate.
    + intros _. eexists. split; [reflexivity |]. cbn. tauto.
  - exists cr, tr. split; [reflexivity |]. split; [exact Hev' |].
    intros _. destruct (Hcode eq_refl) as (c & Hc & Hin).
    exists c. split; [exact Hc |]. unfold responseCodes. apply in_or_app. left. exact Hin.
Qed.

Section HandlerShape.
Context {fmt : NumberFormat} {stack : Main.StackTrace}.
Variables (T U : Type) (w : World).
Variable exec : string -> M (CommandResult T).
Variable pass : CommandResult T -> IPCResponse.t U.
Variable allowed : string -> event -> Prop.

Hypothesis allowed_log : forall script level text, allowed script (Log level text).
Hypothesis exec_from :
  forall (script : string) (tr0 : list event),
    exists (cr : CommandResult T) (tr : list event),
      exec script w tr0 = (Ok cr, (tr0 ++ tr)%list) /\
      Forall (allowed script) tr /\
      (success cr = false -> exists c, errorCode cr = Some c /\ In c responseCodes).
Hypothesis pass_shape :
  forall cr : CommandResult T,
    pass cr = (if negb (success cr) then Main.failed cr
               else IPCResponse.mk true (IPCResponse.data (pass cr)) None) /\
    (success cr = true -> IPCResponse.data (pass cr) <> None).

(** A handler: log, build the script, run it, wrap the result; whatever
    is thrown on the way becomes an EXCEPTION response. *)
Lemma handler_run (info failure fallback : string) (r : result DiskpartError string) :
  exists (resp : IPCResponse.t U) (tr : list event),
    run (tryCatch
           (Main.logInfo info ;;;
            script <- Main.build r ;;
            result <- exec script ;;
            ret (pass result))
           (fun error => logError failure ;;; ret (Main.caught error fallback))) w
    = (Ok resp, tr) /\
    WellFormed resp /\
    match r with
    | Ok script => Forall (allowed script) tr
    | Throw e =>
        resp = rejection (orStr (message e) fallback) (DiskpartExn e) /\
        tr = [Log "INFO" info; Log "ERROR" failure]
    end.
Proof.
  unfold run, tryCatch, bind, Main.logInfo, logError, emit, ret, Main.build.
  destruct r as [script|e]; cbn [app].
  - destruct (exec_from script [Log "INFO" info]) as (cr & tr & Hrun & Hev & Hcode).
    unfold ret. rewrite Hrun. do 2 eexists. split; [reflexivity |].
    split.
    + destruct (pass_shape cr) as [Hpass Hdata]. rewrite Hpass.
      destruct (success cr) eqn:Hs; cbn [negb].
      * unfold WellFormed. cbn.
        destruct (IPCResponse.data (pass cr)); [exact I | exact (Hdata eq_refl eq_refl)].
      * destruct (Hcode eq_refl) as (c & Hc & Hin).
        unfold WellFormed, Main.failed. cbn. rewrite Hc.
        assert (Hcode' : orElse (Some c) "UNKNOWN_ERROR" = c).
        { destruct c; [| reflexivity]. cbn in Hin. intuition discriminate. }
        rewrite Hcode'. exact Hin.
    + constructor; [apply allowed_log | exact Hev].
  - unfold throw. do 2 eexists. split; [reflexivity |].
    split; [| split; reflexivity].
    unfold WellFormed, Main.caught, responseCodes. cbn. tauto.
Qed.

End HandlerShape.

Section HandlerRuns.
Context {fmt : NumberFormat} {stack : Main.StackTrace}.
Variable w : World.

Lemma passMessage_shape {T U} (text : string) (cr : CommandResult T) :
  Main.passMessage (U := U) text cr
  = (if negb (success cr) then Main.failed cr
     else IPCResponse.mk true (IPCResponse.data (Main.passMessage (U := U) text cr)) None)
  /\ (success cr = true -> IPCResponse.data (Main.passMessage (U := U) text cr) <> None).
Proof.
  unfold Main.passMessage. destruct (success cr); cbn; split; try reflexivity;
    intros; discriminate.
Qed.

Lemma passData_shape {T} (cr : CommandResult T) :
  Main.passData cr
  = (if negb (success cr) then Main.failed cr
     else IPCResponse.mk true (IPCResponse.data (Main.passData cr)) None)
  /\ (success cr = true -> IPCResponse.data (Main.passData cr) <> None).
Proof.
  unfold Main.passData. destruct (success cr); cbn; split; try reflexivity;
    intros; discriminate.
Qed.

(** A handler that runs its script through the executor. *)
Lemma executor_handler {T U} (timeout : option number) (text info failure fallback : string)
    (r : result DiskpartError string) :
  exists (resp : IPCResponse.t U) (tr : list event),
    run (tryCatch
           (Main.logInfo info ;;;
            script <- Main.build r ;;
            result <- executeDiskpartCommand (T := T) script timeout ;;
            ret (Main.passMessage text result))
           (fun error => logError failure ;;; ret (Main.caught error fallback))) w
    = (Ok resp, tr) /\
    WellFormed resp /\
    match r with
    | Ok script => Forall (executorEvent w script (timeoutOf timeout)) tr
    | Throw e =>
        resp = rejection (orStr (message e) fallback) (DiskpartExn e) /\
        tr = [Log "INFO" info; Log "ERROR" failure]
    end.
Proof.
  apply (handler_run T U w
           (fun script => executeDiskpartCommand (T := T) script timeout)
           (Main.passMessage text)
           (fun script => executorEvent w script (timeoutOf timeout))).
  - intros. exact I.
  - intros script tr0.
    destruct (executeDiskpartCommand_from fmt T w script timeout tr0)
      as (cr & tr & Hrun & Hev & Hcode).
    exists cr, tr. split; [exact Hrun | split; [exact Hev |]].
    intro Hs. destruct (Hcode Hs) as (c & Hc & Hin). exists c. split; [exact Hc |].
    unfold responseCodes. apply in_or_app. left. exact Hin.
  - intro cr. apply passMessage_shape.
Qed.

(** A handler that runs its script and parses the output. *)
Lemma parsing_handler {T} (parser : string -> result exn T)
    (info failure fallback : string) (r : result DiskpartError string) :
  exists (resp : IPCResponse.t T) (tr : list event),
    run (tryCatch
           (Main.logInfo info ;;;
            script <- Main.build r ;;
            result <- executeAndParse script parser None ;;
            ret (Main.passData result))
           (fun error => logError failure ;;; ret (Main.caught error fallback))) w
    = (Ok resp, tr) /\
    WellFormed resp /\
    match r with
    | Ok script => Forall (handlerEvent w script DEFAULT_TIMEOUT) tr
    | Throw e =>
        resp = rejection (orStr (message e) fallback) (DiskpartExn e) /\
        tr = [Log "INFO" info; Log "ERROR" failure]
    end.
Proof.
  apply (handler_run T T w
           (fun script => executeAndParse script parser None)
           Main.passData
           (fun script => handlerEvent w script DEFAULT_TIMEOUT)).
  - intros. exact I.
  - intros script tr0. apply (executeAndParse_from fmt T w script parser None tr0).
  - intro cr. apply passData_shape.
Qed.

End HandlerRuns.

Section Scripts.
Context {fmt : NumberFormat}.

Lemma disk_script (diskId : number) (rest_ : list string) :
  forall script,
    andThen (buildSelectDiskCommand diskId)
            (fun selectDisk => buildCommandScript (selectDisk :: rest_)) = Ok script ->
    script = join nl (("select disk " ++ numberToString diskId) :: rest_).
Proof.
  intro script. unfold buildSelectDiskCommand.
  destruct (negb (isInteger diskId) || num_lt diskId (ofZ 0)); cbn [andThen];
    [discriminate |].
  unfold buildCommandScript. intro H. inversion H. reflexivity.
Qed.

Lemma partition_script (diskId partitionId : number)
    (r : result DiskpartError string) :
  forall script,
    andThen (buildSelectDiskCommand diskId) (fun selectDisk =>
    andThen (buildSelectPartitionCommand partitionId) (fun selectPartition =>
    andThen r (fun instruction =>
    buildCommandScript [selectDisk; selectPartition; instruction]))) = Ok script ->
    script = partitionScript diskId partitionId (built r).
Proof.
  intro script. unfold buildSelectDiskCommand, buildSelectPartitionCommand.
  destruct (negb (isInteger diskId) || num_lt diskId (ofZ 0)); cbn [andThen];
    [discriminate |].
  destruct (negb (isInteger partitionId) || num_lt partitionId (ofZ 1)); cbn [andThen];
    [discriminate |].
  destruct r as [instruction|e]; cbn [andThen built]; [| discriminate].
  unfold buildCommandScript. intro H. inversion H. reflexivity.
Qed.

Lemma disk_script_then (diskId : number) (r : result DiskpartError string) :
  forall script,
    andThen (buildSelectDiskCommand diskId) (fun selectDisk =>
    andThen r (fun instruction =>
    buildCommandScript [selectDisk; instruction])) = Ok script ->
    script = diskScript diskId (built r).
Proof.
  intro script. unfold buildSelectDiskCommand.
  destruct (negb (isInteger diskId) || num_lt diskId (ofZ 0)); cbn [andThen];
    [discriminate |].
  destruct r as [instruction|e]; cbn [andThen built]; [| discriminate].
  unfold buildCommandScript. intro H. inversion H. reflexivity.
Qed.

Lemma select_script (diskId : number) :
  forall script,
    buildSelectDiskCommand diskId = Ok script ->
    script = "select disk " ++ numberToString diskId.
Proof.
  intro script. unfold buildSelectDiskCommand.
  destruct (negb (isInteger diskId) || num_lt diskId (ofZ 0)); [discriminate |].
  intro H. inversion H. reflexivity.
Qed.

Lemma fixed_script (command : string) :
  forall script, Ok (E := DiskpartError) command = Ok script -> script = command.
Proof. intros script H. inversion H. reflexivity. Qed.

Lemma select_disk_rejected (diskId : number) :
  isInteger diskId = false \/ num_lt diskId (ofZ 0) = true ->
  buildSelectDiskCommand diskId
  = Throw (InvalidCommandError ("Invalid disk number: " ++ numberToString diskId) None).
Proof.
  intro H. unfold buildSelectDiskCommand.
  destruct H as [H | H]; rewrite H; cbn [negb orb]; [reflexivity |].
  rewrite orb_true_r. reflexivity.
Qed.

End Scripts.

(** The events of a handler, from the events of its shape. *)
Ltac confined H script_lemma :=
  let resp := fresh "resp" in
  let tr := fresh "tr" in
  let Hrun := fresh "Hrun" in
  let Hev := fresh "Hev" in
  destruct H as (resp & tr & Hrun & _ & Hev);
  match goal with
  | |- Forall _ (snd (run ?h ?w)) =>
      change (run h w = (Ok resp, tr)) in Hrun; rewrite Hrun; cbn [snd]
  end;
  first
    [ exact Hev
    | match type of Hev with
      | match ?r with _ => _ end =>
          let Hr := fresh "Hr" in
          destruct r eqn:Hr;
          [ try (let E := fresh "E" in pose proof (script_lemma _ Hr) as E; subst);
            exact Hev
          | destruct Hev as [_ Hev]; rewrite Hev; repeat constructor ]
      end ].

Lemma valid_file_system_one_line (name : string) :
  arrayIncludes validFileSystems name = true -> hasChar isLF name = false.
Proof.
  unfold arrayIncludes, validFileSystems. cbn [existsb]. intro H.
  repeat (apply orb_true_iff in H as [H | H];
          [apply String.eqb_eq in H; subst name; reflexivity |]).
  discriminate H.
Qed.

(** The format instruction holds a line break exactly when the label
    does: the label is embedded as it is. *)
Lemma format_instruction_line_breaks (fileSystem : string) (label : option string)
    (quick : option bool) :
  forall instruction,
    buildFormatVolumeCommand fileSystem label quick = Ok instruction ->
    hasChar isLF instruction
    = match label with
      | Some text => hasChar isLF text
      | None => false
      end.
Proof.
  intro instruction. unfold buildFormatVolumeCommand.
  destruct (arrayIncludes validFileSystems (toUpperCase fileSystem)) eqn:Hfs;
    cbn [negb]; [| discriminate].
  pose proof (valid_file_system_one_line _ Hfs) as Hname.
  assert (Hhead : hasChar isLF ("format fs=" ++ toUpperCase fileSystem) = false)
    by (rewrite hasChar_app, Hname; reflexivity).
  assert (Htail : forall command,
             hasChar isLF (command ++ " quick") = hasChar isLF command)
    by (intro command; rewrite hasChar_app; apply orb_false_r).
  assert (Hlabel : forall text,
             hasChar isLF ("format fs=" ++ toUpperCase fileSystem ++ " label=" ++ dquote
                           ++ text ++ dquote)
             = hasChar isLF text).
  { intro text.
    change ("format fs=" ++ toUpperCase fileSystem ++ " label=" ++ dquote
            ++ text ++ dquote)
      with ("format fs=" ++ (toUpperCase fileSystem ++ ((" label=" ++ dquote)
            ++ (text ++ dquote)))).
    rewrite <- append_assoc, hasChar_app, Hhead.
    rewrite !hasChar_app.
    change (hasChar isLF " label=") with false.
    change (hasChar isLF dquote) with false.
    cbn [orb]. rewrite orb_false_r. reflexivity. }
  set (plain := "format fs=" ++ toUpperCase fileSystem) in *.
  destruct (match quick with Some b => b | None => true end);
    destruct label as [[|c text]|];
    try (destruct (Nat.ltb _ _); [discriminate |]);
    intro H; injection H as <-;
    match goal with
    | |- _ = ?r =>
        first
          [ change (hasChar isLF (plain ++ " quick") = r)
          | change (hasChar isLF plain = r)
          | change (hasChar isLF (("format fs=" ++ toUpperCase fileSystem ++ " label="
                                   ++ dquote ++ String c text ++ dquote) ++ " quick") = r)
          | change (hasChar isLF ("format fs=" ++ toUpperCase fileSystem ++ " label="
                                  ++ dquote ++ String c text ++ dquote) = r) ]
    end;
    rewrite ?Htail, ?Hlabel; first [exact Hhead | reflexivity].
Qed.

(** The lines of a script on a partition. *)
Lemma partition_script_lines {fmt : NumberFormat} (diskId partitionId : number)
    (instruction : string) :
  hasChar isLF (numberToString diskId) = false ->
  hasChar isLF (numberToString partitionId) = false ->
  split LF (partitionScript diskId partitionId instruction)
  = ("select disk " ++ numberToString diskId)
      :: ("select partition " ++ numberToString partitionId)
      :: split LF instruction.
Proof.
  intros Hd Hp. unfold partitionScript.
  change ("select disk " ++ numberToString diskId ++ nl
          ++ "select partition " ++ numberToString partitionId ++ nl ++ instruction)
    with ("select disk " ++ (numberToString diskId ++ (nl
          ++ ("select partition " ++ (numberToString partitionId ++ (nl ++ instruction)))))).
  rewrite <- (append_assoc "select disk " (numberToString diskId)).
  rewrite split_first_line by (rewrite hasChar_app, Hd; reflexivity).
  rewrite <- (append_assoc "select partition " (numberToString partitionId)).
  rewrite split_first_line by (rewrite hasChar_app, Hp; reflexivity).
  reflexivity.
Qed.

(** X16: the four destructive handlers.  Whatever their arguments, each
    starts nothing but the elevation query and the tool, the tool with the
    timeout of sixty seconds, and writes nothing but its script: the
    selection of the disk (and of the partition) it was given, followed by
    the instruction of the builder.  For clean, clean all and delete
    partition that is one fixed instruction.  For format it is the format
    instruction, which embeds the label as it is: the lines of the script
    are the two selections and then the lines of that instruction, and the
    instruction holds a line break exactly when the label does.  With a
    label free of line breaks the script has three lines, the last being
    the format instruction; the label is not checked for line breaks, and
    each one it holds adds a line to the script. *)
Theorem destructive_handlers_confined :
  forall (fmt : NumberFormat) (stack : Main.StackTrace) (T U : Type) (w : World)
         (diskId partitionId : number)
         (fileSystem : string) (label : option string),
    Forall (executorEvent w (diskScript diskId "clean") (ofZ 60000))
           (snd (run (Main.cleanDisk (T := T) (U := U) diskId) w)) /\
    Forall (executorEvent w (diskScript diskId "clean all") (ofZ 60000))
           (snd (run (Main.cleanAll (T := T) (U := U) diskId) w)) /\
    Forall (executorEvent w (partitionScript diskId partitionId "delete partition")
                          (ofZ 60000))
           (snd (run (Main.deletePartition (T := T) (U := U) diskId partitionId) w)) /\
    Forall (executorEvent w
              (partitionScript diskId partitionId
                 (built (buildFormatVolumeCommand fileSystem label None)))
              (ofZ 60000))
           (snd (run (Main.formatVolume (T := T) (U := U) diskId partitionId
                                        fileSystem label) w)) /\
    (forall instruction,
        buildFormatVolumeCommand fileSystem label None = Ok instruction ->
        hasChar isLF (numberToString diskId) = false ->
        hasChar isLF (numberToString partitionId) = false ->
        split LF (partitionScript diskId partitionId instruction)
        = ("select disk " ++ numberToString diskId)
            :: ("select partition " ++ numberToString partitionId)
            :: split LF instruction /\
        hasChar isLF instruction
        = match label with
          | Some text => hasChar isLF text
          | None => false
          end /\
        (match label with
         | Some text => hasChar isLF text
         | None => false
         end = false ->
         split LF (partitionScript diskId partitionId instruction)
         = [ "select disk " ++ numberToString diskId;
             "select partition " ++ numberToString partitionId;
             instruction ])).
Proof.
  intros fmt stack T U w diskId partitionId fileSystem label.
  split; [| split; [| split; [| split]]].
  - confined (executor_handler w (T := T) (U := U) (Some DESTRUCTIVE_TIMEOUT)
                ("Disk " ++ numberToString diskId ++ " cleaned successfully")
                ("Cleaning disk " ++ numberToString diskId)
                ("Failed to clean disk " ++ numberToString diskId)
                "Failed to clean disk"
                (andThen (buildSelectDiskCommand diskId) (fun selectDisk =>
                 buildCommandScript [selectDisk; buildCleanDiskCommand])))
             (disk_script diskId [buildCleanDiskCommand]).
  - confined (executor_handler w (T := T) (U := U) (Some DESTRUCTIVE_TIMEOUT)
                ("Disk " ++ numberToString diskId ++ " cleaned (all) successfully")
                ("Cleaning all data from disk " ++ numberToString diskId)
                ("Failed to clean all data from disk " ++ numberToString diskId)
                "Failed to clean disk"
                (andThen (buildSelectDiskCommand diskId) (fun selectDisk =>
                 buildCommandScript [selectDisk; buildCleanAllCommand])))
             (disk_script diskId [buildCleanAllCommand]).
  - confined (executor_handler w (T := T) (U := U) (Some DESTRUCTIVE_TIMEOUT)
                "Partition deleted successfully"
                ("Deleting partition " ++ numberToString partitionId ++ " on disk "
                 ++ numberToString diskId)
                ("Failed to delete partition " ++ numberToString partitionId
                 ++ " on disk " ++ numberToString diskId)
                "Failed to delete partition"
                (andThen (buildSelectDiskCommand diskId) (fun selectDisk =>
                 andThen (buildSelectPartitionCommand partitionId)
                         (fun selectPartition =>
                 andThen (Ok buildDeletePartitionCommand) (fun instruction =>
                 buildCommandScript [selectDisk; selectPartition; instruction])))))
             (partition_script diskId partitionId (Ok buildDeletePartitionCommand)).
  - confined (executor_handler w (T := T) (U := U) (Some DESTRUCTIVE_TIMEOUT)
                "Volume formatted successfully"
                ("Formatting partition " ++ numberToString partitionId ++ " on disk "
                 ++ numberToString diskId)
                ("Failed to format partition " ++ numberToString partitionId
                 ++ " on disk " ++ numberToString diskId)
                "Failed to format volume"
                (buildFormatPartitionScript diskId partitionId fileSystem label))
             (partition_script diskId partitionId
                (buildFormatVolumeCommand fileSystem label None)).
  - intros instruction Hbuilt Hd Hp.
    pose proof (format_instruction_line_breaks _ _ _ _ Hbuilt) as Hbreaks.
    pose proof (partition_script_lines diskId partitionId instruction Hd Hp) as Hlines.
    split; [exact Hlines | split; [exact Hbreaks |]].
    intro Hnone. rewrite Hlines, (split_line instruction); [reflexivity |].
    rewrite Hbreaks. exact Hnone.
Qed.

(** The theorem at a label that holds two line breaks: the script has
    five lines, and one of them is an instruction of its own. *)
Lemma destructive_handlers_confined_witness :
  split LF (partitionScript (fmt := exampleFormat) (ofZ 1) (ofZ 1)
              (built (buildFormatVolumeCommand "NTFS" (Some labelWithLines) None)))
  = [ "select disk 1"; "select partition 1";
      "format fs=NTFS label=" ++ dquote ++ "x"; "clean all"; dquote ++ " quick" ] /\
  split LF (partitionScript (fmt := exampleFormat) (ofZ 1) (ofZ 1)
              (built (buildFormatVolumeCommand "NTFS" (Some "DATA") None)))
  = [ "select disk 1"; "select partition 1";
      "format fs=NTFS label=" ++ dquote ++ "DATA" ++ dquote ++ " quick" ].
Proof.
  destruct (destructive_handlers_confined
              exampleFormat noStack unit unit notElevated (ofZ 1) (ofZ 1)
              "NTFS" (Some labelWithLines))
    as (_ & _ & _ & _ & Hbroken).
  destruct (destructive_handlers_confined
              exampleFormat noStack unit unit notElevated (ofZ 1) (ofZ 1)
              "NTFS" (Some "DATA"))
    as (_ & _ & _ & _ & Hplain).
  destruct (Hbroken _ eq_refl eq_refl eq_refl) as (Hlines & _ & _).
  destruct (Hplain _ eq_refl eq_refl eq_refl) as (_ & _ & Hthree).
  split; [exact Hlines | exact (Hthree eq_refl)].
Defined.

(** The response of a handler, from the response of its shape. *)
Ltac responds H :=
  let resp := fresh "resp" in
  let tr := fresh "tr" in
  let Hrun := fresh "Hrun" in
  let Hwf := fresh "Hwf" in
  destruct H as (resp & tr & Hrun & Hwf & _);
  exists resp, tr; split; [exact Hrun | exact Hwf].

(** X17: no handler throws, and every response is well formed: a success
    with data and no error, or a failure with no data and an error whose
    code is one of the executor's five codes, PARSE_ERROR or EXCEPTION.
    The code UNKNOWN_ERROR is never answered. *)
Theorem handlers_respond :
  forall (fmt : NumberFormat) (stack : Main.StackTrace) (T U : Type) (w : World)
         (diskId partitionId : number)
         (size : option number) (fileSystem letter : string) (label : option string),
    (exists resp tr, run Main.listDisks w = (Ok resp, tr) /\ WellFormed resp) /\
    (exists resp tr, run Main.listVolumes w = (Ok resp, tr) /\ WellFormed resp) /\
    (exists resp tr,
       run (Main.listPartitions diskId) w = (Ok resp, tr) /\ WellFormed resp) /\
    (exists resp tr,
       run (Main.selectDisk (T := T) (U := U) diskId) w = (Ok resp, tr) /\
       WellFormed resp) /\
    (exists resp tr, run (Main.detailDisk diskId) w = (Ok resp, tr) /\ WellFormed resp) /\
    (exists resp tr,
       run (Main.cleanDisk (T := T) (U := U) diskId) w = (Ok resp, tr) /\
       WellFormed resp) /\
    (exists resp tr,
       run (Main.cleanAll (T := T) (U := U) diskId) w = (Ok resp, tr) /\
       WellFormed resp) /\
    (exists resp tr,
       run (Main.createPartition (T := T) (U := U) diskId size) w = (Ok resp, tr) /\
       WellFormed resp) /\
    (exists resp tr,
       run (Main.deletePartition (T := T) (U := U) diskId partitionId) w
       = (Ok resp, tr) /\ WellFormed resp) /\
    (exists resp tr,
       run (Main.formatVolume (T := T) (U := U) diskId partitionId fileSystem label) w
       = (Ok resp, tr) /\ WellFormed resp) /\
    (exists resp tr,
       run (Main.assignLetter (T := T) (U := U) diskId partitionId letter) w
       = (Ok resp, tr) /\ WellFormed resp) /\
    (exists resp tr,
       run (Main.removeLetter (T := T) (U := U) diskId partitionId letter) w
       = (Ok resp, tr) /\ WellFormed resp).
Proof.
  intros fmt stack T U w diskId partitionId size fileSystem letter label.
  repeat split.
  - responds (parsing_handler w (asParser parseListDisk) "Listing disks"
                "Failed to list disks" "Failed to list disks"
                (Ok buildListDisksCommand)).
  - responds (parsing_handler w (asParser parseListVolume) "Listing volumes"
                "Failed to list volumes" "Failed to list volumes"
                (Ok buildListVolumesCommand)).
  - responds (parsing_handler w (asParser parseListPartition)
                ("Listing partitions for disk " ++ numberToString diskId)
                ("Failed to list partitions for disk " ++ numberToString diskId)
                "Failed to list partitions"
                (andThen (buildSelectDiskCommand diskId) (fun selectDisk =>
                 buildCommandScript [selectDisk; buildListPartitionsCommand]))).
  - responds (executor_handler w (T := T) (U := U) None
                ("Disk " ++ numberToString diskId ++ " selected successfully")
                ("Selecting disk " ++ numberToString diskId)
                ("Failed to select disk " ++ numberToString diskId)
                "Failed to select disk"
                (buildSelectDiskCommand diskId)).
  - responds (parsing_handler w (asParser parseDetailDisk)
                ("Getting details for disk " ++ numberToString diskId)
                ("Failed to get details for disk " ++ numberToString diskId)
                "Failed to get disk details"
                (buildDetailDiskScript diskId)).
  - responds (executor_handler w (T := T) (U := U) (Some DESTRUCTIVE_TIMEOUT)
                ("Disk " ++ numberToString diskId ++ " cleaned successfully")
                ("Cleaning disk " ++ numberToString diskId)
                ("Failed to clean disk " ++ numberToString diskId)
                "Failed to clean disk"
                (andThen (buildSelectDiskCommand diskId) (fun selectDisk =>
                 buildCommandScript [selectDisk; buildCleanDiskCommand]))).
  - responds (executor_handler w (T := T) (U := U) (Some DESTRUCTIVE_TIMEOUT)
                ("Disk " ++ numberToString diskId ++ " cleaned (all) successfully")
                ("Cleaning all data from disk " ++ numberToString diskId)
                ("Failed to clean all data from disk " ++ numberToString diskId)
                "Failed to clean disk"
                (andThen (buildSelectDiskCommand diskId) (fun selectDisk =>
                 buildCommandScript [selectDisk; buildCleanAllCommand]))).
  - responds (executor_handler w (T := T) (U := U) None
                "Partition created successfully"
                ("Creating partition on disk " ++ numberToString diskId)
                ("Failed to create partition on disk " ++ numberToString diskId)
                "Failed to create partition"
                (andThen (buildSelectDiskCommand diskId) (fun selectDisk =>
                 andThen (buildCreatePartitionCommand size) (fun create =>
                 buildCommandScript [selectDisk; create])))).
  - responds (executor_handler w (T := T) (U := U) (Some DESTRUCTIVE_TIMEOUT)
                "Partition deleted successfully"
                ("Deleting partition " ++ numberToString partitionId ++ " on disk "
                 ++ numberToString diskId)
                ("Failed to delete partition " ++ numberToString partitionId
                 ++ " on disk " ++ numberToString diskId)
                "Failed to delete partition"
                (andThen (buildSelectDiskCommand diskId) (fun selectDisk =>
                 andThen (buildSelectPartitionCommand partitionId)
                         (fun selectPartition =>
                 buildCommandScript [selectDisk; selectPartition;
                                     buildDeletePartitionCommand])))).
  - responds (executor_handler w (T := T) (U := U) (Some DESTRUCTIVE_TIMEOUT)
                "Volume formatted successfully"
                ("Formatting partition " ++ numberToString partitionId ++ " on disk "
                 ++ numberToString diskId)
                ("Failed to format partition " ++ numberToString partitionId
                 ++ " on disk " ++ numberToString diskId)
                "Failed to format volume"
                (buildFormatPartitionScript diskId partitionId fileSystem label)).
  - responds (executor_handler w (T := T) (U := U) None
                ("Drive letter " ++ letter ++ " assigned successfully")
                ("Assigning letter " ++ letter ++ " to partition "
                 ++ numberToString partitionId ++ " on disk " ++ numberToString diskId)
                ("Failed to assign letter " ++ letter ++ " to partition "
                 ++ numberToString partitionId ++ " on disk " ++ numberToString diskId)
                "Failed to assign drive letter"
                (andThen (buildSelectDiskCommand diskId) (fun selectDisk =>
                 andThen (buildSelectPartitionCommand partitionId)
                         (fun selectPartition =>
                 andThen (buildAssignLetterCommand letter) (fun assign =>
                 buildCommandScript [selectDisk; selectPartition; assign]))))).
  - responds (executor_handler w (T := T) (U := U) None
                ("Drive letter " ++ letter ++ " removed successfully")
                ("Removing letter " ++ letter ++ " from partition "
                 ++ numberToString partitionId ++ " on disk " ++ numberToString diskId)
                ("Failed to remove letter " ++ letter ++ " from partition "
                 ++ numberToString partitionId ++ " on disk " ++ numberToString diskId)
                "Failed to remove drive letter"
                (andThen (buildSelectDiskCommand diskId) (fun selectDisk =>
                 andThen (buildSelectPartitionCommand partitionId)
                         (fun selectPartition =>
                 andThen (buildRemoveLetterCommand letter) (fun remove =>
                 buildCommandScript [selectDisk; selectPartition; remove]))))).
Qed.

(** A handler stopped by the disk number. *)
Ltac rejects H :=
  let resp := fresh "resp" in
  let tr := fresh "tr" in
  let Hrun := fresh "Hrun" in
  let Hev := fresh "Hev" in
  destruct H as (resp & tr & Hrun & _ & Hev);
  unfold buildDetailDiskScript, buildFormatPartitionScript in Hev;
  match type of Hev with
  | context [buildSelectDiskCommand ?d] =>
      match goal with
      | Hsel : buildSelectDiskCommand d = Throw _ |- _ => rewrite Hsel in Hev
      end
  end;
  cbn [andThen] in Hev; destruct Hev as [Hresp Htr]; subst resp tr;
  do 2 eexists; exact Hrun.

(** X18: a disk number that is not an integer from 0 on stops every
    handler that takes one before anything is run.  The response is the
    EXCEPTION failure with the builder's message, and the handler has done
    nothing but write its two log entries: no elevation query, no script
    file, no tool. *)
Theorem handlers_reject_invalid_disk :
  forall (fmt : NumberFormat) (stack : Main.StackTrace) (T U : Type) (w : World)
         (diskId partitionId : number)
         (size : option number) (fileSystem letter : string) (label : option string),
    isInteger diskId = false \/ num_lt diskId (ofZ 0) = true ->
    let e := InvalidCommandError ("Invalid disk number: " ++ numberToString diskId)
                                 None in
    (exists info failure,
       run (Main.listPartitions diskId) w
       = (Ok (rejection (message e) (DiskpartExn e)),
          [Log "INFO" info; Log "ERROR" failure])) /\
    (exists info failure,
       run (Main.selectDisk (T := T) (U := U) diskId) w
       = (Ok (rejection (message e) (DiskpartExn e)),
          [Log "INFO" info; Log "ERROR" failure])) /\
    (exists info failure,
       run (Main.detailDisk diskId) w
       = (Ok (rejection (message e) (DiskpartExn e)),
          [Log "INFO" info; Log "ERROR" failure])) /\
    (exists info failure,
       run (Main.cleanDisk (T := T) (U := U) diskId) w
       = (Ok (rejection (message e) (DiskpartExn e)),
          [Log "INFO" info; Log "ERROR" failure])) /\
    (exists info failure,
       run (Main.cleanAll (T := T) (U := U) diskId) w
       = (Ok (rejection (message e) (DiskpartExn e)),
          [Log "INFO" info; Log "ERROR" failure])) /\
    (exists info failure,
       run (Main.createPartition (T := T) (U := U) diskId size) w
       = (Ok (rejection (message e) (DiskpartExn e)),
          [Log "INFO" info; Log "ERROR" failure])) /\
    (exists info failure,
       run (Main.deletePartition (T := T) (U := U) diskId partitionId) w
       = (Ok (rejection (message e) (DiskpartExn e)),
          [Log "INFO" info; Log "ERROR" failure])) /\
    (exists info failure,
       run (Main.formatVolume (T := T) (U := U) diskId partitionId fileSystem label) w
       = (Ok (rejection (message e) (DiskpartExn e)),
          [Log "INFO" info; Log "ERROR" failure])) /\
    (exists info failure,
       run (Main.assignLetter (T := T) (U := U) diskId partitionId letter) w
       = (Ok (rejection (message e) (DiskpartExn e)),
          [Log "INFO" info; Log "ERROR" failure])) /\
    (exists info failure,
       run (Main.removeLetter (T := T) (U := U) diskId partitionId letter) w
       = (Ok (rejection (message e) (DiskpartExn e)),
          [Log "INFO" info; Log "ERROR" failure])).
Proof.
  intros fmt stack T U w diskId partitionId size fileSystem letter label Hbad e.
  pose proof (select_disk_rejected diskId Hbad) as Hsel. fold e in Hsel.
  repeat split.
  - rejects (parsing_handler w (asParser parseListPartition)
                ("Listing partitions for disk " ++ numberToString diskId)
                ("Failed to list partitions for disk " ++ numberToString diskId)
                "Failed to list partitions"
                (andThen (buildSelectDiskCommand diskId) (fun selectDisk =>
                 buildCommandScript [selectDisk; buildListPartitionsCommand]))).
  - rejects (executor_handler w (T := T) (U := U) None
                ("Disk " ++ numberToString diskId ++ " selected successfully")
                ("Selecting disk " ++ numberToString diskId)
                ("Failed to select disk " ++ numberToString diskId)
                "Failed to select disk"
                (buildSelectDiskCommand diskId)).
  - rejects (parsing_handler w (asParser parseDetailDisk)
                ("Getting details for disk " ++ numberToString diskId)
                ("Failed to get details for disk " ++ numberToString diskId)
                "Failed to get disk details"
                (buildDetailDiskScript diskId)).
  - rejects (executor_handler w (T := T) (U := U) (Some DESTRUCTIVE_TIMEOUT)
                ("Disk " ++ numberToString diskId ++ " cleaned successfully")
                ("Cleaning disk " ++ numberToString diskId)
                ("Failed to clean disk " ++ numberToString diskId)
                "Failed to clean disk"
                (andThen (buildSelectDiskCommand diskId) (fun selectDisk =>
                 buildCommandScript [selectDisk; buildCleanDiskCommand]))).
  - rejects (executor_handler w (T := T) (U := U) (Some DESTRUCTIVE_TIMEOUT)
                ("Disk " ++ numberToString diskId ++ " cleaned (all) successfully")
                ("Cleaning all data from disk " ++ numberToString diskId)
                ("Failed to clean all data from disk " ++ numberToString diskId)
                "Failed to clean disk"
                (andThen (buildSelectDiskCommand diskId) (fun selectDisk =>
                 buildCommandScript [selectDisk; buildCleanAllCommand]))).
  - rejects (executor_handler w (T := T) (U := U) None
                "Partition created successfully"
                ("Creating partition on disk " ++ numberToString diskId)
                ("Failed to create partition on disk " ++ numberToString diskId)
                "Failed to create partition"
                (andThen (buildSelectDiskCommand diskId) (fun selectDisk =>
                 andThen (buildCreatePartitionCommand size) (fun create =>
                 buildCommandScript [selectDisk; create])))).
  - rejects (executor_handler w (T := T) (U := U) (Some DESTRUCTIVE_TIMEOUT)
                "Partition deleted successfully"
                ("Deleting partition " ++ numberToString partitionId ++ " on disk " ++ numberToString diskId)
                ("Failed to delete partition " ++ numberToString partitionId ++ " on disk " ++ numberToString diskId)
                "Failed to delete partition"
                (andThen (buildSelectDiskCommand diskId) (fun selectDisk =>
                 andThen (buildSelectPartitionCommand partitionId)
                         (fun selectPartition =>
                 andThen (Ok buildDeletePartitionCommand) (fun instruction =>
                 buildCommandScript [selectDisk; selectPartition; instruction]))))).
  - rejects (executor_handler w (T := T) (U := U) (Some DESTRUCTIVE_TIMEOUT)
                "Volume formatted successfully"
                ("Formatting partition " ++ numberToString partitionId ++ " on disk " ++ numberToString diskId)
                ("Failed to format partition " ++ numberToString partitionId ++ " on disk " ++ numberToString diskId)
                "Failed to format volume"
                (buildFormatPartitionScript diskId partitionId fileSystem label)).
  - rejects (executor_handler w (T := T) (U := U) None
                ("Drive letter " ++ letter ++ " assigned successfully")
                ("Assigning letter " ++ letter ++ " to partition " ++ numberToString partitionId ++ " on disk " ++ numberToString diskId)
                ("Failed to assign letter " ++ letter ++ " to partition " ++ numberToString partitionId ++ " on disk " ++ numberToString diskId)
                "Failed to assign drive letter"
                (andThen (buildSelectDiskCommand diskId) (fun selectDisk =>
                 andThen (buildSelectPartitionCommand partitionId)
                         (fun selectPartition =>
                 andThen (buildAssignLetterCommand letter) (fun instruction =>
                 buildCommandScript [selectDisk; selectPartition; instruction]))))).
  - rejects (executor_handler w (T := T) (U := U) None
                ("Drive letter " ++ letter ++ " removed successfully")
                ("Removing letter " ++ letter ++ " from partition " ++ numberToString partitionId ++ " on disk " ++ numberToString diskId)
                ("Failed to remove letter " ++ letter ++ " from partition " ++ numberToString partitionId ++ " on disk " ++ numberToString diskId)
                "Failed to remove drive letter"
                (andThen (buildSelectDiskCommand diskId) (fun selectDisk =>
                 andThen (buildSelectPartitionCommand partitionId)
                         (fun selectPartition =>
                 andThen (buildRemoveLetterCommand letter) (fun instruction =>
                 buildCommandScript [selectDisk; selectPartition; instruction]))))).
Qed.

Lemma handlers_reject_invalid_disk_witness :
  exists info failure,
    run (Main.cleanDisk (fmt := exampleFormat) (stack := noStack) (T := unit) (U := unit)
                        (ofZ (-1)))
        (toolPrints "DiskPart successfully cleaned the disk.")
    = (Ok (IPCResponse.mk false None
             (Some (IPCError.mk "EXCEPTION" "Invalid disk number: -1" None))),
       [Log "INFO" info; Log "ERROR" failure]).
Proof.
  destruct (handlers_reject_invalid_disk
              exampleFormat noStack unit unit
              (toolPrints "DiskPart successfully cleaned the disk.")
              (ofZ (-1)) (ofZ 1) None "NTFS" "E" None (or_intror eq_refl))
    as (_ & _ & _ & Hclean & _).
  exact Hclean.
Defined.

(** X19: the other handlers.  Each starts nothing but the elevation query
    and the tool, the tool with the default timeout of thirty seconds, and
    writes nothing but its script, which selects the disk (and the
    partition) it was given before its instruction; only the listing and
    detail handlers call a parser. *)
Theorem plain_handlers_confined :
  forall (fmt : NumberFormat) (stack : Main.StackTrace) (T U : Type) (w : World)
         (diskId partitionId : number) (size : option number) (letter : string),
    Forall (handlerEvent w "list disk" (ofZ 30000)) (snd (run Main.listDisks w)) /\
    Forall (handlerEvent w "list volume" (ofZ 30000)) (snd (run Main.listVolumes w)) /\
    Forall (handlerEvent w (diskScript diskId "list partition") (ofZ 30000))
           (snd (run (Main.listPartitions diskId) w)) /\
    Forall (executorEvent w ("select disk " ++ numberToString diskId) (ofZ 30000))
           (snd (run (Main.selectDisk (T := T) (U := U) diskId) w)) /\
    Forall (handlerEvent w (diskScript diskId ("detail disk" ++ nl ++ "list partition"))
                         (ofZ 30000))
           (snd (run (Main.detailDisk diskId) w)) /\
    Forall (executorEvent w (diskScript diskId (built (buildCreatePartitionCommand size)))
                          (ofZ 30000))
           (snd (run (Main.createPartition (T := T) (U := U) diskId size) w)) /\
    Forall (executorEvent w
              (partitionScript diskId partitionId (built (buildAssignLetterCommand letter)))
              (ofZ 30000))
           (snd (run (Main.assignLetter (T := T) (U := U) diskId partitionId letter) w)) /\
    Forall (executorEvent w
              (partitionScript diskId partitionId (built (buildRemoveLetterCommand letter)))
              (ofZ 30000))
           (snd (run (Main.removeLetter (T := T) (U := U) diskId partitionId letter) w)).
Proof.
  intros fmt stack T U w diskId partitionId size letter.
  repeat split.
  - confined (parsing_handler w (asParser parseListDisk) "Listing disks"
                "Failed to list disks" "Failed to list disks"
                (Ok buildListDisksCommand))
             (fixed_script buildListDisksCommand).
  - confined (parsing_handler w (asParser parseListVolume) "Listing volumes"
                "Failed to list volumes" "Failed to list volumes"
                (Ok buildListVolumesCommand))
             (fixed_script buildListVolumesCommand).
  - confined (parsing_handler w (asParser parseListPartition)
                ("Listing partitions for disk " ++ numberToString diskId)
                ("Failed to list partitions for disk " ++ numberToString diskId)
                "Failed to list partitions"
                (andThen (buildSelectDiskCommand diskId) (fun selectDisk =>
                 buildCommandScript [selectDisk; buildListPartitionsCommand])))
             (disk_script diskId [buildListPartitionsCommand]).
  - confined (executor_handler w (T := T) (U := U) None
                ("Disk " ++ numberToString diskId ++ " selected successfully")
                ("Selecting disk " ++ numberToString diskId)
                ("Failed to select disk " ++ numberToString diskId)
                "Failed to select disk"
                (buildSelectDiskCommand diskId))
             (select_script diskId).
  - confined (parsing_handler w (asParser parseDetailDisk)
                ("Getting details for disk " ++ numberToString diskId)
                ("Failed to get details for disk " ++ numberToString diskId)
                "Failed to get disk details"
                (buildDetailDiskScript diskId))
             (disk_script diskId [buildDetailDiskCommand; buildListPartitionsCommand]).
  - confined (executor_handler w (T := T) (U := U) None
                "Partition created successfully"
                ("Creating partition on disk " ++ numberToString diskId)
                ("Failed to create partition on disk " ++ numberToString diskId)
                "Failed to create partition"
                (andThen (buildSelectDiskCommand diskId) (fun selectDisk =>
                 andThen (buildCreatePartitionCommand size) (fun create =>
                 buildCommandScript [selectDisk; create]))))
             (disk_script_then diskId (buildCreatePartitionCommand size)).
  - confined (executor_handler w (T := T) (U := U) None
                ("Drive letter " ++ letter ++ " assigned successfully")
                ("Assigning letter " ++ letter ++ " to partition "
                 ++ numberToString partitionId ++ " on disk " ++ numberToString diskId)
                ("Failed to assign letter " ++ letter ++ " to partition "
                 ++ numberToString partitionId ++ " on disk " ++ numberToString diskId)
                "Failed to assign drive letter"
                (andThen (buildSelectDiskCommand diskId) (fun selectDisk =>
                 andThen (buildSelectPartitionCommand partitionId)
                         (fun selectPartition =>
                 andThen (buildAssignLetterCommand letter) (fun assign =>
                 buildCommandScript [selectDisk; selectPartition; assign])))))
             (partition_script diskId partitionId (buildAssignLetterCommand letter)).
  - confined (executor_handler w (T := T) (U := U) None
                ("Drive letter " ++ letter ++ " removed successfully")
                ("Removing letter " ++ letter ++ " from partition "
                 ++ numberToString partitionId ++ " on disk " ++ numberToString diskId)
                ("Failed to remove letter " ++ letter ++ " from partition "
                 ++ numberToString partitionId ++ " on disk " ++ numberToString diskId)
                "Failed to remove drive letter"
                (andThen (buildSelectDiskCommand diskId) (fun selectDisk =>
                 andThen (buildSelectPartitionCommand partitionId)
                         (fun selectPartition =>
                 andThen (buildRemoveLetterCommand letter) (fun remove =>
                 buildCommandScript [selectDisk; selectPartition; remove])))))
             (partition_script diskId partitionId (buildRemoveLetterCommand letter)).
Qed.

(** ** Safety checks and input validation *)

(** X20: [validateDriveLetter] accepts exactly the strings whose
    upper-cased form is a single letter D to Z; among ASCII strings these
    are the single letters D to Z in either case.  Every string it accepts
    is accepted by the two letter builders, which write the upper-cased
    form. *)
Theorem validateDriveLetter_accepts :
  forall letter : string,
    Safety.valid (Safety.validateDriveLetter letter)
    = match toUpperCase letter with
      | String c EmptyString => between 68 90 c
      | _ => false
      end /\
    (isAsciiText letter = true ->
     Safety.valid (Safety.validateDriveLetter letter)
     = match letter with
       | String c EmptyString => between 68 90 c || between 100 122 c
       | _ => false
       end) /\
    (Safety.valid (Safety.validateDriveLetter letter) = true ->
     Safety.error (Safety.validateDriveLetter letter) = None /\
     buildAssignLetterCommand letter = Ok ("assign letter=" ++ toUpperCase letter) /\
     buildRemoveLetterCommand letter = Ok ("remove letter=" ++ toUpperCase letter)).
Proof.
  intro letter. destruct letter as [|c [|d rest_]].
  - split; [reflexivity | split; [reflexivity | discriminate]].
  - split_ascii c; vm_compute;
      (split; [reflexivity | split; [intro H; first [reflexivity | discriminate H] |]]);
      intro H; first [discriminate H | repeat split].
  - split; [reflexivity | split; [reflexivity | discriminate]].
Qed.

Lemma validateDriveLetter_accepts_witness :
  Safety.valid (Safety.validateDriveLetter "e") = true /\
  buildAssignLetterCommand "e" = Ok "assign letter=E".
Proof.
  destruct (validateDriveLetter_accepts "e") as (Hvalid & _ & Hbuild).
  split; [rewrite Hvalid; reflexivity |].
  destruct (Hbuild eq_refl) as (_ & Hassign & _). exact Hassign.
Defined.

(** X21: [validateFileSystem] accepts NTFS and FAT32 in any casing and
    nothing else: the entry exFAT of its list is compared with the
    upper-cased input and so never matches.  Every name it accepts is
    accepted by [buildFormatVolumeCommand]. *)
Theorem validateFileSystem_accepts :
  forall fileSystem : string,
    Safety.valid (Safety.validateFileSystem fileSystem)
    = (String.eqb (toUpperCase fileSystem) "NTFS"
       || String.eqb (toUpperCase fileSystem) "FAT32") /\
    (Safety.valid (Safety.validateFileSystem fileSystem) = true ->
     Safety.error (Safety.validateFileSystem fileSystem) = None /\
     buildFormatVolumeCommand fileSystem None None
     = Ok ("format fs=" ++ toUpperCase fileSystem ++ " quick")).
Proof.
  intro fileSystem.
  assert (Hvalid : Safety.valid (Safety.validateFileSystem fileSystem)
                   = (String.eqb (toUpperCase fileSystem) "NTFS"
                      || String.eqb (toUpperCase fileSystem) "FAT32")).
  { unfold Safety.validateFileSystem, arrayIncludes. cbn [existsb].
    rewrite toUpperCase_not_exFAT, !orb_false_r.
    destruct fileSystem as [|c s]; [reflexivity |].
    cbn [String.eqb].
    destruct (String.eqb (toUpperCase (String c s)) "NTFS"
              || String.eqb (toUpperCase (String c s)) "FAT32"); reflexivity. }
  split; [exact Hvalid |].
  rewrite Hvalid. intro H. split.
  - unfold Safety.validateFileSystem, arrayIncludes. cbn [existsb].
    rewrite toUpperCase_not_exFAT, !orb_false_r, H.
    destruct fileSystem; [discriminate H | reflexivity].
  - unfold buildFormatVolumeCommand, validFileSystems, arrayIncludes. cbn [existsb].
    apply orb_true_iff in H as [H | H]; rewrite H, ?orb_true_r; cbn [negb orb];
      rewrite append_assoc; reflexivity.
Qed.

Lemma validateFileSystem_accepts_witness :
  Safety.valid (Safety.validateFileSystem "ntfs") = true /\
  Safety.valid (Safety.validateFileSystem "exFAT") = false /\
  buildFormatVolumeCommand "ntfs" None None = Ok "format fs=NTFS quick".
Proof.
  destruct (validateFileSystem_accepts "ntfs") as [Hvalid Hbuild].
  destruct (validateFileSystem_accepts "exFAT") as [Hexfat _].
  split; [rewrite Hvalid; reflexivity |].
  split; [rewrite Hexfat; reflexivity |].
  destruct (Hbuild eq_refl) as [_ Hformat]. exact Hformat.
Defined.

(** X22: [checkDiskOperationSafety] on a selected disk.  Typing the
    confirmation is required exactly for a system or boot disk and for the
    operations clean, clean_all, delete_partition and format; the check is
    safe exactly when it is not required; there are no warnings exactly
    when, besides, the disk is not offline.  With no disk selected the
    check is unsafe, yet asks for a detailed confirmation only, whatever
    the operation. *)
Theorem checkDiskOperationSafety_confirmation :
  forall (operation : string) (d : DiskInfo),
    let r := Safety.checkDiskOperationSafety operation (Some d) in
    let none := Safety.checkDiskOperationSafety operation None in
    Safety.requiresTypeToConfirm r
    = (Safety.isSystemDisk (Some d) || isDestructive operation) /\
    Safety.safe r = negb (Safety.requiresTypeToConfirm r) /\
    noWarnings r
    = negb (Safety.isSystemDisk (Some d) || Safety.isOffline (status d)
            || isDestructive operation) /\
    Safety.getConfirmationType r
    = (if Safety.requiresTypeToConfirm r then Safety.TypeToConfirm
       else if Safety.isOffline (status d) then Safety.Detailed
            else Safety.Simple) /\
    Safety.safe none = false /\
    Safety.getConfirmationType none = Safety.Detailed.
Proof.
  intros operation d.
  unfold Safety.checkDiskOperationSafety, Safety.isSystemDisk, isDestructive,
    arrayIncludes, noWarnings, Safety.getConfirmationType, Safety.conclude, Safety.push.
  cbn [existsb].
  destruct (Parser.isSystemDisk d || Parser.isBootDisk d),
    (Safety.isOffline (status d));
    (destruct (String.eqb operation "clean"); [repeat split; reflexivity |]);
    (destruct (String.eqb operation "clean_all"); [repeat split; reflexivity |]);
    (destruct (String.eqb operation "delete_partition"); [repeat split; reflexivity |]);
    (destruct (String.eqb operation "format"); [repeat split; reflexivity |]);
    destruct (String.eqb operation "offline"); repeat split; reflexivity.
Qed.

(** X23: [checkPartitionOperationSafety] on a selected disk and
    partition.  No result is both safe and in need of the typed
    confirmation, and none needs it without a warning.  Deleting and
    formatting always need it, and warn about the drive letter when the
    partition has one.  Extending on a disk without free space is unsafe
    but needs no typed confirmation, even on a System or Boot partition. *)
Theorem checkPartitionOperationSafety_confirmation :
  forall (operation : string) (d : DiskInfo) (p : PartitionInfo.t),
    let r := Safety.checkPartitionOperationSafety operation (Some d) (Some p) in
    Safety.safe r && Safety.requiresTypeToConfirm r = false /\
    Safety.requiresTypeToConfirm r && noWarnings r = false /\
    (operation = "delete_partition" ->
     Safety.requiresTypeToConfirm r = true /\ Safety.safe r = false /\
     forall l, Safety.letterOf p = Some l ->
               In ("Drive " ++ l ++ ": will be removed") (Safety.warnings r)) /\
    (operation = "format" ->
     Safety.requiresTypeToConfirm r = true /\ Safety.safe r = false /\
     forall l, Safety.letterOf p = Some l ->
               In ("Drive " ++ l ++ ": will be formatted") (Safety.warnings r)) /\
    (operation = "extend" -> num_eq (free d) (ofZ 0) = true ->
     Safety.safe r = false /\ Safety.requiresTypeToConfirm r = false /\
     Safety.getConfirmationType r = Safety.Detailed).
Proof.
  intros operation d p.
  unfold Safety.checkPartitionOperationSafety, Safety.isSystemDisk, noWarnings,
    Safety.getConfirmationType, Safety.conclude, Safety.push.
  split; [| split; [| split; [| split]]].
  - destruct (Parser.isSystemDisk d || Parser.isBootDisk d),
      (Safety.isSystemOrBoot (PartitionInfo.status p));
      (destruct (String.eqb operation "delete_partition");
       [destruct (Safety.letterOf p); reflexivity |]);
      (destruct (String.eqb operation "format");
       [destruct (Safety.letterOf p); reflexivity |]);
      (destruct (String.eqb operation "shrink"); [reflexivity |]);
      (destruct (String.eqb operation "extend"); [| reflexivity]);
      destruct (num_eq (free d) (ofZ 0)); reflexivity.
  - destruct (Parser.isSystemDisk d || Parser.isBootDisk d),
      (Safety.isSystemOrBoot (PartitionInfo.status p));
      (destruct (String.eqb operation "delete_partition");
       [destruct (Safety.letterOf p); reflexivity |]);
      (destruct (String.eqb operation "format");
       [destruct (Safety.letterOf p); reflexivity |]);
      (destruct (String.eqb operation "shrink"); [reflexivity |]);
      (destruct (String.eqb operation "extend"); [| reflexivity]);
      destruct (num_eq (free d) (ofZ 0)); reflexivity.
  - intro Hop. subst operation. cbn [String.eqb Ascii.eqb Bool.eqb andb].
    destruct (Parser.isSystemDisk d || Parser.isBootDisk d),
      (Safety.isSystemOrBoot (PartitionInfo.status p)), (Safety.letterOf p);
      (split; [reflexivity | split; [reflexivity |]]);
      intros l Hl; inversion Hl; subst; cbn; tauto.
  - intro Hop. subst operation. cbn [String.eqb Ascii.eqb Bool.eqb andb].
    destruct (Parser.isSystemDisk d || Parser.isBootDisk d),
      (Safety.isSystemOrBoot (PartitionInfo.status p)), (Safety.letterOf p);
      (split; [reflexivity | split; [reflexivity |]]);
      intros l Hl; inversion Hl; subst; cbn; tauto.
  - intros Hop Hfree. subst operation. rewrite Hfree.
    cbn [String.eqb Ascii.eqb Bool.eqb andb].
    destruct (Parser.isSystemDisk d || Parser.isBootDisk d),
      (Safety.isSystemOrBoot (PartitionInfo.status p)); repeat split.
Qed.

Lemma checkPartitionOperationSafety_confirmation_witness :
  let r := Safety.checkPartitionOperationSafety "extend" (Some fullDisk)
                                                (Some bootPartition) in
  Safety.warnings r
  = ["⚠️ This is a Boot partition";
     "Modifying this partition may make your system unbootable";
     "No free space available on disk"] /\
  Safety.safe r = false /\ Safety.requiresTypeToConfirm r = false /\
  Safety.getConfirmationType r = Safety.Detailed.
Proof.
  split; [reflexivity |].
  destruct (checkPartitionOperationSafety_confirmation "extend" fullDisk bootPartition)
    as (_ & _ & _ & _ & Hextend).
  exact (Hextend eq_refl eq_refl).
Defined.

(** ** The detail parser *)

Section CutAtMarker.
Variable marker : string.
Hypothesis marker_starts : startsClean marker = true.
Hypothesis marker_ends : endsClean marker = true.
Hypothesis marker_one_line : hasChar isLF marker = false.

(** A character in front of the text that starts no occurrence of the
    marker changes nothing below the header line. *)
Lemma dataLines_cons (c : ascii) (s : string) :
  startsWith (String c s) marker = false ->
  dataLines marker (String c s) = dataLines marker s.
Proof.
  intro Hstart. unfold dataLines. cbn [split].
  destruct (Ascii.eqb c LF) eqn:Ec.
  - cbn [map findIndex]. change (trim "") with "".
    assert (Hempty : includes "" marker = false)
      by (destruct marker; [discriminate marker_starts | reflexivity]).
    rewrite Hempty.
    destruct (findIndex _ (map trim (split LF s))) as [h|]; reflexivity.
  - destruct (split_cons s) as (l & ls & Hsplit). rewrite Hsplit.
    cbn [map findIndex].
    rewrite !(includes_trim marker marker_starts marker_ends), includes_cons.
    assert (Hfirst : startsWith (String c l) marker = false).
    { rewrite <- Hstart. symmetry.
      apply (startsWith_first_line (String c s) marker (String c l) ls marker_one_line).
      cbn [split]. rewrite Ec, Hsplit. reflexivity. }
    rewrite Hfirst. cbn [orb].
    destruct (includes l marker); [reflexivity |].
    destruct (findIndex _ (map trim ls)) as [h|]; reflexivity.
Qed.

Lemma cut_at_marker (s : string) :
  forall i, indexOf s marker = Some i ->
            startsWith (substringFrom s i) marker = true /\
            dataLines marker (substringFrom s i) = dataLines marker s.
Proof.
  induction s as [|c s IH]; intro i; cbn [indexOf].
  - destruct (startsWith "" marker) eqn:E; [| discriminate].
    intro H. inversion H. split; [exact E | reflexivity].
  - destruct (startsWith (String c s) marker) eqn:E.
    + intro H. inversion H. split; [exact E | reflexivity].
    + destruct (indexOf s marker) as [j|]; [| discriminate].
      intro H. inversion H. cbn [substringFrom].
      destruct (IH j eq_refl) as [Hs Hd]. split; [exact Hs |].
      rewrite Hd. symmetry. apply dataLines_cons. exact E.
Qed.

Lemma indexOf_includes (s : string) :
  match indexOf s marker with
  | Some _ => includes s marker = true
  | None => includes s marker = false
  end.
Proof.
  induction s as [|c s IH]; cbn [indexOf includes].
  - destruct (startsWith "" marker); reflexivity.
  - destruct (startsWith (String c s) marker); [reflexivity |].
    destruct (indexOf s marker); exact IH.
Qed.

End CutAtMarker.

Lemma startsWith_includes (s m : string) : startsWith s m = true -> includes s m = true.
Proof. intro H. destruct s; simpl; rewrite H; reflexivity. Qed.

(** Cutting the output at the volume header changes nothing. *)
Lemma parseVolumesFromDetail_cut (output : string) :
  parseVolumesFromDetail output
  = if includes output "Volume ###" then parseListVolume output else Ok [].
Proof.
  unfold parseVolumesFromDetail.
  pose proof (indexOf_includes "Volume ###" output) as Hi.
  destruct (indexOf output "Volume ###") as [i|] eqn:Ei; rewrite Hi; cbn [negb];
    [| reflexivity].
  destruct (cut_at_marker "Volume ###" eq_refl eq_refl eq_refl output i Ei)
    as [Hstart Hlines].
  unfold parseListVolume.
  destruct (parseTable_header "Volume ###"
              "Could not find volume list header in output" parseVolumeLine
              eq_refl eq_refl eq_refl (substringFrom output i))
    as [[Hno _] | [_ Hcut]];
    [rewrite (startsWith_includes _ _ Hstart) in Hno; discriminate |].
  destruct (parseTable_header "Volume ###"
              "Could not find volume list header in output" parseVolumeLine
              eq_refl eq_refl eq_refl output)
    as [[Hno _] | [_ Hwhole]]; [rewrite Hi in Hno; discriminate |].
  rewrite Hcut, Hwhole, Hlines. reflexivity.
Qed.

Lemma parseVolumesFromDetail_returns (output : string) :
  parseVolumesFromDetail output
  = Ok (if includes output "Volume ###"
        then matchingRows parseVolumeLine (dataLines "Volume ###" output)
        else []).
Proof.
  rewrite parseVolumesFromDetail_cut.
  destruct (includes output "Volume ###") eqn:Hi; [| reflexivity].
  destruct (parseTable_header "Volume ###"
              "Could not find volume list header in output" parseVolumeLine
              eq_refl eq_refl eq_refl output)
    as [[Hno _] | [_ Hwhole]]; [rewrite Hi in Hno; discriminate |].
  exact Hwhole.
Qed.

(** X24: cutting the output at the volume header changes nothing:
    [parseVolumesFromDetail] returns what [parseListVolume] returns on the
    whole output when the header "Volume ###" occurs, and the empty list
    when it does not; it never throws. *)
Theorem parseVolumesFromDetail_is_parseListVolume :
  forall output : string,
    parseVolumesFromDetail output
    = (if includes output "Volume ###" then parseListVolume output else Ok []) /\
    exists volumes, parseVolumesFromDetail output = Ok volumes.
Proof.
  intro output. split; [apply parseVolumesFromDetail_cut |].
  rewrite parseVolumesFromDetail_returns. eexists. reflexivity.
Qed.

(** The line loop of [parseDetailDisk] only ever sets its three fields. *)
Lemma detail_lines (ls : list string) :
  forall acc,
    fold_left detailLine ls acc
    = Partial.mk
        (if existsb (lineSays "Boot Disk" "Yes") ls
         then Some true else Partial.isBootDisk acc)
        (if existsb (lineSays "Pagefile Disk" "Yes") ls
         then Some true else Partial.isSystemDisk acc)
        (if existsb (lineSays "Type" "Dynamic") ls
         then Some DiskInfo.Dynamic else Partial.diskType acc).
Proof.
  induction ls as [|l ls IH]; intro acc; [destruct acc; reflexivity |].
  cbn [fold_left existsb]. rewrite IH. unfold detailLine, lineSays.
  destruct (includes l "Boot Disk" && includes l "Yes"),
    (includes l "Pagefile Disk" && includes l "Yes"),
    (includes l "Type" && includes l "Dynamic");
    cbn [orb Partial.isBootDisk Partial.isSystemDisk Partial.diskType];
    repeat match goal with
           | |- context [if ?b then _ else _] => destruct b
           end;
    reflexivity.
Qed.

(** X25: [parseDetailDisk] never throws, and it only ever sets its three
    fields: the boot flag when a line holds "Boot Disk" and "Yes", the
    type Dynamic when a line holds "Type" and "Dynamic", the system flag
    when a line holds "Pagefile Disk" and "Yes" or when the information
    column of a listed volume mentions system or boot in any casing.  No
    flag is ever set to false and no type other than Dynamic is reported. *)
Theorem parseDetailDisk_fields :
  forall output : string,
    let lines := map trim (split LF output) in
    let volumes :=
      if includes output "Volume ###"
      then matchingRows parseVolumeLine (dataLines "Volume ###" output)
      else [] in
    parseDetailDisk output
    = Ok (Partial.mk
            (if existsb (lineSays "Boot Disk" "Yes") lines then Some true else None)
            (if existsb (lineSays "Pagefile Disk" "Yes") lines
                || existsb mentionsSystem volumes
             then Some true else None)
            (if existsb (lineSays "Type" "Dynamic") lines
             then Some DiskInfo.Dynamic else None)).
Proof.
  intro output. unfold parseDetailDisk.
  rewrite parseVolumesFromDetail_returns, detail_lines.
  cbn [Partial.isBootDisk Partial.isSystemDisk Partial.diskType Partial.empty].
  set (volumes := if includes output "Volume ###" then _ else _).
  destruct volumes as [|v vs] eqn:Ev; cbn [List.length Nat.ltb Nat.leb].
  - cbn [existsb]. rewrite orb_false_r. reflexivity.
  - destruct (existsb mentionsSystem (v :: vs));
      [rewrite orb_true_r | rewrite orb_false_r]; reflexivity.
Qed.

(** ** The disk list *)

Lemma matchingRows_Forall {A} (row : string -> option A) (P : A -> Prop)
    (ls : list string) :
  (forall line r, row line = Some r -> P r) -> Forall P (matchingRows row ls).
Proof.
  intro H. unfold matchingRows.
  induction ls as [|l ls IH]; [constructor |].
  cbn [flat_map]. destruct (row l) as [r|] eqn:E; [| exact IH].
  constructor; [exact (H l r E) | exact IH].
Qed.

(** X26: whatever the output, no record of [parseListDisk] is reported
    with the partition style GPT, as a system disk, as a boot disk or with
    partitions: the list parser leaves these for other calls to fill in. *)
Theorem parseListDisk_records :
  forall output : string,
    match parseListDisk output with
    | Ok disks =>
        Forall (fun d => partitionStyle d = DiskInfo.MBR /\
                         Parser.isSystemDisk d = false /\
                         Parser.isBootDisk d = false /\
                         partitions d = []) disks
    | Throw e => code e = "PARSE_ERROR"
    end.
Proof.
  intro output. unfold parseListDisk, parseTable.
  destruct (findIndex _ _) as [h|]; [| reflexivity].
  rewrite collect_matchingRows. apply matchingRows_Forall.
  intros line d Hrow. split; [exact (parseDiskLine_never_gpt line d Hrow) |].
  unfold parseDiskLine in Hrow.
  destruct (String.eqb line "" || negb (startsWith line "Disk ")); [discriminate |].
  destruct (exec false diskLineRe line); [| discriminate].
  inversion Hrow. repeat split.
Qed.

(** ** The two classifiers *)

(** X27: the executor's classifier and the parser's differ on the words
    "invalid" and "not found" only: an output is a success for the
    executor exactly when it is one for [isSuccessOutput] and either holds
    a success phrase or holds neither word. *)
Theorem classifiers_agree :
  forall output : string,
    isCommandSuccessful output
    = isSuccessOutput output
      && (hasSuccessPhrase output
          || negb (occursIn output "invalid" || occursIn output "not found")).
Proof.
  intro output.
  unfold isCommandSuccessful, isSuccessOutput, hasSuccessPhrase, successPhrases,
    occursIn. cbn [existsb].
  destruct (includes (toLowerCase output) "diskpart successfully"); [reflexivity |].
  destruct (includes (toLowerCase output) "completed successfully"); [reflexivity |].
  destruct (includes (toLowerCase output) "error"); [reflexivity |].
  destruct (includes (toLowerCase output) "failed"); [reflexivity |].
  destruct (includes (toLowerCase output) "access is denied"); [reflexivity |].
  destruct (includes (toLowerCase output) "cannot"); [reflexivity |].
  destruct (includes (toLowerCase output) "invalid");
    [cbn [orb negb]; rewrite andb_false_r; reflexivity |].
  destruct (includes (toLowerCase output) "not found");
    [cbn [orb negb]; rewrite andb_false_r; reflexivity |].
  cbn [orb negb]. rewrite andb_true_r.
  destruct (trim output) eqn:Hblank; [| destruct (_ || _); reflexivity].
  pose proof (blank_no_word output "disk ###" eq_refl eq_refl Hblank) as Hd.
  pose proof (blank_no_word output "volume ###" eq_refl eq_refl Hblank) as Hv.
  pose proof (blank_no_word output "partition ###" eq_refl eq_refl Hblank) as Hp.
  unfold occursIn in Hd, Hv, Hp. rewrite Hd, Hv, Hp. reflexivity.
Qed.

(** ** Sizes that cannot be read *)

(** Where the leftmost match starts. *)
Lemma searchFrom_suffix (icase : bool) (r : regex) :
  forall s p m,
    searchFrom icase r p s = Some m ->
    exists pre suf y,
      s = pre ++ suf /\
      matcher icase r (mkState (p + String.length pre) suf []) Some = Some y.
Proof.
  induction s as [|ch s IH]; intros p m H; cbn [searchFrom] in H.
  - destruct (matcher icase r (mkState p "" []) Some) as [y|] eqn:E; [| discriminate].
    exists "", "", y. split; [reflexivity |]. cbn [String.length]. rewrite Nat.add_0_r.
    exact E.
  - destruct (matcher icase r (mkState p (String ch s) []) Some) as [y|] eqn:E.
    + exists "", (String ch s), y. split; [reflexivity |].
      cbn [String.length]. rewrite Nat.add_0_r. exact E.
    + destruct (IH (S p) m H) as (pre & suf & y & Hs & Hm).
      exists (String ch pre), suf, y. split; [cbn; rewrite Hs; reflexivity |].
      cbn [String.length]. rewrite Nat.add_succ_r. exact Hm.
Qed.

Lemma digit_class_inv (ch : ascii) :
  charMatches true false isDigit ch = true -> isDigit ch = true.
Proof.
  split_ascii ch; vm_compute; intro H; first [reflexivity | discriminate H].
Qed.

(** The size pattern starts at a digit. *)
Lemma sizeRe_needs_digit (s : string) (m : list (nat * string)) :
  exec true sizeRe s = Some m -> hasChar isDigit s = true.
Proof.
  unfold exec. intro E.
  destruct (searchFrom_suffix _ _ _ _ _ E) as (pre & suf & y & Hs & Hm).
  subst s. rewrite hasChar_app. apply orb_true_iff. right.
  unfold sizeRe in Hm. cbn [seqs] in Hm.
  change (matcher true (Seq ?r1 ?r2) ?x ?c)
    with (matcher true r1 x (fun y => matcher true r2 y c)) in Hm.
  change (matcher true (Group 1 ?r) ?x ?c)
    with (matcher true r x
            (fun y => c (setCapture 1 (substring 0 (pos y - pos x) (rest x)) y))) in Hm.
  unfold plus, digit in Hm. rewrite matcher_Quant in Hm.
  cbn [repeatMatcher Nat.eqb negb] in Hm.
  unfold clearCaptures in Hm. cbn [rest pos caps matcher] in Hm.
  destruct suf as [|ch suf]; [discriminate |].
  destruct (charMatches true false isDigit ch) eqn:Ec; [| discriminate].
  cbn [hasChar]. rewrite (digit_class_inv ch Ec). reflexivity.
Qed.

(** X28: [parseSize] returns 0, and neither fails nor returns a value
    that is not a number, for every text without a decimal digit and for
    every text without a letter B in either case. *)
Theorem parseSize_unreadable :
  forall s : string,
    hasChar isDigit s = false \/ hasChar isLetterB s = false ->
    parseSize s = ofZ 0.
Proof.
  intros s H. unfold parseSize.
  destruct (exec true sizeRe s) as [m|] eqn:E; [| reflexivity].
  destruct H as [H | H].
  - rewrite (sizeRe_needs_digit _ _ E) in H. discriminate.
  - rewrite (sizeRe_needs_B _ _ E) in H. discriminate.
Qed.

Lemma parseSize_unreadable_witness :
  parseSize "unknown" = ofZ 0 /\ parseSize "1024 undefined" = ofZ 0.
Proof.
  split.
  - apply (parseSize_unreadable "unknown"). left. reflexivity.
  - apply (parseSize_unreadable "1024 undefined"). right. reflexivity.
Defined.

(** ** The normalizers *)

Lemma upperChar_class (c : ascii) :
  isWhiteSpace (upperChar c) = isWhiteSpace c /\
  lowerChar (upperChar c) = lowerChar c /\
  lowerChar (lowerChar c) = lowerChar c.
Proof. split_ascii c; vm_compute; repeat split. Qed.

Lemma trimStart_toUpperCase (s : string) :
  trimStart (toUpperCase s) = toUpperCase (trimStart s).
Proof.
  unfold toUpperCase. induction s as [|c s IH]; [reflexivity |].
  cbn [mapChars trimStart]. rewrite (proj1 (upperChar_class c)).
  destruct (isWhiteSpace c); [exact IH | reflexivity].
Qed.

Lemma trimEnd_toUpperCase (s : string) :
  trimEnd (toUpperCase s) = toUpperCase (trimEnd s).
Proof.
  unfold toUpperCase. induction s as [|c s IH]; [reflexivity |].
  cbn [mapChars trimEnd]. rewrite (proj1 (upperChar_class c)), IH.
  destruct (trimEnd s); cbn [mapChars]; [| reflexivity].
  destruct (isWhiteSpace c); reflexivity.
Qed.

Lemma lower_of_upper (s : string) : toLowerCase (toUpperCase s) = toLowerCase s.
Proof.
  unfold toLowerCase, toUpperCase. induction s as [|c s IH]; [reflexivity |].
  cbn [mapChars]. rewrite IH, (proj1 (proj2 (upperChar_class c))). reflexivity.
Qed.

Lemma lower_of_lower (s : string) : toLowerCase (toLowerCase s) = toLowerCase s.
Proof.
  unfold toLowerCase. induction s as [|c s IH]; [reflexivity |].
  cbn [mapChars]. rewrite IH, (proj2 (proj2 (upperChar_class c))). reflexivity.
Qed.

(** What the normalizers look at is the same for every casing. *)
Lemma normalized_casing (s : string) :
  toLowerCase (trim (toUpperCase s)) = toLowerCase (trim s) /\
  toLowerCase (trim (toLowerCase s)) = toLowerCase (trim s).
Proof.
  split.
  - unfold trim. rewrite trimStart_toUpperCase, trimEnd_toUpperCase.
    apply lower_of_upper.
  - rewrite trim_toLowerCase. apply lower_of_lower.
Qed.

(** X29: on ASCII text the three normalizers ignore the casing of their
    input: the upper-cased and the lower-cased text are classified as the
    text is. *)
Theorem normalizers_ignore_case :
  forall s : string,
    isAsciiText s = true ->
    normalizeStatus (toUpperCase s) = normalizeStatus s /\
    normalizeStatus (toLowerCase s) = normalizeStatus s /\
    normalizeVolumeType (toUpperCase s) = normalizeVolumeType s /\
    normalizeVolumeType (toLowerCase s) = normalizeVolumeType s /\
    normalizePartitionType (toUpperCase s) = normalizePartitionType s /\
    normalizePartitionType (toLowerCase s) = normalizePartitionType s.
Proof.
  intros s _. destruct (normalized_casing s) as [Hu Hl].
  unfold normalizeStatus, normalizeVolumeType, normalizePartitionType.
  rewrite Hu, Hl. repeat split.
Qed.

Lemma normalizers_ignore_case_witness :
  normalizeStatus "ONLINE" = normalizeStatus "Online" /\
  normalizePartitionType "extended" = normalizePartitionType "Extended".
Proof.
  destruct (normalizers_ignore_case "Online" eq_refl) as (Hu & _).
  destruct (normalizers_ignore_case "Extended" eq_refl) as (_ & _ & _ & _ & _ & Hl).
  split; [exact Hu | exact Hl].
Defined.

(** ** The executor: a run that succeeds *)

(** X30: a run in which the tool exits normally with an output the
    classifier accepts.  The result is a success without code or details;
    its data hold the classified output and both streams, the output being
    the standard output unless that is empty, and then the standard error
    output.  The last entry logged reports the success. *)
Theorem executeDiskpartCommand_success :
  forall (fmt : NumberFormat) (T : Type) (w : World) (command : string)
         (timeout : option number) (probe : list event) (stdout stderr : string),
    run isRunningAsAdmin w = (Ok true, probe) ->
    writeFileOutcome w (scriptPathOf w) command = Ok tt ->
    execOutcome w (toolCommand (scriptPathOf w)) = Ok (stdout, stderr) ->
    isCommandSuccessful (orStr stdout stderr) = true ->
    run (executeDiskpartCommand (T := T) command timeout) w =
    (Ok (mkResult true "Command executed successfully" None None
                  (Some (Output (orStr stdout stderr) stdout stderr))),
     (probe ++ [Log "COMMAND" ("Executing: " ++ command);
                WriteFile (scriptPathOf w) command;
                Exec (toolCommand (scriptPathOf w)) (timeoutOf timeout)]
            ++ snd (run (deleteTempScript (scriptPathOf w)) w)
            ++ [Log "INFO" ("Command succeeded: " ++ command)])%list).
Proof.
  intros fmt T w command timeout probe stdout stderr Hprobe Hwrite Hexec Hok.
  unfold timeoutOf. unfold_exec. cbn in Hprobe |- *. case_probe w Hprobe.
  all: inversion Hprobe; subst probe; clear Hprobe.
  all: name_path w path; rewrite Hwrite; cbn.
  all: name_line w path line; rewrite Hexec; cbn.
  all: rewrite orStr_empty_r, Hok.
  all: destruct (existsSyncOutcome w path); cbn;
    [destruct (unlinkOutcome w path); cbn |]; reflexivity.
Qed.

Lemma executeDiskpartCommand_success_witness :
  fst (run (executeDiskpartCommand (fmt := exampleFormat) (T := unit) "list disk" None)
           (toolPrints diskTable))
  = Ok (mkResult true "Command executed successfully" None None
                 (Some (Output diskTable diskTable ""))).
Proof.
  rewrite (executeDiskpartCommand_success
             exampleFormat unit (toolPrints diskTable) "list disk" None
             [Exec "net session" (ofZ 5000)] diskTable ""
             eq_refl eq_refl eq_refl eq_refl).
  reflexivity.
Defined.
